(** * Product-Card-Generator: the image compositing core

    A shallow embedding of the parts of the compositing engine that carry
    its decisions: the quadrilateral validator ([point_validator.py]), the
    dominant-colour analysis ([color_analyzer.py]), the skin detector
    ([skin_detector.py]), the multi-area perspective transformer
    ([perspective_transformer.py]) and the layer classification and render
    mode selection of the layered-template processor ([psd_processor.py]).

    Conventions.
    - Python [int] is [Z]; lengths and indices are [nat].
    - A raised exception is a value [PyExc] (class name and message);
      a function that may raise returns [exc A].
    - Python floats are idealised as exact rationals ([Q]).  Every float the
      modelled code compares against a threshold is a single correctly
      rounded quotient of two integers, or a short expression of such, so
      the idealisation can only differ from IEEE arithmetic when the exact
      value sits within a few units in the last place of the threshold.
    - Pixel kernels of OpenCV, Pillow and scikit-learn (colour conversion,
      warping, blurring, resampling, k-means) are not part of the
      repository; they are section variables of the modules that call
      them. *)

From stdpp Require Import base list strings.
From Stdlib Require Import ZArith QArith Qround Qminmax DecimalString Lia Lqa.

Open Scope Z_scope.

(** ** Python exceptions *)

Record PyExc := mkExc { exc_type : string; exc_msg : string }.

Definition exc (A : Type) : Type := (PyExc + A)%type.

Definition raise {A} (ty msg : string) : exc A := inl (mkExc ty msg).
Definition ret {A} (a : A) : exc A := inr a.

Definition raises {A} (r : exc A) (ty : string) : Prop :=
  ∃ msg, r = inl (mkExc ty msg).

Definition str_of_nat (n : nat) : string :=
  NilEmpty.string_of_uint (Nat.to_uint n).

(** ** point_validator.py *)

Module PointValidator.

Definition point : Type := (Z * Z)%type.

(** [ccw] of [is_self_intersecting]. *)
Definition ccw (a b c : point) : bool :=
  (c.2 - a.2) * (b.1 - a.1) >? (b.2 - a.2) * (c.1 - a.1).

(** [a != b] on Python booleans. *)
Definition bool_ne (a b : bool) : bool := xorb a b.

Definition segments_intersect (p1 p2 p3 p4 : point) : bool :=
  bool_ne (ccw p1 p3 p4) (ccw p2 p3 p4) && bool_ne (ccw p1 p2 p3) (ccw p1 p2 p4).

Definition is_self_intersecting (points : list point) : bool :=
  match points with
  | [p0; p1; p2; p3] =>
      if segments_intersect p0 p1 p2 p3 then true
      else if segments_intersect p1 p2 p3 p0 then true
      else false
  | _ => true
  end.

Definition validate_points (points : list point) (image_width image_height : Z)
  : exc unit :=
  if negb (length points =? 4)%nat then
    raise "ValidationError"
          ("Expected 4 corner points, got " +:+ str_of_nat (length points))
  else if is_self_intersecting points then
    raise "ValidationError" "Corner points form a self-intersecting quadrilateral"
  else ret tt.

(** [cross_product_sign] and [is_convex_quadrilateral]: a separate query,
    never called by [validate_points]. *)
Definition cross_product_sign (o a b : point) : Z :=
  (a.1 - o.1) * (b.2 - o.2) - (a.2 - o.2) * (b.1 - o.1).

Definition is_convex_quadrilateral (points : list point) : bool :=
  match points with
  | [p0; p1; p2; p3] =>
      let cps := [cross_product_sign p0 p1 p2; cross_product_sign p1 p2 p3;
                  cross_product_sign p2 p3 p0; cross_product_sign p3 p0 p1] in
      let signs := (λ cp, cp >? 0) <$> filter (λ cp, cp ≠ 0) cps in
      match signs with
      | [] => false
      | s0 :: _ => forallb (λ s, Bool.eqb s s0) signs
      end
  | _ => false
  end.

(** The two readings of "self-intersecting" that are compared below.

    [diagonals_cross] follows the words of the specification: the segment
    points[0]-points[2] against the segment points[1]-points[3].

    [opposite_edges_cross] names the pairs the code tests: edge 0-1
    against edge 2-3, and edge 1-2 against edge 3-0. *)
Definition diagonals_cross (points : list point) : bool :=
  match points !! 0%nat, points !! 1%nat, points !! 2%nat, points !! 3%nat with
  | Some p0, Some p1, Some p2, Some p3 => segments_intersect p0 p2 p1 p3
  | _, _, _, _ => false
  end.

Definition opposite_edges_cross (points : list point) : bool :=
  match points !! 0%nat, points !! 1%nat, points !! 2%nat, points !! 3%nat with
  | Some p0, Some p1, Some p2, Some p3 =>
      segments_intersect p0 p1 p2 p3 || segments_intersect p1 p2 p3 p0
  | _, _, _, _ => false
  end.

(** A point with integer coordinates lying on the closed segment [a]-[b]. *)
Definition on_segment (q a b : point) : bool :=
  ((q.1 - a.1) * (b.2 - a.2) =? (q.2 - a.2) * (b.1 - a.1))
  && (Z.min a.1 b.1 <=? q.1) && (q.1 <=? Z.max a.1 b.1)
  && (Z.min a.2 b.2 <=? q.2) && (q.2 <=? Z.max a.2 b.2).

Definition bowtie : list point := [(0, 0); (0, 10); (10, 0); (10, 10)].
Definition rectangle : list point := [(0, 0); (10, 0); (10, 10); (0, 10)].

End PointValidator.

(** ** Float helpers (idealised over [Q]) *)

Definition Qltb (x y : Q) : bool := negb (Qle_bool y x).
Definition Qleb (x y : Q) : bool := Qle_bool x y.

Definition Qmax3 (a b c : Q) : Q := Qmax (Qmax a b) c.
Definition Qmin3 (a b c : Q) : Q := Qmin (Qmin a b) c.

(** [x % 1.0] for a float [x]. *)
Definition Qmod1 (x : Q) : Q := (x - inject_Z (Qfloor x))%Q.

(** [int(x)]: truncation towards zero. *)
Definition py_int (x : Q) : Z := if Qltb x 0 then Qceiling x else Qfloor x.

(** [round(x)] to an integer: nearest, ties to the even neighbour. *)
Definition py_round (x : Q) : Z :=
  let f := Qfloor x in
  let d := (x - inject_Z f)%Q in
  if Qltb d (1 # 2) then f
  else if Qltb (1 # 2) d then f + 1
  else if Z.even f then f else f + 1.

Definition Qsum (l : list Q) : Q := foldr Qplus 0%Q l.

(** [np.mean] of a non-empty vector. *)
Definition Qmean (l : list Q) : Q := (Qsum l / inject_Z (Z.of_nat (length l)))%Q.

(** ** color_analyzer.py *)

Module ColorAnalyzer.

Definition rgb : Type := (Z * Z * Z)%type.
Definition hsv : Type := (Q * Q * Q)%type.

Definition red (c : rgb) : Z := c.1.1.
Definition green (c : rgb) : Z := c.1.2.
Definition blue (c : rgb) : Z := c.2.

Definition hue (x : hsv) : Q := x.1.1.
Definition sat (x : hsv) : Q := x.1.2.
Definition val (x : hsv) : Q := x.2.

Definition VALUE_LOW_THRESHOLD : Q := 10.
Definition VALUE_HIGH_THRESHOLD : Q := 245.
Definition SATURATION_MIN_THRESHOLD : Q := 10.
Definition LOW_AVG_SATURATION_THRESHOLD : Q := 15.
Definition MIN_RESULT_SATURATION : Q := 20.
Definition NEUTRAL_GRAY : rgb := (128, 128, 128).
Definition MIN_PIXELS_FOR_CLUSTERING : nat := 10.

(** [_rgb_to_hsv], one row of the vectorised computation:
    H in 0..360, S and V in 0..255. *)
Definition _rgb_to_hsv (p : rgb) : hsv :=
  let r := (inject_Z (red p) / 255)%Q in
  let g := (inject_Z (green p) / 255)%Q in
  let b := (inject_Z (blue p) / 255)%Q in
  let maxc := Qmax3 r g b in
  let minc := Qmin3 r g b in
  let v := maxc in
  let deltac := (maxc - minc)%Q in
  let s := if negb (Qeq_bool maxc 0) then (deltac / maxc)%Q else 0%Q in
  let mask := negb (Qeq_bool deltac 0) in
  let rc := if mask then ((maxc - r) / deltac)%Q else 0%Q in
  let gc := if mask then ((maxc - g) / deltac)%Q else 0%Q in
  let bc := if mask then ((maxc - b) / deltac)%Q else 0%Q in
  let h := 0%Q in
  let h := if Qeq_bool r maxc then (bc - gc)%Q else h in
  let h := if Qeq_bool g maxc then (2 + rc - bc)%Q else h in
  let h := if Qeq_bool b maxc then (4 + gc - rc)%Q else h in
  let h := Qmod1 (h / 6) in
  ((h * 360)%Q, (s * 255)%Q, (v * 255)%Q).

(** The boolean mask of [_filter_pixels]. *)
Definition valid_pixel (p : rgb) : bool :=
  let x := _rgb_to_hsv p in
  Qleb VALUE_LOW_THRESHOLD (val x)
  && Qleb (val x) VALUE_HIGH_THRESHOLD
  && Qleb SATURATION_MIN_THRESHOLD (sat x).

Definition _filter_pixels (rgb_pixels : list rgb) : list rgb * list hsv :=
  let kept := List.filter valid_pixel rgb_pixels in
  (kept, _rgb_to_hsv <$> kept).

Definition _get_average_saturation (hsv_pixels : list hsv) : Q :=
  if (length hsv_pixels =? 0)%nat then 0%Q else Qmean (sat <$> hsv_pixels).

(** [colorsys.rgb_to_hsv] and [colorsys.hsv_to_rgb] of the Python standard
    library, on floats in 0..1. *)
Definition colorsys_rgb_to_hsv (r g b : Q) : hsv :=
  let maxc := Qmax3 r g b in
  let minc := Qmin3 r g b in
  let rangec := (maxc - minc)%Q in
  let v := maxc in
  if Qeq_bool minc maxc then (0%Q, 0%Q, v)
  else
    let s := (rangec / maxc)%Q in
    let rc := ((maxc - r) / rangec)%Q in
    let gc := ((maxc - g) / rangec)%Q in
    let bc := ((maxc - b) / rangec)%Q in
    let h := if Qeq_bool r maxc then (bc - gc)%Q
             else if Qeq_bool g maxc then (2 + rc - bc)%Q
             else (4 + gc - rc)%Q in
    (Qmod1 (h / 6), s, v).

Definition colorsys_hsv_to_rgb (h s v : Q) : Q * Q * Q :=
  if Qeq_bool s 0 then (v, v, v)
  else
    let i := py_int (h * 6) in
    let f := (h * 6 - inject_Z i)%Q in
    let p := (v * (1 - s))%Q in
    let q := (v * (1 - s * f))%Q in
    let t := (v * (1 - s * (1 - f)))%Q in
    let i := i mod 6 in
    if i =? 0 then (v, t, p)
    else if i =? 1 then (q, v, p)
    else if i =? 2 then (p, v, t)
    else if i =? 3 then (p, q, v)
    else if i =? 4 then (t, p, v)
    else (v, p, q).

Definition _get_color_saturation (rgb_color : rgb) : Q :=
  let x := colorsys_rgb_to_hsv (inject_Z (red rgb_color) / 255)
                               (inject_Z (green rgb_color) / 255)
                               (inject_Z (blue rgb_color) / 255) in
  (sat x * 255)%Q.

Definition _boost_saturation (rgb_color : rgb) (target_saturation : Q) : rgb :=
  let x := colorsys_rgb_to_hsv (inject_Z (red rgb_color) / 255)
                               (inject_Z (green rgb_color) / 255)
                               (inject_Z (blue rgb_color) / 255) in
  let new_s := (target_saturation / 255)%Q in
  let '(new_r, new_g, new_b) := colorsys_hsv_to_rgb (hue x) new_s (val x) in
  (py_round (new_r * 255), py_round (new_g * 255), py_round (new_b * 255)).

(** A Pillow image: mode, size (width, height) and the pixels in row-major
    order, one list of band values per pixel. *)
Record PILImage := mkImage {
  pil_mode : string;
  pil_width : nat;
  pil_height : nat;
  pil_data : list (list Z)
}.

(** [np.array(resized).reshape(-1, 3)] of an RGB image. *)
Definition pixels_flat (img : PILImage) : list rgb :=
  (λ px, (nth 0 px 0, nth 1 px 0, nth 2 px 0)) <$> pil_data img.

Section Analyzer.

(** [Image.resize(size, LANCZOS)] and [Image.convert('RGB')] of Pillow. *)
Variable pil_resize_lanczos : PILImage → nat → nat → PILImage.
Variable pil_convert_rgb : PILImage → PILImage.

(** scikit-learn's [KMeans(n_clusters, random_state=42, n_init=10).fit]
    followed by the choice of the centre of the most populated cluster; the
    library raises for a cluster count it rejects. *)
Variable kmeans_dominant_center : Z → list rgb → exc (Q * Q * Q).

(** The constructor's [n_clusters]. *)
Variable n_clusters : Z.

Definition _resize_for_analysis (image : PILImage) (max_size : nat) : PILImage :=
  let width := pil_width image in
  let height := pil_height image in
  if (width <=? max_size)%nat && (height <=? max_size)%nat then image
  else
    let scale := (inject_Z (Z.of_nat max_size)
                  / inject_Z (Z.of_nat (Nat.max width height)))%Q in
    let new_width := py_int (inject_Z (Z.of_nat width) * scale) in
    let new_height := py_int (inject_Z (Z.of_nat height) * scale) in
    pil_resize_lanczos image (Z.to_nat new_width) (Z.to_nat new_height).

(** The clustering step: the candidate colour. *)
Definition cluster_candidate (filtered_pixels : list rgb) : exc rgb :=
  let n_unique_colors := length (remove_dups filtered_pixels) in
  let actual_clusters := Z.min n_clusters (Z.of_nat n_unique_colors) in
  if actual_clusters =? 1 then
    match filtered_pixels with
    | color :: _ => ret color
    | [] => raise "IndexError" "index 0 is out of bounds for axis 0 with size 0"
    end
  else
    match kmeans_dominant_center actual_clusters filtered_pixels with
    | inl e => inl e
    | inr (c0, c1, c2) => ret (py_round c0, py_round c1, py_round c2)
    end.

(** The validation step that closes [get_dominant_color]. *)
Definition validate_saturation (result : rgb) (original_avg_saturation : Q) : rgb :=
  let result_saturation := _get_color_saturation result in
  if Qltb result_saturation MIN_RESULT_SATURATION
     && Qleb 30 original_avg_saturation
  then _boost_saturation result (MIN_RESULT_SATURATION + 3)
  else result.

(** [get_dominant_color] from [pixels_flat] onwards. *)
Definition dominant_of_pixels (pixels_flat : list rgb) : exc rgb :=
  let original_hsv := _rgb_to_hsv <$> pixels_flat in
  let original_avg_saturation := _get_average_saturation original_hsv in
  if Qltb original_avg_saturation LOW_AVG_SATURATION_THRESHOLD then
    ret NEUTRAL_GRAY
  else
    let '(filtered_pixels, filtered_hsv) := _filter_pixels pixels_flat in
    if (length filtered_pixels <? MIN_PIXELS_FOR_CLUSTERING)%nat then
      ret NEUTRAL_GRAY
    else
      match cluster_candidate filtered_pixels with
      | inl e => inl e
      | inr result => ret (validate_saturation result original_avg_saturation)
      end.

Definition analysed_image (image : PILImage) : PILImage :=
  let resized := _resize_for_analysis image 150 in
  if negb (String.eqb (pil_mode resized) "RGB") then pil_convert_rgb resized
  else resized.

Definition get_dominant_color (image : PILImage) : exc rgb :=
  dominant_of_pixels (pixels_flat (analysed_image image)).

End Analyzer.

(** A clustering routine for inputs that never reach it. *)
Definition kmeans_unused (k : Z) (pixels : list rgb) : exc (Q * Q * Q) :=
  raise "RuntimeError" "k-means is not expected to run".

(** Twenty pixels: ten of a pale pink and ten of a very dark saturated red,
    which the filter drops as near-black. *)
Definition diluted_pixels : list rgb :=
  replicate 10 (200, 190, 190) ++ replicate 10 (5, 0, 0).

(** The largest channel: the value of the colour on the 0..255 scale. *)
Definition max_channel (c : rgb) : Z := Z.max (Z.max (red c) (green c)) (blue c).

End ColorAnalyzer.

(** ** NumPy arrays of 8-bit images

    Only the two ranks the code distinguishes: [Arr2 h w data] has shape
    (h, w); [Arr3 h w c data] has shape (h, w, c) and holds its pixels in
    row-major order, each pixel being the list of its [c] channel values. *)

Inductive ndarray :=
| Arr2 (h w : nat) (data : list Z)
| Arr3 (h w c : nat) (data : list (list Z)).

(** [arr.size] *)
Definition arr_size (a : ndarray) : nat :=
  match a with
  | Arr2 h w _ => h * w
  | Arr3 h w c _ => h * w * c
  end.

(** [len(arr.shape)] *)
Definition arr_ndim (a : ndarray) : nat :=
  match a with Arr2 _ _ _ => 2 | Arr3 _ _ _ _ => 3 end.

(** Shape and payload agree. *)
Definition arr_wf (a : ndarray) : Prop :=
  match a with
  | Arr2 h w data => length data = (h * w)%nat
  | Arr3 h w c data =>
      length data = (h * w)%nat ∧ Forall (λ px, length px = c) data
  end.

(** [np.zeros(shape, dtype=np.uint8)] for a rank-2 shape. *)
Definition zeros2 (h w : nat) : ndarray := Arr2 h w (replicate (h * w) 0).

(** Channel [k] of a pixel. *)
Definition chan (k : nat) (px : list Z) : Z := nth k px 0.

(** [np.sum] of a boolean vector. *)
Definition count_true (l : list bool) : nat := length (List.filter id l).

(** ** skin_detector.py *)

Module SkinDetector.

Record HSVRange := mkRange {
  range_h : Z * Z;
  range_s : Z * Z;
  range_v : Z * Z
}.

Definition SKIN_RANGES : list (string * HSVRange) :=
  [ ("light",   mkRange (0, 25) (20, 90) (180, 255));
    ("medium",  mkRange (0, 25) (30, 100) (120, 220));
    ("dark",    mkRange (0, 30) (30, 100) (50, 160));
    ("olive",   mkRange (15, 35) (25, 90) (100, 200));
    ("reddish", mkRange (0, 15) (40, 100) (100, 230)) ].

(** [cv2.inRange] at one pixel: 255 inside the box, 0 outside. *)
Definition inRange (x : Z * Z * Z) (ranges : HSVRange) : Z :=
  let '(h, s, v) := x in
  if ((range_h ranges).1 <=? h) && (h <=? (range_h ranges).2)
     && ((range_s ranges).1 <=? s) && (s <=? (range_s ranges).2)
     && ((range_v ranges).1 <=? v) && (v <=? (range_v ranges).2)
  then 255 else 0.

(** [is_skin_color] *)
Definition is_skin_color (h s v : Z) : bool :=
  existsb (λ nr, 0 <? inRange (h, s, v) nr.2) SKIN_RANGES.

Section Detector.

(** [cv2.cvtColor(rgb, cv2.COLOR_RGB2HSV)] at one 8-bit pixel. *)
Variable cv_rgb2hsv : Z * Z * Z → Z * Z * Z.

(** [cv2.GaussianBlur(mask, (k, k), 0)] *)
Variable cv_gaussian_blur : ndarray → Z → ndarray.

(** The constructor's [feather_radius]. *)
Variable _feather_radius : Z.

(** A pixel whose HSV value falls in one of the five boxes, and a pixel
    with alpha above 127. *)
Definition is_skin_pixel (px : list Z) : bool :=
  let '(h, s, v) := cv_rgb2hsv (chan 0 px, chan 1 px, chan 2 px) in
  is_skin_color h s v.

Definition is_visible_pixel (px : list Z) : bool := chan 3 px >? 127.

(** The running [np.maximum] over the five range masks, then the clip to
    0..255, at one pixel. *)
Definition combined_mask_at (px : list Z) : Z :=
  let x := cv_rgb2hsv (chan 0 px, chan 1 px, chan 2 px) in
  let combined := foldl (λ acc nr, Z.max acc (inRange x nr.2)) 0 SKIN_RANGES in
  Z.max 0 (Z.min combined 255).

Definition detect_skin_mask (image : option ndarray) (feather_radius : option Z)
  : ndarray :=
  match image with
  | None => zeros2 1 1
  | Some img =>
      if (arr_size img =? 0)%nat then zeros2 1 1
      else
        let feather_radius := default _feather_radius feather_radius in
        match img with
        | Arr3 h w c data =>
            if (c =? 4)%nat || (c =? 3)%nat then
              let combined_mask := Arr2 h w (combined_mask_at <$> data) in
              if feather_radius >? 0
              then cv_gaussian_blur combined_mask (feather_radius * 2 + 1)
              else combined_mask
            else zeros2 1 1
        | Arr2 h w _ => zeros2 h w
        end
  end.

Definition mask_data (m : ndarray) : list Z :=
  match m with
  | Arr2 _ _ data => data
  | Arr3 _ _ _ data => concat data
  end.

(** [skin_pixels / total] as a float. *)
Definition ratio (skin_pixels total : nat) : Q :=
  (inject_Z (Z.of_nat skin_pixels) / inject_Z (Z.of_nat total))%Q.

Definition get_skin_percentage (image : option ndarray) : Q :=
  match image with
  | None => 0%Q
  | Some img =>
      if (arr_size img =? 0)%nat then 0%Q
      else
        let mask := detect_skin_mask image (Some 0) in
        if (arr_size mask =? 0)%nat then 0%Q
        else
          match img with
          | Arr3 _ _ 4 data =>
              let visible_mask := (λ px, chan 3 px >? 127) <$> data in
              let total_visible := count_true visible_mask in
              if (total_visible =? 0)%nat then 0%Q
              else
                let skin_pixels :=
                  count_true (zip_with andb ((λ m, m >? 127) <$> mask_data mask)
                                            visible_mask) in
                ratio skin_pixels total_visible
          | _ =>
              let skin_pixels := count_true ((λ m, m >? 127) <$> mask_data mask) in
              let total_pixels := arr_size mask in
              if (0 <? total_pixels)%nat then ratio skin_pixels total_pixels
              else 0%Q
          end
  end.

(** The default of the keyword argument [threshold] of [is_photo_layer]. *)
Definition is_photo_layer_default_threshold : Q := 5 # 100.

(** [is_photo_layer(image, threshold=0.05)]: [None] stands for a call that
    does not pass [threshold]. *)
Definition is_photo_layer (image : option ndarray) (threshold : option Q) : bool :=
  let threshold := default is_photo_layer_default_threshold threshold in
  match image with
  | None => false
  | Some img =>
      if (arr_size img =? 0)%nat then false
      else
        let skin_percentage := get_skin_percentage image in
        Qleb threshold skin_percentage
  end.

End Detector.

(** The 8-bit RGB to HSV conversion as the OpenCV documentation gives it:
    V = max, S = 255 (max - min) / max, H = hue in degrees / 2, each rounded
    to the nearest integer.  It instantiates [cv_rgb2hsv] in the closed
    examples, on pixels whose conversion needs no rounding of H and is far
    from the borders of the boxes. *)
Definition hsv8_reference (p : Z * Z * Z) : Z * Z * Z :=
  let '(r, g, b) := p in
  let v := Z.max (Z.max r g) b in
  let m := Z.min (Z.min r g) b in
  let diff := v - m in
  let s := if v =? 0 then 0 else py_round (inject_Z (255 * diff) / inject_Z v) in
  let deg :=
    if diff =? 0 then 0%Q
    else if v =? r then (60 * inject_Z (g - b) / inject_Z diff)%Q
    else if v =? g then (120 + 60 * inject_Z (b - r) / inject_Z diff)%Q
    else (240 + 60 * inject_Z (r - g) / inject_Z diff)%Q in
  let deg := if Qltb deg 0 then (deg + 360)%Q else deg in
  (py_round (deg / 2), s, v).

(** A blur that is never reached when the feather radius is 0. *)
Definition no_blur (m : ndarray) (k : Z) : ndarray := m.

(** A 5 x 5 opaque RGB image: one pixel of light skin tone, 24 of pure blue. *)
Definition one_skin_pixel_in_25 : ndarray :=
  Arr3 5 5 3 ([200; 160; 150] :: replicate 24 [0; 0; 255]).

End SkinDetector.

(** ** Python dictionaries *)

(** A Python [dict] with string keys, in insertion order. *)
Definition dict (V : Type) : Type := list (string * V).

Definition dict_get {V} (key : string) (d : dict V) : option V :=
  snd <$> List.find (λ kv, String.eqb kv.1 key) d.

(** [d[key] = v]: in place for a key that is there, at the end otherwise. *)
Fixpoint dict_set {V} (key : string) (v : V) (d : dict V) : dict V :=
  match d with
  | [] => [(key, v)]
  | (k, x) :: rest =>
      if String.eqb k key then (k, v) :: rest else (k, x) :: dict_set key v rest
  end.

Definition dict_keys {V} (d : dict V) : list string := fst <$> d.

(** ** file_utils.py *)

Module FileUtils.

Definition _CACHE_MAX_SIZE : nat := 50.

Section Loader.

(** [Path.exists()]. *)
Variable path_exists : string → bool.

(** The decoding part of [load_image_cv2]: the array in BGR(A) channel
    order, or the [ValueError] of a file that cannot be read. *)
Variable decode_image : string → exc ndarray.

(** [load_image_cv2(file_path, use_cache)] on the module-level
    [_image_cache]: the outcome and the cache afterwards. *)
Definition load_image_cv2 (_image_cache : dict ndarray) (file_path : string)
    (use_cache : bool) : exc ndarray * dict ndarray :=
  let cache_key := file_path in
  match (if use_cache then dict_get cache_key _image_cache else None) with
  | Some img => (ret img, _image_cache)
  | None =>
      if negb (path_exists file_path) then
        (raise "ValueError" ("File does not exist: " +:+ file_path), _image_cache)
      else
        match decode_image file_path with
        | inl e => (inl e, _image_cache)
        | inr result =>
            if use_cache then
              let _image_cache :=
                if (_CACHE_MAX_SIZE <=? length _image_cache)%nat
                then drop (_CACHE_MAX_SIZE / 2) _image_cache
                else _image_cache in
              (ret result, dict_set cache_key result _image_cache)
            else (ret result, _image_cache)
        end
  end.

(** [clear_image_cache] *)
Definition clear_image_cache (_image_cache : dict ndarray) : dict ndarray := [].

End Loader.

End FileUtils.

(** ** perspective_transformer.py *)

Module PerspectiveTransformer.

Import PointValidator.

(** A [pathlib.Path], held by its string form. *)
Definition Path : Type := string.

Definition slash : Ascii.ascii := Ascii.ascii_of_nat 47.

Fixpoint has_slash (s : string) : bool :=
  match s with
  | EmptyString => false
  | String c rest => Ascii.eqb c slash || has_slash rest
  end.

(** [Path.name]: the final component. *)
Fixpoint path_name (p : Path) : string :=
  match p with
  | EmptyString => EmptyString
  | String c rest =>
      if has_slash rest then path_name rest
      else if Ascii.eqb c slash then rest else String c rest
  end.

(** [cv2.cvtColor(img, cv2.COLOR_BGR2BGRA)] and [cv2.COLOR_GRAY2BGRA]:
    an opaque alpha channel is appended. *)
Definition bgr2bgra (h w : nat) (data : list (list Z)) : ndarray :=
  Arr3 h w 4 ((λ px, [chan 0 px; chan 1 px; chan 2 px; 255]) <$> data).

Definition gray2bgra (h w : nat) (data : list Z) : ndarray :=
  Arr3 h w 4 ((λ g, [g; g; g; 255]) <$> data).

(** [x.astype(np.uint8)] of a float inside 0..255: the fraction is dropped. *)
Definition to_uint8 (x : Q) : Z := py_int x.

(** One pixel of
    [alpha * warped[:, :, c] + (1 - alpha) * result[:, :, c]] for c in 0..2,
    with [alpha = warped[:, :, 3] / 255.0]; the alpha of [result] stays. *)
Definition composite_pixel (warped result : list Z) : list Z :=
  let alpha := (inject_Z (chan 3 warped) / 255)%Q in
  let mix c := to_uint8 (alpha * inject_Z (chan c warped)
                         + (1 - alpha) * inject_Z (chan c result)) in
  [mix 0%nat; mix 1%nat; mix 2%nat] ++ drop 3 result.

Definition composite_onto (warped result : ndarray) : ndarray :=
  match warped, result with
  | Arr3 _ _ _ wdata, Arr3 h w c rdata =>
      Arr3 h w c (zip_with composite_pixel wdata rdata)
  | _, _ => result
  end.

(** [product[:, :, 3] = (alpha * mask / 255.0).astype(np.uint8)] *)
Definition multiply_alpha (product mask : ndarray) : ndarray :=
  match product, mask with
  | Arr3 h w c data, Arr2 _ _ mdata =>
      Arr3 h w c
        (zip_with (λ px m,
           take 3 px ++ [to_uint8 (inject_Z (chan 3 px) * (inject_Z m / 255))]
                  ++ drop 4 px) data mdata)
  | _, _ => product
  end.

Definition any_alpha_above (t : Z) (a : ndarray) : bool :=
  match a with
  | Arr3 _ _ _ data => existsb (λ px, chan 3 px >? t) data
  | Arr2 _ _ _ => false
  end.

Record Transformer := mkTransformer {
  _template : ndarray;
  _template_width : nat;
  _template_height : nat;
  _point_sets : list (list point);
  corner_points : list point;
  _corner_radius : Z;
  _blend_strength : Q
}.

Section Transform.

(** The file system and the image loader of [file_utils.py]:
    [Path.exists()] and [load_image_cv2], which raises [ValueError] for a
    file it cannot decode. *)
Variable path_exists : Path → bool.
Variable load_image_cv2 : Path → exc (option ndarray).

(** OpenCV: the homography solve, the warp, the drawing of the rounded
    mask and the 3x3 blur of the warped alpha channel. *)
Variable Matrix : Type.
Variable cv_getPerspectiveTransform : list (Q * Q) → list (Q * Q) → exc Matrix.
Variable cv_warpPerspective : ndarray → Matrix → nat → nat → exc ndarray.
Variable _create_rounded_mask : nat → nat → Z → ndarray.
Variable cv_blur_alpha : ndarray → ndarray.

(** The arithmetic of [_apply_color_blend]: the mean colour of the central
    sample of the template, mixed into the colour channels. *)
Variable np_blend_rgb : ndarray → ndarray → Q → ndarray.

Definition validate_all (point_sets : list (list point)) (w h : nat) : exc unit :=
  foldl (λ acc ps, match acc with
                   | inl e => inl e
                   | inr _ => validate_points ps (Z.of_nat w) (Z.of_nat h)
                   end) (ret tt) point_sets.

Definition arr_height (a : ndarray) : nat :=
  match a with Arr2 h _ _ => h | Arr3 h _ _ _ => h end.
Definition arr_width (a : ndarray) : nat :=
  match a with Arr2 _ w _ => w | Arr3 _ w _ _ => w end.

(** [__init__]; [point_sets = None] is the default of the keyword. *)
Definition init (template_path : Path) (corner_points : list point)
    (corner_radius : Z) (blend_strength : Q)
    (point_sets : option (list (list point))) : exc Transformer :=
  if negb (path_exists template_path) then
    raise "FileNotFoundError" ("Template not found: " +:+ template_path)
  else
    match load_image_cv2 template_path with
    | inl e =>
        raise "ValueError" ("Failed to load template image: " +:+ template_path
                            +:+ " - " +:+ exc_msg e)
    | inr None =>
        raise "ValueError" ("Failed to load template image: " +:+ template_path)
    | inr (Some template) =>
        let th := arr_height template in
        let tw := arr_width template in
        match point_sets with
        | Some (ps0 :: rest) =>
            match validate_all (ps0 :: rest) tw th with
            | inl e => inl e
            | inr _ =>
                ret (mkTransformer template tw th (ps0 :: rest) ps0
                                   corner_radius blend_strength)
            end
        | _ =>
            match validate_points corner_points (Z.of_nat tw) (Z.of_nat th) with
            | inl e => inl e
            | inr _ =>
                ret (mkTransformer template tw th [corner_points] corner_points
                                   corner_radius blend_strength)
            end
        end
    end.

Variable self : Transformer.

(** The conversion to four channels that opens [_warp_product_to_points]
    and the try block of [transform_multiple]. *)
Definition ensure_bgra (product : ndarray) : ndarray :=
  match product with
  | Arr2 h w data => gray2bgra h w data
  | Arr3 h w 3 data => bgr2bgra h w data
  | _ => product
  end.

Definition np_float32 (points : list point) : list (Q * Q) :=
  (λ p, (inject_Z p.1, inject_Z p.2)) <$> points.

Definition _warp_product_to_points (product : ndarray) (dst_points : list (Q * Q))
  : exc ndarray :=
  let h := arr_height product in
  let w := arr_width product in
  let product := ensure_bgra product in
  let product :=
    if _corner_radius self >? 0 then
      let min_dim := Z.of_nat (Nat.min w h) in
      let scaled_radius :=
        py_int (inject_Z (_corner_radius self) / 2000 * inject_Z min_dim) in
      let scaled_radius := Z.max scaled_radius 3 in
      multiply_alpha product (_create_rounded_mask w h scaled_radius)
    else product in
  let w1 := (inject_Z (Z.of_nat w) - 1)%Q in
  let h1 := (inject_Z (Z.of_nat h) - 1)%Q in
  let src_points := [(0%Q, 0%Q); (w1, 0%Q); (w1, h1); (0%Q, h1)] in
  match cv_getPerspectiveTransform src_points dst_points with
  | inl e => inl e
  | inr matrix =>
      match cv_warpPerspective product matrix
                               (_template_width self) (_template_height self) with
      | inl e => inl e
      | inr warped =>
          ret (if _corner_radius self >? 0 then cv_blur_alpha warped else warped)
      end
  end.

Definition _apply_color_blend (product template : ndarray) (blend_strength : Q)
  : ndarray :=
  if Qleb blend_strength 0 then product
  else if negb (any_alpha_above 10 product) then product
  else np_blend_rgb product template blend_strength.

(** The protected block of [transform_multiple] for one area: the new
    running result, or the exception caught by [except Exception]. *)
Definition transform_area (product_path : Path) (point_set : list point)
    (result : ndarray) : exc ndarray :=
  if negb (path_exists product_path) then
    raise "FileNotFoundError" ("Product image not found: " +:+ product_path)
  else
    match load_image_cv2 product_path with
    | inl e => inl e
    | inr None =>
        raise "ValueError" ("Failed to load product image: " +:+ product_path)
    | inr (Some product) =>
        let product := ensure_bgra product in
        let dst_points := np_float32 point_set in
        match _warp_product_to_points product dst_points with
        | inl e => inl e
        | inr warped =>
            let warped :=
              if Qltb 0 (_blend_strength self)
              then _apply_color_blend warped result (_blend_strength self)
              else warped in
            ret (composite_onto warped result)
        end
    end.

(** The choice of the product for point set [i]. *)
Definition select_product (product_paths : list (option Path)) (i : nat)
  : option Path :=
  let valid_paths := omap id product_paths in
  let num_valid := length valid_paths in
  match product_paths !! i with
  | Some (Some p) => Some p
  | _ =>
      if (0 <? num_valid)%nat then valid_paths !! (i mod num_valid)%nat
      else None
  end.

Definition errors_t : Type := list (string * string).

(** The entry appended by the handler of the try block:
    [(product_path.name, "<class>: <message>")]. *)
Definition error_entry (product_path : Path) (e : PyExc) : string * string :=
  (path_name product_path, exc_type e +:+ ": " +:+ exc_msg e).

(** The body of the loop once a product is chosen: the try block and its
    handler, which records the failure and leaves the running result as it
    was. *)
Definition area_with (product_path : Path) (st : ndarray * errors_t)
    (point_set : list point) : ndarray * errors_t :=
  match transform_area product_path point_set st.1 with
  | inr result' => (result', st.2)
  | inl e => (st.1, st.2 ++ [error_entry product_path e])
  end.

(** One turn of the loop over [enumerate(self._point_sets)]. *)
Definition area_step (product_paths : list (option Path))
    (st : ndarray * errors_t) (i : nat) (point_set : list point)
  : ndarray * errors_t :=
  match select_product product_paths i with
  | None => st
  | Some product_path => area_with product_path st point_set
  end.

(** The loop, from index [i] on. *)
Fixpoint process_areas (product_paths : list (option Path)) (i : nat)
    (point_sets : list (list point)) (st : ndarray * errors_t)
  : ndarray * errors_t :=
  match point_sets with
  | [] => st
  | point_set :: rest =>
      process_areas product_paths (S i) rest
                    (area_step product_paths st i point_set)
  end.

(** [self._template] as a four-channel image: the conversion when
    [shape[2] == 3], a copy otherwise; [shape[2]] does not exist on a
    rank-2 array. *)
Definition template_bgra : exc ndarray :=
  match _template self with
  | Arr2 _ _ _ => raise "IndexError" "tuple index out of range"
  | Arr3 h w 3 data => ret (bgr2bgra h w data)
  | Arr3 h w c data => ret (Arr3 h w c data)
  end.

Definition transform_multiple (product_paths : list (option Path))
  : exc (ndarray * errors_t) :=
  match product_paths with
  | [] =>
      match template_bgra with
      | inl e => inl e
      | inr t => ret (t, [])
      end
  | _ =>
      match template_bgra with
      | inl e => inl e
      | inr result =>
          ret (process_areas product_paths 0 (_point_sets self) (result, []))
      end
  end.

(** [self._dst_points = np.float32(self.corner_points)], set by [__init__]
    and never assigned again. *)
Definition _dst_points : list (Q * Q) := np_float32 (corner_points self).

Definition _warp_product (product : ndarray) : exc ndarray :=
  let h := arr_height product in
  let w := arr_width product in
  let product := ensure_bgra product in
  let product :=
    if _corner_radius self >? 0 then
      let min_dim := Z.of_nat (Nat.min w h) in
      let scaled_radius :=
        py_int (inject_Z (_corner_radius self) / 2000 * inject_Z min_dim) in
      let scaled_radius := Z.max scaled_radius 3 in
      multiply_alpha product (_create_rounded_mask w h scaled_radius)
    else product in
  let w1 := (inject_Z (Z.of_nat w) - 1)%Q in
  let h1 := (inject_Z (Z.of_nat h) - 1)%Q in
  let src_points := [(0%Q, 0%Q); (w1, 0%Q); (w1, h1); (0%Q, h1)] in
  match cv_getPerspectiveTransform src_points _dst_points with
  | inl e => inl e
  | inr matrix =>
      match cv_warpPerspective product matrix
                               (_template_width self) (_template_height self) with
      | inl e => inl e
      | inr warped =>
          ret (if _corner_radius self >? 0 then cv_blur_alpha warped else warped)
      end
  end.

(** [_composite_with_alpha]; [shape[2]] of a rank-2 array raises. *)
Definition _composite_with_alpha (template product : ndarray) (blend_strength : Q)
  : exc ndarray :=
  match template with
  | Arr2 _ _ _ => raise "IndexError" "tuple index out of range"
  | Arr3 th tw tc tdata =>
      let template := if (tc =? 3)%nat then bgr2bgra th tw tdata else template in
      match product with
      | Arr2 _ _ _ => raise "IndexError" "tuple index out of range"
      | Arr3 h w c data =>
          let product_bgra := if (c =? 3)%nat then bgr2bgra h w data else product in
          let product_bgra := _apply_color_blend product_bgra template blend_strength in
          ret (composite_onto product_bgra template)
      end
  end.

(** [transform_product]: a loader failure is re-raised as [ValueError];
    a loader that hands back [None] fails at [product.shape]. *)
Definition transform_product (product_path : Path) : exc ndarray :=
  if negb (path_exists product_path) then
    raise "FileNotFoundError" ("Product image not found: " +:+ product_path)
  else
    match load_image_cv2 product_path with
    | inl _ =>
        raise "ValueError" ("Failed to load product image: " +:+ product_path)
    | inr None =>
        raise "AttributeError" "'NoneType' object has no attribute 'shape'"
    | inr (Some product) =>
        let product := ensure_bgra product in
        match _warp_product product with
        | inl e => inl e
        | inr warped =>
            _composite_with_alpha (_template self) warped (_blend_strength self)
        end
    end.

Section Batch.

(** [Path.suffix], [Path.stem], [folder / name] and [str.lower]. *)
Variable path_suffix : Path → string.
Variable path_stem : Path → string.
Variable path_join : Path → string → Path.
Variable str_lower : string → string.

(** The conversion to RGBA and [save(path, 'PNG')]; the conversion to RGB
    and [save(path, 'JPEG', quality=95)]. *)
Variable save_png : ndarray → Path → exc unit.
Variable save_jpeg : ndarray → Path → exc unit.

(** The protected block of the loop of [transform_files] for one file. *)
Definition write_product (image_file output_folder : Path) : exc unit :=
  match transform_product image_file with
  | inl e => inl e
  | inr result =>
      let ext := str_lower (path_suffix image_file) in
      let output_path :=
        if String.eqb ext ".psd"
        then path_join output_folder (path_stem image_file +:+ ".png")
        else path_join output_folder (path_name image_file) in
      if String.eqb (str_lower (path_suffix output_path)) ".png"
      then save_png result output_path
      else save_jpeg result output_path
  end.

(** [models.BatchResult] *)
Record BatchResult := mkBatchResult {
  total_files : nat;
  processed : nat;
  skipped : nat;
  errors : errors_t
}.

(** The state of the loop: [processed], [errors] and the calls made to
    [progress_callback], oldest first. *)
Record BatchState := mkBatchState {
  bs_processed : nat;
  bs_errors : errors_t;
  bs_progress : list (nat * nat)
}.

Definition files_step (output_folder : Path) (total : nat) (has_callback : bool)
    (st : BatchState) (i : nat) (image_file : Path) : BatchState :=
  let st :=
    match write_product image_file output_folder with
    | inr _ => mkBatchState (bs_processed st + 1) (bs_errors st) (bs_progress st)
    | inl e =>
        mkBatchState (bs_processed st)
          (bs_errors st ++ [(path_name image_file, exc_type e +:+ ": " +:+ exc_msg e)])
          (bs_progress st)
    end in
  if has_callback
  then mkBatchState (bs_processed st) (bs_errors st)
         (bs_progress st ++ [((i + 1)%nat, total)])
  else st.

Fixpoint files_loop (output_folder : Path) (total : nat) (has_callback : bool)
    (i : nat) (files : list Path) (st : BatchState) : BatchState :=
  match files with
  | [] => st
  | image_file :: rest =>
      files_loop output_folder total has_callback (S i) rest
        (files_step output_folder total has_callback st i image_file)
  end.

(** [transform_files]: the batch result and the progress calls. *)
Definition transform_files (files : list Path) (output_folder : Path)
    (has_callback : bool) : BatchResult * list (nat * nat) :=
  let total_files := length files in
  let st := files_loop output_folder total_files has_callback 0 files
              (mkBatchState 0 [] []) in
  (mkBatchResult total_files (bs_processed st) 0 (bs_errors st), bs_progress st).

End Batch.

End Transform.

(** A small world for closed examples: every file exists except
    "shots/missing.png"; every image that loads is one opaque BGR pixel;
    the warp hands the product through; no blending arithmetic. *)
Definition demo_exists (p : Path) : bool := negb (String.eqb p "shots/missing.png").
Definition demo_load (p : Path) : exc (option ndarray) :=
  ret (Some (Arr3 1 1 3 [[10; 20; 30]])).
Definition demo_getPerspectiveTransform (src dst : list (Q * Q)) : exc unit := ret tt.
Definition demo_warpPerspective (img : ndarray) (m : unit) (w h : nat) : exc ndarray :=
  ret img.
Definition demo_rounded_mask (w h : nat) (r : Z) : ndarray :=
  Arr2 h w (replicate (h * w) 255).
Definition demo_blur_alpha (img : ndarray) : ndarray := img.
Definition demo_blend (product template : ndarray) (strength : Q) : ndarray := product.

Definition demo_transform_multiple :=
  transform_multiple demo_exists demo_load unit demo_getPerspectiveTransform
    demo_warpPerspective demo_rounded_mask demo_blur_alpha demo_blend.
Definition demo_area_with :=
  area_with demo_exists demo_load unit demo_getPerspectiveTransform
    demo_warpPerspective demo_rounded_mask demo_blur_alpha demo_blend.

(** Transformers over the one-pixel template with two and with three
    areas, no rounded corners and no blending. *)
Definition demo_transformer (areas : nat) : Transformer :=
  mkTransformer (Arr3 1 1 3 [[10; 20; 30]]) 1 1 (replicate areas rectangle)
                rectangle 0 0.

End PerspectiveTransformer.

(** ** psd_processor.py *)

Module PSDProcessor.

(** What the processor reads of a psd-tools layer.  [layer_id] stands for
    the identity of the layer object, which is what [layer == product_layer]
    compares. *)
Record Layer := mkLayer {
  layer_id : nat;
  layer_name : string;
  layer_visible : bool;
  layer_left : Z;
  layer_top : Z;
  layer_right : Z;
  layer_bottom : Z
}.

Record LayerRenderResult := mkResult {
  rr_layer_name : string;
  rr_success : bool;
  rr_image : option ndarray;
  rr_error : option string;
  rr_method_used : string;
  rr_is_photo : bool
}.

Definition PRODUCT_KEYWORDS : list string :=
  ["коврик"; "смена"; "product"; "mat"; "mousepad"; "прямоугольник"].

Definition PHOTO_KEYWORDS : list string :=
  ["фото"; "photo"; "портрет"; "лицо"; "face"; "avatar"; "person"; "человек"].

Definition SKIN_THRESHOLD : Q := 35 # 1000.
Definition PARTIAL_RENDER_THRESHOLD : Q := 5 # 10.

(** [kw in s] on strings. *)
Fixpoint str_contains (kw s : string) : bool :=
  String.prefix kw s ||
  match s with
  | EmptyString => false
  | String _ rest => str_contains kw rest
  end.

(** [_determine_render_mode] *)
Definition _determine_render_mode
    (before_product after_product failed_layers : list LayerRenderResult) : string :=
  let total_layers :=
    (length before_product + length after_product + length failed_layers)%nat in
  let successful_layers := (length before_product + length after_product)%nat in
  if (total_layers =? 0)%nat then "composite_fallback"
  else if (successful_layers =? 0)%nat then "composite_fallback"
  else
    let success_ratio :=
      (inject_Z (Z.of_nat successful_layers) / inject_Z (Z.of_nat total_layers))%Q in
    if (length failed_layers =? 0)%nat then "layer_by_layer"
    else if Qleb PARTIAL_RENDER_THRESHOLD success_ratio then "layer_by_layer"
    else "hybrid".

(** [_get_layer_coverage]: the bounding box of the layer over the canvas. *)
Definition _get_layer_coverage (layer : Layer) (canvas_width canvas_height : Z) : Q :=
  let layer_width := layer_right layer - layer_left layer in
  let layer_height := layer_bottom layer - layer_top layer in
  if (layer_width <=? 0) || (layer_height <=? 0) then 0%Q
  else
    let layer_area := layer_width * layer_height in
    let canvas_area := canvas_width * canvas_height in
    if canvas_area >? 0 then (inject_Z layer_area / inject_Z canvas_area)%Q
    else 0%Q.

(** Truth value of an optional integer argument: neither [None] nor 0. *)
Definition truthy (x : option Z) : bool :=
  match x with
  | Some n => negb (n =? 0)
  | None => false
  end.

Section Processor.

(** [str.lower] of Python. *)
Variable str_lower : string → string.

(** OpenCV as used by the skin detector the processor owns
    ([SkinDetector(feather_radius=5)]). *)
Variable cv_rgb2hsv : Z * Z * Z → Z * Z * Z.
Variable cv_gaussian_blur : ndarray → Z → ndarray.

(** [_render_layer], as the array of the rendered image; [None] when all
    rendering methods fail. *)
Variable _render_layer : Layer → Z → Z → option ndarray.

Definition skin_is_photo_layer (image : option ndarray) (threshold : option Q) : bool :=
  SkinDetector.is_photo_layer cv_rgb2hsv cv_gaussian_blur 5 image threshold.

Definition skin_percentage (image : option ndarray) : Q :=
  SkinDetector.get_skin_percentage cv_rgb2hsv cv_gaussian_blur 5 image.

Definition _is_photo_layer_by_name (name : string) : bool :=
  if String.eqb name "" then false
  else
    let name_lower := str_lower name in
    existsb (λ kw, str_contains kw name_lower) PHOTO_KEYWORDS.

Definition _is_photo_layer (layer : Layer) (layer_image : option ndarray)
    (canvas_width canvas_height : option Z) : bool :=
  let layer_name := layer_name layer in
  if _is_photo_layer_by_name layer_name then true
  else
    match layer_image with
    | Some img =>
        if (0 <? arr_size img)%nat then
          if truthy canvas_width && truthy canvas_height
             && Qltb (8 # 10) (_get_layer_coverage layer (default 0 canvas_width)
                                                   (default 0 canvas_height))
          then false
          else skin_is_photo_layer layer_image (Some SKIN_THRESHOLD)
        else false
    | None => false
    end.

(** [_find_product_layer]: the first layer whose lower-cased name contains a
    product keyword. *)
Definition _find_product_layer (psd : list Layer) : option Layer :=
  List.find (λ layer,
    existsb (λ kw, str_contains kw (str_lower (layer_name layer))) PRODUCT_KEYWORDS)
    psd.

Definition same_layer (layer : Layer) (product_layer : option Layer) : bool :=
  match product_layer with
  | Some p => (layer_id layer =? layer_id p)%nat
  | None => false
  end.

Record Collected := mkCollected {
  before_product : list LayerRenderResult;
  after_product : list LayerRenderResult;
  failed_layers : list LayerRenderResult;
  product_found : bool
}.

(** One turn of the loop of [_collect_layer_render_results]. *)
Definition collect_step (width height : Z) (product_layer : option Layer)
    (st : Collected) (layer : Layer) : Collected :=
  if negb (layer_visible layer) then st
  else if same_layer layer product_layer then
    mkCollected (before_product st) (after_product st) (failed_layers st) true
  else
    let layer_img := _render_layer layer width height in
    let method_used := if layer_img is Some _ then "composite" else "none" in
    let is_photo := _is_photo_layer layer layer_img (Some width) (Some height) in
    let result :=
      mkResult (layer_name layer) (bool_decide (is_Some layer_img)) layer_img
               (if layer_img is Some _ then None else Some "Render failed")
               method_used is_photo in
    match layer_img with
    | None =>
        mkCollected (before_product st) (after_product st)
                    (failed_layers st ++ [result]) (product_found st)
    | Some _ =>
        if negb (product_found st) then
          mkCollected (before_product st ++ [result]) (after_product st)
                      (failed_layers st) (product_found st)
        else
          mkCollected (before_product st) (after_product st ++ [result])
                      (failed_layers st) (product_found st)
    end.

Definition _collect_layer_render_results (psd : list Layer) (width height : Z)
    (product_layer : option Layer) : Collected :=
  foldl (collect_step width height product_layer)
        (mkCollected [] [] [] false) psd.

(** The layers the loop renders: visible and not the product layer; and
    those of them [_render_layer] succeeds on. *)
Definition visible_others (psd : list Layer) (product_layer : option Layer)
  : list Layer :=
  List.filter (λ l, layer_visible l && negb (same_layer l product_layer)) psd.

Definition rendered_others (psd : list Layer) (width height : Z)
    (product_layer : option Layer) : list Layer :=
  List.filter (λ l, bool_decide (is_Some (_render_layer l width height)))
              (visible_others psd product_layer).

(** The mode chosen by [process_with_warped_product] for a document. *)
Definition render_mode_of (psd : list Layer) (width height : Z) : string :=
  let product_layer := _find_product_layer psd in
  let c := _collect_layer_render_results psd width height product_layer in
  _determine_render_mode (before_product c) (after_product c) (failed_layers c).

(** The [LayerRenderResult] that the loop of
    [_collect_layer_render_results] builds for a layer it renders. *)
Definition render_result (width height : Z) (layer : Layer) : LayerRenderResult :=
  let layer_img := _render_layer layer width height in
  mkResult (layer_name layer) (bool_decide (is_Some layer_img)) layer_img
           (if layer_img is Some _ then None else Some "Render failed")
           (if layer_img is Some _ then "composite" else "none")
           (_is_photo_layer layer layer_img (Some width) (Some height)).

End Processor.

(** A lower-casing of the ASCII letters, for names written in ASCII. *)
Definition ascii_lower_char (c : Ascii.ascii) : Ascii.ascii :=
  let n := Ascii.nat_of_ascii c in
  if (65 <=? n)%nat && (n <=? 90)%nat then Ascii.ascii_of_nat (n + 32) else c.

Fixpoint ascii_lower (s : string) : string :=
  match s with
  | EmptyString => EmptyString
  | String c rest => String (ascii_lower_char c) (ascii_lower rest)
  end.

(** A document of five visible background layers of which the renderer
    manages the first [good] ones. *)
Definition demo_psd : list Layer :=
  [ mkLayer 0 "bg0" true 0 0 10 10; mkLayer 1 "bg1" true 0 0 10 10;
    mkLayer 2 "bg2" true 0 0 10 10; mkLayer 3 "bg3" true 0 0 10 10;
    mkLayer 4 "bg4" true 0 0 10 10 ].

Definition demo_render (good : nat) (l : Layer) (w h : Z) : option ndarray :=
  if (layer_id l <? good)%nat then Some (Arr3 1 1 4 [[0; 0; 255; 255]]) else None.

(** A small layer with an ordinary name. *)
Definition small_banner_layer : Layer := mkLayer 7 "banner" true 0 0 10 10.

(** A layer named after a photo keyword whose bounds are the whole
    100 x 100 canvas, and a rendered image for it. *)
Definition full_canvas_photo_layer : Layer := mkLayer 0 "Photo" true 0 0 100 100.
Definition blue_pixel_image : ndarray := Arr3 1 1 4 [[0; 0; 255; 255]].

(** The decisions of [_place_on_canvas] for a layer image of size
    [img_width] x [img_height]: the box handed to [img.crop], if the image
    is cropped, and the position handed to [full.paste]; [None] when the
    function returns [None]. *)
Definition place_plan (img_width img_height : Z) (layer : Layer) (width height : Z)
  : option (option (Z * Z * Z * Z) * (Z * Z)) :=
  let x := layer_left layer in
  let y := layer_top layer in
  if (x <? 0) || (y <? 0) || (x + img_width >? width) || (y + img_height >? height)
  then
    let crop_l := Z.max 0 (- x) in
    let crop_t := Z.max 0 (- y) in
    let crop_r := Z.min img_width (width - x) in
    let crop_b := Z.min img_height (height - y) in
    if (crop_r >? crop_l) && (crop_b >? crop_t)
    then Some (Some (crop_l, crop_t, crop_r, crop_b), (Z.max 0 x, Z.max 0 y))
    else None
  else Some (None, (x, y)).

Section Placing.

(** Pillow: the image type with its size, [Image.new('RGBA', size,
    (0, 0, 0, 0))], [img.crop(box)] and [full.paste(img, pos, img)]. *)
Variable Image : Type.
Variable image_size : Image → Z * Z.
Variable pil_new_transparent : Z → Z → Image.
Variable pil_crop : Image → Z * Z * Z * Z → Image.
Variable pil_paste : Image → Image → Z * Z → Image.

Definition _place_on_canvas (img : Image) (layer : Layer) (width height : Z)
  : option Image :=
  let full := pil_new_transparent width height in
  match place_plan (image_size img).1 (image_size img).2 layer width height with
  | None => None
  | Some (Some box, pos) => Some (pil_paste full (pil_crop img box) pos)
  | Some (None, pos) => Some (pil_paste full img pos)
  end.

End Placing.

(** The size of the pasted image: that of the cropped image when the
    image is cropped. *)
Definition pasted_size (img_width img_height : Z) (crop : option (Z * Z * Z * Z))
  : Z * Z :=
  match crop with
  | Some (l, t, r, b) => (r - l, b - t)
  | None => (img_width, img_height)
  end.

Definition _PSD_CACHE_MAX_SIZE : nat := 10.

Section Cache.

(** [PSDImage.open] *)
Variable PSDImage : Type.
Variable psd_open : string → exc PSDImage.

(** [_get_cached_psd] on the class-level cache: the outcome and the cache
    afterwards.  The oldest entry is deleted before the file is opened. *)
Definition _get_cached_psd (_psd_cache : dict PSDImage) (template_path : string)
  : exc PSDImage * dict PSDImage :=
  let key := template_path in
  match dict_get key _psd_cache with
  | Some psd => (ret psd, _psd_cache)
  | None =>
      let _psd_cache :=
        if (_PSD_CACHE_MAX_SIZE <=? length _psd_cache)%nat
        then tail _psd_cache
        else _psd_cache in
      match psd_open template_path with
      | inl e => (inl e, _psd_cache)
      | inr psd => (ret psd, dict_set key psd _psd_cache)
      end
  end.

End Cache.

End PSDProcessor.

(** ** Vocabulary of the further properties *)

(** The cross products at the four corners of a quadrilateral, in the order
    in which [is_convex_quadrilateral] computes them. *)
Definition turns (p0 p1 p2 p3 : PointValidator.point) : list Z :=
  [PointValidator.cross_product_sign p0 p1 p2;
   PointValidator.cross_product_sign p1 p2 p3;
   PointValidator.cross_product_sign p2 p3 p0;
   PointValidator.cross_product_sign p3 p0 p1].

Definition translate (dx dy : Z) (p : PointValidator.point) : PointValidator.point :=
  (p.1 + dx, p.2 + dy).

(** The same corners, listed from the second one on. *)
Definition rotate_left (points : list PointValidator.point)
  : list PointValidator.point :=
  match points with
  | [] => []
  | p :: rest => rest ++ [p]
  end.

Definition min_channel (c : ColorAnalyzer.rgb) : Z :=
  Z.min (Z.min (ColorAnalyzer.red c) (ColorAnalyzer.green c)) (ColorAnalyzer.blue c).

(** * Properties *)

(** ** Comparisons of an integer quotient with a rational threshold *)

Lemma Qle_div_iff (x : Q) (n d : Z) :
  0 < d → (x <= inject_Z n / inject_Z d)%Q ↔ Qnum x * d <= n * Z.pos (Qden x).
Proof.
  intros Hd. destruct d as [| p | p]; try lia.
  destruct x as [xn xd].
  unfold Qle, Qdiv, Qmult, Qinv, inject_Z; simpl.
  rewrite !Z.mul_1_r, Pos.mul_1_l. reflexivity.
Qed.

Lemma Qleb_div (x : Q) (n d : Z) :
  0 < d → Qleb x (inject_Z n / inject_Z d) = (Qnum x * d <=? n * Z.pos (Qden x)).
Proof.
  intros Hd. unfold Qleb.
  destruct (Qle_div_iff x n d Hd) as [Hto Hfrom].
  destruct (Qle_bool x (inject_Z n / inject_Z d)) eqn:E.
  - symmetry. apply Z.leb_le, Hto, Qle_bool_iff, E.
  - symmetry. apply Z.leb_gt, Z.lt_nge. intros H.
    apply Hfrom, Qle_bool_iff in H. congruence.
Qed.

Lemma Qdiv_le_iff (x : Q) (n d : Z) :
  0 < d → (inject_Z n / inject_Z d <= x)%Q ↔ n * Z.pos (Qden x) <= Qnum x * d.
Proof.
  intros Hd. destruct d as [| p | p]; try lia.
  destruct x as [xn xd].
  unfold Qle, Qdiv, Qmult, Qinv, inject_Z; simpl.
  rewrite !Z.mul_1_r, Pos.mul_1_l. reflexivity.
Qed.

Lemma Qltb_false_iff (x y : Q) : Qltb x y = false ↔ (y <= x)%Q.
Proof.
  unfold Qltb. rewrite negb_false_iff. apply Qle_bool_iff.
Qed.

Lemma Qltb_true_iff (x y : Q) : Qltb x y = true ↔ (x < y)%Q.
Proof.
  unfold Qltb. rewrite negb_true_iff. split.
  - intros H. apply Qnot_le_lt. intros Hle. apply Qle_bool_iff in Hle. congruence.
  - intros H. destruct (Qle_bool y x) eqn:E; [| done].
    apply Qle_bool_iff in E. by apply Qle_not_lt in E.
Qed.

(** ** PointValidator *)

Section PointValidatorFacts.

Import PointValidator.

Lemma validate_points_cases (points : list point) (w h : Z) :
  (validate_points points w h = ret tt
   ∧ length points = 4%nat ∧ is_self_intersecting points = false)
  ∨ (raises (validate_points points w h) "ValidationError"
     ∧ (length points ≠ 4%nat ∨ is_self_intersecting points = true)).
Proof.
  unfold validate_points.
  destruct (Nat.eqb_spec (length points) 4) as [Hlen | Hlen]; simpl.
  - destruct (is_self_intersecting points) eqn:Hsi.
    + right. split; [eexists; reflexivity | by right].
    + left. done.
  - right. split; [eexists; reflexivity | by left].
Qed.

Lemma is_self_intersecting_edges (points : list point) :
  length points = 4%nat →
  is_self_intersecting points = opposite_edges_cross points.
Proof.
  intros Hlen.
  destruct points as [| p0 [| p1 [| p2 [| p3 [| p4 rest]]]]]; try discriminate.
  unfold is_self_intersecting, opposite_edges_cross; simpl.
  destruct (segments_intersect p0 p1 p2 p3); [done |].
  by destruct (segments_intersect p1 p2 p3 p0).
Qed.

(** The two diagonals of the rectangle meet in its centre, and the test of
    the code agrees when it is applied to them. *)
Example rectangle_diagonals_meet :
  on_segment (5, 5) (0, 0) (10, 10) = true
  ∧ on_segment (5, 5) (10, 0) (0, 10) = true
  ∧ diagonals_cross rectangle = true.
Proof. by vm_compute. Qed.

(** The diagonals of the bowtie are two parallel horizontal segments. *)
Example bowtie_diagonals_apart :
  diagonals_cross bowtie = false ∧ opposite_edges_cross bowtie = true.
Proof. by vm_compute. Qed.

(** C4, as stated, fails on the rectangle of its own example: its
    diagonals points[0]-points[2] and points[1]-points[3] cross, and
    [validate_points] accepts it. *)
Lemma validate_points_diagonal_reading_fails :
  ¬ (raises (validate_points rectangle 10 10) "ValidationError"
     ↔ (length rectangle ≠ 4%nat ∨ diagonals_cross rectangle = true)).
Proof.
  intros [_ Hback].
  destruct Hback as [msg Hmsg]; [right; by vm_compute |].
  vm_compute in Hmsg. discriminate.
Qed.

(** C4, amended: [validate_points] raises [ValidationError] exactly when the
    list does not hold 4 points or two opposite edges of the quadrilateral
    (edge 0-1 against edge 2-3, or edge 1-2 against edge 3-0) cross, and
    returns normally otherwise; the image size plays no part, so points
    outside the image are accepted; the bowtie fails and the rectangle
    passes. *)
Theorem validate_points_raises_iff :
  (∀ (points : list point) (w h : Z),
     (raises (validate_points points w h) "ValidationError"
      ↔ (length points ≠ 4%nat ∨ opposite_edges_cross points = true))
     ∧ (validate_points points w h = ret tt
        ∨ raises (validate_points points w h) "ValidationError"))
  ∧ (∀ (points : list point) (w h w' h' : Z),
       validate_points points w h = validate_points points w' h')
  ∧ raises (validate_points bowtie 10 10) "ValidationError"
  ∧ validate_points rectangle 10 10 = ret tt.
Proof.
  split; [| split; [| split]].
  - intros points w h.
    destruct (validate_points_cases points w h) as [(Hok & Hlen & Hsi) | [Hr Hwhy]].
    + split; [| by left]. split.
      * intros [msg Hmsg]. rewrite Hok in Hmsg. discriminate.
      * intros [Hne | Hcross]; [done |].
        rewrite <- is_self_intersecting_edges in Hcross by done. congruence.
    + split; [| by right]. split; [| done].
      intros _. destruct Hwhy as [Hne | Hsi]; [by left |].
      destruct (decide (length points = 4%nat)) as [Hlen | Hlen]; [| by left].
      right. by rewrite <- is_self_intersecting_edges.
  - reflexivity.
  - eexists. vm_compute. reflexivity.
  - by vm_compute.
Qed.

End PointValidatorFacts.

(** ** Render mode of the layered-template processor *)

Section RenderMode.

Import PSDProcessor.

Variable str_lower : string → string.
Variable cv_rgb2hsv : Z * Z * Z → Z * Z * Z.
Variable cv_gaussian_blur : ndarray → Z → ndarray.
Variable _render_layer : Layer → Z → Z → option ndarray.

Local Abbreviation one_step := (collect_step str_lower cv_rgb2hsv cv_gaussian_blur _render_layer).
Local Abbreviation mode_of := (render_mode_of str_lower cv_rgb2hsv cv_gaussian_blur
                       _render_layer).

(** The mode as a function of the two counts alone. *)
Lemma determine_render_mode_counts (b a f : list LayerRenderResult) :
  let s := (length b + length a)%nat in
  let t := (s + length f)%nat in
  _determine_render_mode b a f =
    if (t =? 0)%nat || (s =? 0)%nat then "composite_fallback"
    else if (t <=? 2 * s)%nat then "layer_by_layer" else "hybrid".
Proof.
  intros s t. unfold _determine_render_mode. cbv zeta. fold s. fold t.
  destruct (Nat.eqb_spec t 0) as [Ht | Ht]; [done |].
  destruct (Nat.eqb_spec s 0) as [Hs | Hs]; [done |]. cbn [orb].
  unfold PARTIAL_RENDER_THRESHOLD. rewrite Qleb_div by lia. cbn [Qnum Qden].
  destruct (Nat.eqb_spec (length f) 0) as [Hf | Hf].
  - destruct (Nat.leb_spec t (2 * s)) as [H | H]; [done | lia].
  - destruct (Nat.leb_spec t (2 * s)) as [H | H];
      destruct (Z.leb_spec (5 * Z.of_nat t) (Z.of_nat s * 10)) as [H' | H'];
      done || lia.
Qed.

(** One turn of the loop adds the layer to exactly one of the three lists
    when it is visible and not the product layer, and to none otherwise. *)
Lemma collect_step_counts (w h : Z) (pl : option Layer) (st : Collected) (l : Layer) :
  let st' := one_step w h pl st l in
  let seen := layer_visible l && negb (same_layer l pl) in
  let good := seen && bool_decide (is_Some (_render_layer l w h)) in
  (length (before_product st') + length (after_product st')
   = length (before_product st) + length (after_product st)
     + (if good then 1 else 0))%nat
  ∧ (length (failed_layers st')
     = length (failed_layers st) + (if seen && negb good then 1 else 0))%nat.
Proof.
  cbv zeta. unfold collect_step.
  destruct (layer_visible l); cbn [negb andb]; [| lia].
  destruct (same_layer l pl); cbn [negb andb]; [cbn; lia |].
  destruct (_render_layer l w h) as [img |].
  - rewrite bool_decide_eq_true_2 by eauto.
    destruct (product_found st); cbn; rewrite ?length_app; cbn; lia.
  - rewrite bool_decide_eq_false_2 by (intros [? ?]; done).
    cbn; rewrite ?length_app; cbn; lia.
Qed.

(** The loop splits the rendered layers from the failed ones without losing
    or inventing any. *)
Lemma collect_counts (psd : list Layer) (w h : Z) (pl : option Layer) (st : Collected) :
  let c := foldl (one_step w h pl) st psd in
  (length (before_product c) + length (after_product c)
   = length (before_product st) + length (after_product st)
     + length (rendered_others _render_layer psd w h pl))%nat
  ∧ (length (before_product c) + length (after_product c) + length (failed_layers c)
     = length (before_product st) + length (after_product st)
       + length (failed_layers st) + length (visible_others psd pl))%nat.
Proof.
  revert st. induction psd as [| l psd IH]; intros st.
  - unfold rendered_others, visible_others. cbn. lia.
  - cbn [foldl]. cbv zeta in IH.
    destruct (IH (one_step w h pl st l)) as [IH1 IH2].
    destruct (collect_step_counts w h pl st l) as [S1 S2].
    cbv zeta in S1, S2 |- *.
    unfold rendered_others, visible_others in *. cbn [List.filter].
    destruct (layer_visible l && negb (same_layer l pl));
      cbn [andb negb List.filter] in *.
    + destruct (bool_decide (is_Some (_render_layer l w h)));
        cbn [negb length] in *; lia.
    + lia.
Qed.

(** C1: the render mode of an invocation is fixed by the number [total] of
    visible non-product layers and the number [ok] of them that rendered:
    composite_fallback when [total] or [ok] is zero; layer_by_layer when the
    ratio ok/total is at least 0.5 (all layers rendered included); hybrid
    when the ratio is below 0.5 and some layer rendered.  A 40% success
    selects hybrid, a 60% success layer_by_layer. *)
Theorem render_mode_selection (psd : list Layer) (w h : Z) :
  let product_layer := _find_product_layer str_lower psd in
  let total := length (visible_others psd product_layer) in
  let ok := length (rendered_others _render_layer psd w h product_layer) in
  let ratio := (inject_Z (Z.of_nat ok) / inject_Z (Z.of_nat total))%Q in
  ((total = 0 ∨ ok = 0)%nat → mode_of psd w h = "composite_fallback")
  ∧ (ok ≠ 0%nat → (5 # 10 <= ratio)%Q → mode_of psd w h = "layer_by_layer")
  ∧ (ok = total → ok ≠ 0%nat → mode_of psd w h = "layer_by_layer")
  ∧ (ok ≠ 0%nat → (ratio < 5 # 10)%Q → mode_of psd w h = "hybrid")
  ∧ (∀ k : nat, ok = (2 * S k)%nat → total = (5 * S k)%nat →
       mode_of psd w h = "hybrid")
  ∧ (∀ k : nat, ok = (3 * S k)%nat → total = (5 * S k)%nat →
       mode_of psd w h = "layer_by_layer").
Proof.
  intros product_layer total ok ratio.
  assert (Hle : (ok <= total)%nat).
  { unfold ok, total, rendered_others. apply List.filter_length_le. }
  assert (Hmode : mode_of psd w h =
                  if (total =? 0)%nat || (ok =? 0)%nat then "composite_fallback"
                  else if (total <=? 2 * ok)%nat then "layer_by_layer" else "hybrid").
  { unfold render_mode_of. fold product_layer.
    rewrite determine_render_mode_counts.
    destruct (collect_counts psd w h product_layer (mkCollected [] [] [] false))
      as [H1 H2].
    unfold _collect_layer_render_results. simpl in H1, H2.
    fold ok in H1. fold total in H2. rewrite H1.
    replace (ok + _)%nat with total by lia. reflexivity. }
  assert (Hratio : ok ≠ 0%nat → (5 # 10 <= ratio)%Q ↔ (total <= 2 * ok)%nat).
  { intros Hok. unfold ratio. rewrite Qle_div_iff by lia. simpl. lia. }
  rewrite Hmode. clear Hmode. clearbody ratio ok total.
  assert (Hlow : ok ≠ 0%nat → (ratio < 5 # 10)%Q → (2 * ok < total)%nat).
  { intros Hok Hr. apply Nat.lt_nge. intros Hc.
    apply Hratio in Hc; [| done]. by apply Qle_not_lt in Hc. }
  repeat split.
  - intros [Ht | Ho]; subst; [done | by rewrite orb_true_r].
  - intros Hok Hr. apply Hratio in Hr; [| done].
    destruct (Nat.eqb_spec total 0); [lia |].
    destruct (Nat.eqb_spec ok 0); [lia |]. cbn [orb].
    destruct (Nat.leb_spec total (2 * ok)); [done | lia].
  - intros Heq Hok.
    destruct (Nat.eqb_spec total 0); [lia |].
    destruct (Nat.eqb_spec ok 0); [lia |]. cbn [orb].
    destruct (Nat.leb_spec total (2 * ok)); [done | lia].
  - intros Hok Hr. specialize (Hlow Hok Hr).
    destruct (Nat.eqb_spec total 0); [lia |].
    destruct (Nat.eqb_spec ok 0); [lia |]. cbn [orb].
    destruct (Nat.leb_spec total (2 * ok)); [lia | done].
  - intros k Hok Ht.
    destruct (Nat.eqb_spec total 0); [lia |].
    destruct (Nat.eqb_spec ok 0); [lia |]. cbn [orb].
    destruct (Nat.leb_spec total (2 * ok)); [lia | done].
  - intros k Hok Ht.
    destruct (Nat.eqb_spec total 0); [lia |].
    destruct (Nat.eqb_spec ok 0); [lia |]. cbn [orb].
    destruct (Nat.leb_spec total (2 * ok)); [done | lia].
Qed.

End RenderMode.

(** ** Multi-area transform *)

Section TransformerFacts.

Import PointValidator PerspectiveTransformer.

Variable path_exists : Path → bool.
Variable load_image_cv2 : Path → exc (option ndarray).
Variable Matrix : Type.
Variable cv_getPerspectiveTransform : list (Q * Q) → list (Q * Q) → exc Matrix.
Variable cv_warpPerspective : ndarray → Matrix → nat → nat → exc ndarray.
Variable _create_rounded_mask : nat → nat → Z → ndarray.
Variable cv_blur_alpha : ndarray → ndarray.
Variable np_blend_rgb : ndarray → ndarray → Q → ndarray.

Local Abbreviation transform_multiple' :=
  (transform_multiple path_exists load_image_cv2 Matrix cv_getPerspectiveTransform
     cv_warpPerspective _create_rounded_mask cv_blur_alpha np_blend_rgb).
Local Abbreviation transform_area' :=
  (transform_area path_exists load_image_cv2 Matrix cv_getPerspectiveTransform
     cv_warpPerspective _create_rounded_mask cv_blur_alpha np_blend_rgb).
Local Abbreviation area_with' :=
  (area_with path_exists load_image_cv2 Matrix cv_getPerspectiveTransform
     cv_warpPerspective _create_rounded_mask cv_blur_alpha np_blend_rgb).
Local Abbreviation area_step' :=
  (area_step path_exists load_image_cv2 Matrix cv_getPerspectiveTransform
     cv_warpPerspective _create_rounded_mask cv_blur_alpha np_blend_rgb).
Local Abbreviation process_areas' :=
  (process_areas path_exists load_image_cv2 Matrix cv_getPerspectiveTransform
     cv_warpPerspective _create_rounded_mask cv_blur_alpha np_blend_rgb).
Local Abbreviation init' := (init path_exists load_image_cv2).

(** *** The choice of the product *)

Lemma select_product_direct (paths : list (option Path)) (i : nat) (p : Path) :
  paths !! i = Some (Some p) → select_product paths i = Some p.
Proof. intros H. unfold select_product. by rewrite H. Qed.

Lemma select_product_cycle (paths : list (option Path)) (i : nat) :
  (paths !! i = None ∨ paths !! i = Some None) →
  omap id paths ≠ [] →
  select_product paths i = omap id paths !! (i mod length (omap id paths))%nat
  ∧ is_Some (select_product paths i).
Proof.
  intros Hi Hne. unfold select_product.
  assert (Hlen : (0 < length (omap id paths))%nat).
  { destruct (omap id paths); [done | cbn; lia]. }
  assert (Hsome : is_Some (omap id paths !! (i mod length (omap id paths))%nat)).
  { apply lookup_lt_is_Some. apply Nat.mod_upper_bound. lia. }
  destruct (Nat.ltb_spec 0 (length (omap id paths))) as [_ | ?]; [| lia].
  by destruct Hi as [-> | ->].
Qed.

Lemma select_product_skip (paths : list (option Path)) (i : nat) :
  (paths !! i = None ∨ paths !! i = Some None) →
  omap id paths = [] →
  select_product paths i = None.
Proof.
  intros Hi Hnil. unfold select_product. rewrite Hnil.
  by destruct Hi as [-> | ->].
Qed.

Lemma lookup_omap_id (paths : list (option Path)) (i : nat) (p : Path) :
  paths !! i = Some (Some p) → p ∈ omap id paths.
Proof.
  intros H. apply list_elem_of_omap. exists (Some p). split; [| done].
  by eapply list_elem_of_lookup_2.
Qed.

Lemma select_product_single (paths : list (option Path)) (p : Path) (i : nat) :
  omap id paths = [p] → select_product paths i = Some p.
Proof.
  intros Hone.
  destruct (paths !! i) as [[q |] |] eqn:Hi.
  - rewrite (select_product_direct _ _ _ Hi).
    apply lookup_omap_id in Hi. rewrite Hone in Hi.
    apply list_elem_of_singleton in Hi. by subst.
  - destruct (select_product_cycle paths i) as [-> _]; [by right | by rewrite Hone |].
    rewrite Hone. cbn [length]. by rewrite Nat.mod_1_r.
  - destruct (select_product_cycle paths i) as [-> _]; [by left | by rewrite Hone |].
    rewrite Hone. cbn [length]. by rewrite Nat.mod_1_r.
Qed.

(** C2: for point set [i], the entry [paths[i]] is used when it is there and
    not null; otherwise, when some entry is not null, the entry number
    [i mod count] of the non-null entries is used; otherwise the area is
    skipped.  With three point sets and exactly one non-null path, that
    product goes through the warp-and-composite step of all three areas. *)
Theorem multi_area_product_choice (self : Transformer) (paths : list (option Path)) :
  (∀ (i : nat) (p : Path), paths !! i = Some (Some p) →
     select_product paths i = Some p
     ∧ ∀ st ps, area_step' self paths st i ps = area_with' self p st ps)
  ∧ (∀ i : nat, (paths !! i = None ∨ paths !! i = Some None) →
       omap id paths ≠ [] →
       ∃ p, omap id paths !! (i mod length (omap id paths))%nat = Some p
            ∧ select_product paths i = Some p
            ∧ ∀ st ps, area_step' self paths st i ps = area_with' self p st ps)
  ∧ (∀ i : nat, (paths !! i = None ∨ paths !! i = Some None) →
       omap id paths = [] →
       select_product paths i = None
       ∧ ∀ st ps, area_step' self paths st i ps = st)
  ∧ (∀ (p : Path) (ps0 ps1 ps2 : list point) (t : ndarray),
       omap id paths = [p] →
       _point_sets self = [ps0; ps1; ps2] →
       template_bgra self = inr t →
       transform_multiple' self paths
       = ret (area_with' self p
                (area_with' self p (area_with' self p (t, []) ps0) ps1) ps2)).
Proof.
  split; [| split; [| split]].
  - intros i p Hi. pose proof (select_product_direct _ _ _ Hi) as Hs.
    split; [done |]. intros st ps. unfold area_step. by rewrite Hs.
  - intros i Hi Hne.
    destruct (select_product_cycle paths i Hi Hne) as [Hs [p Hp]].
    exists p. split; [by rewrite <- Hs |]. split; [done |].
    intros st ps. unfold area_step. by rewrite Hp.
  - intros i Hi Hnil. pose proof (select_product_skip _ _ Hi Hnil) as Hs.
    split; [done |]. intros st ps. unfold area_step. by rewrite Hs.
  - intros p ps0 ps1 ps2 t Hone Hps Ht.
    unfold transform_multiple. rewrite Ht, Hps.
    destruct paths as [| o rest]; [discriminate |].
    cbn [process_areas]. unfold area_step.
    by rewrite !(select_product_single _ p _ Hone).
Qed.

(** *** Failures of single areas *)

Lemma process_areas_app (self : Transformer) (paths : list (option Path))
    (l1 l2 : list (list point)) (i : nat) (st : ndarray * errors_t) :
  process_areas' self paths i (l1 ++ l2) st
  = process_areas' self paths (i + length l1) l2 (process_areas' self paths i l1 st).
Proof.
  revert i st. induction l1 as [| ps l1 IH]; intros i st; cbn.
  - by rewrite Nat.add_0_r.
  - rewrite IH. by rewrite Nat.add_succ_r.
Qed.

(** An area never removes an error recorded before it. *)
Lemma area_step_errors (self : Transformer) (paths : list (option Path))
    (st : ndarray * errors_t) (i : nat) (ps : list point) :
  ∃ extra, (area_step' self paths st i ps).2 = st.2 ++ extra.
Proof.
  unfold area_step, area_with.
  destruct (select_product paths i) as [p |]; [| exists []; by rewrite app_nil_r].
  destruct (transform_area' self p ps st.1) as [e | r]; cbn.
  - by eexists.
  - exists []. by rewrite app_nil_r.
Qed.

Lemma process_areas_errors (self : Transformer) (paths : list (option Path))
    (l : list (list point)) (i : nat) (st : ndarray * errors_t) :
  ∃ extra, (process_areas' self paths i l st).2 = st.2 ++ extra.
Proof.
  revert i st. induction l as [| ps l IH]; intros i st; cbn.
  - exists []. by rewrite app_nil_r.
  - destruct (IH (S i) (area_step' self paths st i ps)) as [x1 ->].
    destruct (area_step_errors self paths st i ps) as [x2 ->].
    exists (x2 ++ x1). by rewrite app_assoc.
Qed.

(** A failing area at position [i] leaves its entry in the final list. *)
Lemma failed_area_recorded (self : Transformer) (paths : list (option Path))
    (l : list (list point)) (st : ndarray * errors_t)
    (i : nat) (ps : list point) (p : Path) (e : PyExc) :
  l !! i = Some ps →
  select_product paths i = Some p →
  (∀ r, transform_area' self p ps r = inl e) →
  error_entry p e ∈ (process_areas' self paths 0 l st).2.
Proof.
  intros Hi Hsel Hfail.
  rewrite <- (take_drop_middle l i ps Hi), process_areas_app.
  cbn [process_areas]. rewrite Nat.add_0_l.
  set (st1 := process_areas' self paths 0 (take i l) st).
  assert (Hlen : length (take i l) = i).
  { rewrite length_take. apply lookup_lt_Some in Hi. lia. }
  rewrite Hlen.
  destruct (process_areas_errors self paths (drop (S i) l) (S i)
              (area_step' self paths st1 i ps)) as [extra ->].
  unfold area_step. rewrite Hsel. unfold area_with. rewrite Hfail. cbn.
  apply elem_of_app. left. apply elem_of_app. right. apply list_elem_of_singleton.
  reflexivity.
Qed.

Lemma transform_area_missing (self : Transformer) (p : Path) (ps : list point)
    (r : ndarray) :
  path_exists p = false →
  transform_area' self p ps r
  = inl (mkExc "FileNotFoundError" ("Product image not found: " +:+ p)).
Proof. intros H. unfold transform_area. by rewrite H. Qed.

Lemma transform_area_undecodable (self : Transformer) (p : Path) (ps : list point)
    (r : ndarray) (e : PyExc) :
  path_exists p = true → load_image_cv2 p = inl e →
  transform_area' self p ps r = inl e.
Proof. intros H1 H2. unfold transform_area. by rewrite H1, H2. Qed.

Lemma transform_area_none (self : Transformer) (p : Path) (ps : list point)
    (r : ndarray) :
  path_exists p = true → load_image_cv2 p = inr None →
  transform_area' self p ps r
  = inl (mkExc "ValueError" ("Failed to load product image: " +:+ p)).
Proof. intros H1 H2. unfold transform_area. by rewrite H1, H2. Qed.


(** *** No products *)

Lemma init_template (template_path : Path) (corner_points : list point)
    (corner_radius : Z) (blend_strength : Q)
    (point_sets : option (list (list point))) (T : Transformer) :
  init' template_path corner_points corner_radius blend_strength point_sets = inr T →
  load_image_cv2 template_path = inr (Some (_template T)).
Proof.
  unfold init.
  destruct (path_exists template_path); cbn [negb]; [| discriminate].
  destruct (load_image_cv2 template_path) as [e | [tmpl |]]; try discriminate.
  destruct point_sets as [[| ps0 rest] |].
  - destruct (validate_points _ _ _); [discriminate |].
    intros [= <-]. done.
  - destruct (validate_all _ _ _); [discriminate |].
    intros [= <-]. done.
  - destruct (validate_points _ _ _); [discriminate |].
    intros [= <-]. done.
Qed.


End TransformerFacts.

(** ** Skin detector *)

Section SkinFacts.

Import SkinDetector.

Variable cv_rgb2hsv : Z * Z * Z → Z * Z * Z.
Variable cv_gaussian_blur : ndarray → Z → ndarray.
Variable _feather_radius : Z.

Local Abbreviation skin_pct := (get_skin_percentage cv_rgb2hsv cv_gaussian_blur _feather_radius).
Local Abbreviation is_photo := (is_photo_layer cv_rgb2hsv cv_gaussian_blur _feather_radius).
Local Abbreviation skin_mask := (detect_skin_mask cv_rgb2hsv cv_gaussian_blur _feather_radius).
Local Abbreviation skin_px := (is_skin_pixel cv_rgb2hsv).

Lemma inRange_cases (x : Z * Z * Z) (r : HSVRange) :
  inRange x r = 0 ∨ inRange x r = 255.
Proof.
  unfold inRange. destruct x as [[h s] v].
  match goal with |- context [if ?c then _ else _] => destruct c end; auto.
Qed.

Lemma fold_max_ranges (x : Z * Z * Z) (rs : list (string * HSVRange)) (acc : Z) :
  acc = 0 ∨ acc = 255 →
  let c := foldl (λ acc nr, Z.max acc (inRange x nr.2)) acc rs in
  (c = 0 ∨ c = 255)
  ∧ (c >? 127) = (acc >? 127) || existsb (λ nr, 0 <? inRange x nr.2) rs.
Proof.
  revert acc. induction rs as [| nr rs IH]; intros acc Hacc; cbn [foldl existsb].
  - split; [done |]. by rewrite orb_false_r.
  - destruct (IH (Z.max acc (inRange x nr.2))) as [IH1 IH2].
    { destruct Hacc as [-> | ->], (inRange_cases x nr.2) as [-> | ->]; auto. }
    split; [exact IH1 |]. cbv zeta in IH2. rewrite IH2.
    destruct Hacc as [-> | ->], (inRange_cases x nr.2) as [-> | ->]; reflexivity.
Qed.

(** The unfeathered mask exceeds 127 exactly on the skin pixels. *)
Lemma combined_mask_skin (px : list Z) :
  (combined_mask_at cv_rgb2hsv px >? 127) = skin_px px.
Proof.
  unfold combined_mask_at, is_skin_pixel.
  destruct (cv_rgb2hsv (chan 0 px, chan 1 px, chan 2 px)) as [[h s] v] eqn:Hx.
  destruct (fold_max_ranges (h, s, v) SKIN_RANGES 0) as [Hc Hgt]; [by left |].
  cbv zeta in Hc, Hgt. unfold is_skin_color.
  rewrite <- (orb_false_l (existsb _ _)).
  change false with (0 >? 127). rewrite <- Hgt.
  destruct Hc as [-> | ->]; reflexivity.
Qed.

Lemma count_true_fmap {A} (f : A → bool) (l : list A) :
  count_true (f <$> l) = length (List.filter f l).
Proof.
  unfold count_true. induction l as [| x l IH]; [done |].
  rewrite fmap_cons. cbn [List.filter]. unfold id at 1.
  destruct (f x); cbn [length]; by rewrite IH.
Qed.

Lemma count_true_zip {A} (f g : A → bool) (l : list A) :
  count_true (zip_with andb (f <$> l) (g <$> l))
  = length (List.filter (λ x, f x && g x) l).
Proof.
  unfold count_true. induction l as [| x l IH]; [done |].
  rewrite !fmap_cons. cbn [zip_with List.filter]. unfold id at 1.
  destruct (f x && g x); cbn [length]; by rewrite IH.
Qed.

Lemma filter_and_le {A} (f g : A → bool) (l : list A) :
  (length (List.filter (λ x, f x && g x) l) <= length (List.filter g l))%nat.
Proof.
  induction l as [| x l IH]; [done |].
  cbn. destruct (f x), (g x); cbn; lia.
Qed.

Lemma ratio_bounds (a b : nat) :
  (a <= b)%nat → (0 < b)%nat → (0 <= ratio a b)%Q ∧ (ratio a b <= 1)%Q.
Proof.
  intros Hab Hb. unfold ratio. split.
  - apply Qle_div_iff; [lia |]. cbn. lia.
  - apply Qdiv_le_iff; [lia |]. cbn. lia.
Qed.

(** The mask used for counting: no feathering, hence no blur. *)
Lemma detect_skin_mask_unfeathered (h w c : nat) (data : list (list Z)) :
  (h * w * c)%nat ≠ 0%nat → (c = 3 ∨ c = 4)%nat →
  skin_mask (Some (Arr3 h w c data)) (Some 0)
  = Arr2 h w (combined_mask_at cv_rgb2hsv <$> data).
Proof.
  intros Hsz Hc. unfold detect_skin_mask. cbn [arr_size default].
  destruct (Nat.eqb_spec (h * w * c) 0) as [? | _]; [done |].
  by destruct Hc as [-> | ->].
Qed.

Lemma mask_above_127 (data : list (list Z)) :
  (λ m, m >? 127) <$> (combined_mask_at cv_rgb2hsv <$> data) = skin_px <$> data.
Proof.
  rewrite <- list_fmap_compose. apply list_fmap_ext.
  intros i x _. apply combined_mask_skin.
Qed.

Lemma skin_percentage_rgba (h w : nat) (data : list (list Z)) :
  (h * w * 4)%nat ≠ 0%nat →
  skin_pct (Some (Arr3 h w 4 data))
  = let visible := length (List.filter is_visible_pixel data) in
    let skin := length (List.filter (λ px, skin_px px && is_visible_pixel px) data) in
    if (visible =? 0)%nat then 0%Q else ratio skin visible.
Proof.
  intros Hsz. unfold get_skin_percentage.
  rewrite detect_skin_mask_unfeathered by auto.
  cbn [arr_size mask_data].
  destruct (Nat.eqb_spec (h * w * 4) 0) as [? | _]; [done |].
  destruct (Nat.eqb_spec (h * w) 0) as [? | _]; [lia |].
  rewrite (mask_above_127 data).
  change (λ px : list Z, chan 3 px >? 127) with is_visible_pixel.
  by rewrite count_true_fmap, count_true_zip.
Qed.

Lemma skin_percentage_rgb (h w : nat) (data : list (list Z)) :
  (h * w * 3)%nat ≠ 0%nat →
  skin_pct (Some (Arr3 h w 3 data))
  = ratio (length (List.filter skin_px data)) (h * w).
Proof.
  intros Hsz. unfold get_skin_percentage.
  rewrite detect_skin_mask_unfeathered by auto.
  cbn [arr_size mask_data].
  destruct (Nat.eqb_spec (h * w * 3) 0) as [? | _]; [done |].
  destruct (Nat.eqb_spec (h * w) 0) as [? | _]; [lia |].
  destruct (Nat.ltb_spec 0 (h * w)) as [_ | ?]; [| lia].
  rewrite (mask_above_127 data).
  by rewrite count_true_fmap.
Qed.

Lemma count_true_zeros (n : nat) :
  count_true ((λ m, m >? 127) <$> replicate n 0) = 0%nat.
Proof.
  rewrite count_true_fmap. induction n as [| n IH]; [done |]. cbn. exact IH.
Qed.

Lemma ratio_zero (n : nat) : (ratio 0 n == 0)%Q.
Proof. unfold ratio. cbn [Z.of_nat]. unfold Qdiv. apply Qmult_0_l. Qed.

Lemma skin_percentage_other (img : ndarray) :
  match img with Arr3 _ _ 3 _ | Arr3 _ _ 4 _ => False | _ => True end →
  (skin_pct (Some img) == 0)%Q.
Proof.
  intros Hkind. unfold get_skin_percentage.
  destruct (arr_size img =? 0)%nat eqn:Hsz; [reflexivity |].
  destruct img as [h w d | h w c d].
  - unfold detect_skin_mask. rewrite Hsz. cbn [arr_size] in Hsz.
    unfold zeros2. cbn [arr_size mask_data]. rewrite Hsz.
    rewrite count_true_zeros.
    destruct (0 <? h * w)%nat; [apply ratio_zero | reflexivity].
  - unfold detect_skin_mask. rewrite Hsz.
    destruct c as [| [| [| [| [| c']]]]]; try done; cbn; reflexivity.
Qed.

Lemma skin_percentage_bounds (image : option ndarray) :
  (∀ img, image = Some img → arr_wf img) →
  (0 <= skin_pct image)%Q ∧ (skin_pct image <= 1)%Q.
Proof.
  intros Hwf. destruct image as [img |]; [| by cbn].
  specialize (Hwf img eq_refl).
  assert (Hother : match img with Arr3 _ _ 3 _ | Arr3 _ _ 4 _ => False | _ => True end →
                   (0 <= skin_pct (Some img))%Q ∧ (skin_pct (Some img) <= 1)%Q).
  { intros Hk. rewrite (skin_percentage_other img Hk). by split. }
  destruct img as [h w d | h w c d]; [by apply Hother |].
  destruct c as [| [| [| [| [| c']]]]]; try (by apply Hother).
  - destruct (decide ((h * w * 3)%nat = 0%nat)) as [Hz | Hnz].
    + unfold get_skin_percentage. cbn [arr_size]. rewrite Hz. by cbn.
    + rewrite skin_percentage_rgb by done. destruct Hwf as [Hlen _].
      apply ratio_bounds; [| lia].
      rewrite <- Hlen. apply List.filter_length_le.
  - destruct (decide ((h * w * 4)%nat = 0%nat)) as [Hz | Hnz].
    + unfold get_skin_percentage. cbn [arr_size]. rewrite Hz. by cbn.
    + rewrite skin_percentage_rgba by done. cbv zeta.
      destruct (Nat.eqb_spec (length (List.filter is_visible_pixel d)) 0) as [_ | Hv];
        [by split |].
      apply ratio_bounds; [apply filter_and_le | lia].
Qed.

(** C7, amended: [is_photo_layer] answers true exactly when the image is
    not empty and its skin percentage is at least the threshold; when the
    caller passes no threshold the predicate uses 5% (0.05), and it is the
    layered-template processor that passes 3.5% (0.035).  The percentage
    counts, among the pixels with alpha above 127 when there are four
    channels and among all pixels when there are three, those whose
    unfeathered mask value exceeds 127, and lies between 0 and 1. *)
Theorem skin_photo_policy :
  (∀ (image : option ndarray) (t : Q),
     is_photo image (Some t) = true
     ↔ (∃ img, image = Some img ∧ arr_size img ≠ 0%nat) ∧ (t <= skin_pct image)%Q)
  ∧ (∀ image : option ndarray,
       is_photo image None = is_photo image (Some (5 # 100)))
  ∧ (PSDProcessor.SKIN_THRESHOLD == 35 # 1000)%Q
  ∧ (∀ (h w : nat) (data : list (list Z)),
       (h * w * 4)%nat ≠ 0%nat →
       skin_pct (Some (Arr3 h w 4 data))
       = let visible := length (List.filter is_visible_pixel data) in
         let skin :=
           length (List.filter (λ px, skin_px px && is_visible_pixel px) data) in
         if (visible =? 0)%nat then 0%Q else ratio skin visible)
  ∧ (∀ (h w : nat) (data : list (list Z)),
       (h * w * 3)%nat ≠ 0%nat →
       skin_pct (Some (Arr3 h w 3 data))
       = ratio (length (List.filter skin_px data)) (h * w))
  ∧ (∀ px : list Z, (combined_mask_at cv_rgb2hsv px >? 127) = skin_px px)
  ∧ (∀ image : option ndarray,
       (∀ img, image = Some img → arr_wf img) →
       (0 <= skin_pct image)%Q ∧ (skin_pct image <= 1)%Q).
Proof.
  split; [| split; [| split; [| split; [| split; [| split]]]]].
  - intros image t. unfold is_photo_layer. cbn [default].
    destruct image as [img |].
    + destruct (Nat.eqb_spec (arr_size img) 0) as [Hz | Hnz].
      * split; [done |]. intros [(img' & [= <-] & Hne) _]. done.
      * unfold Qleb. rewrite Qle_bool_iff. split.
        -- intros H. split; [by exists img | done].
        -- by intros [_ H].
    + split; [done |]. intros [(img' & Himg & _) _]. done.
  - reflexivity.
  - reflexivity.
  - apply skin_percentage_rgba.
  - apply skin_percentage_rgb.
  - apply combined_mask_skin.
  - apply skin_percentage_bounds.
Qed.

End SkinFacts.

(** C7, as stated, fails on a 5 x 5 image with one skin pixel: its skin
    percentage is 4%, above the stated 3.5%, and [is_photo_layer]
    called without a threshold answers false, because its default is 5%. *)
Lemma is_photo_default_threshold_is_5_percent :
  (SkinDetector.get_skin_percentage SkinDetector.hsv8_reference SkinDetector.no_blur 5
     (Some SkinDetector.one_skin_pixel_in_25) == 4 # 100)%Q
  ∧ (35 # 1000 <= SkinDetector.get_skin_percentage SkinDetector.hsv8_reference
                    SkinDetector.no_blur 5 (Some SkinDetector.one_skin_pixel_in_25))%Q
  ∧ SkinDetector.is_photo_layer SkinDetector.hsv8_reference SkinDetector.no_blur 5
      (Some SkinDetector.one_skin_pixel_in_25) None = false.
Proof. by vm_compute. Qed.


(** ** Classification of rendered layers *)

Section PhotoLayerFacts.

Import PSDProcessor.

Variable str_lower : string → string.
Variable cv_rgb2hsv : Z * Z * Z → Z * Z * Z.
Variable cv_gaussian_blur : ndarray → Z → ndarray.

Local Abbreviation is_photo_layer' :=
  (_is_photo_layer str_lower cv_rgb2hsv cv_gaussian_blur).
Local Abbreviation by_name := (_is_photo_layer_by_name str_lower).
Local Abbreviation skin_pct := (skin_percentage cv_rgb2hsv cv_gaussian_blur).

Lemma skin_is_photo_layer_iff (img : ndarray) (t : Q) :
  (0 < arr_size img)%nat →
  skin_is_photo_layer cv_rgb2hsv cv_gaussian_blur (Some img) (Some t) = true
  ↔ (t <= skin_pct (Some img))%Q.
Proof.
  intros Hsz. unfold skin_is_photo_layer, skin_percentage, SkinDetector.is_photo_layer.
  cbn [default].
  destruct (Nat.eqb_spec (arr_size img) 0) as [? | _]; [lia |].
  unfold Qleb. apply Qle_bool_iff.
Qed.

(** C9, amended: a rendered layer is classified as photo exactly when its
    name matches a photo keyword, whatever its size, or else when its
    bounding box covers at most 80% of the canvas and its skin percentage
    is at least the 3.5% threshold.  A layer that failed to render is a
    photo exactly when its name matches. *)
Theorem photo_layer_classification (layer : Layer) (img : ndarray) (cw ch : Z) :
  0 < cw → 0 < ch → (0 < arr_size img)%nat →
  (is_photo_layer' layer (Some img) (Some cw) (Some ch) = true
   ↔ by_name (layer_name layer) = true
     ∨ ((_get_layer_coverage layer cw ch <= 8 # 10)%Q
        ∧ (35 # 1000 <= skin_pct (Some img))%Q))
  ∧ (by_name (layer_name layer) = true →
     is_photo_layer' layer (Some img) (Some cw) (Some ch) = true)
  ∧ (by_name (layer_name layer) = false →
     (8 # 10 < _get_layer_coverage layer cw ch)%Q →
     is_photo_layer' layer (Some img) (Some cw) (Some ch) = false)
  ∧ is_photo_layer' layer None (Some cw) (Some ch) = by_name (layer_name layer).
Proof.
  intros Hcw Hch Hsz.
  assert (Htruthy : truthy (Some cw) && truthy (Some ch) = true).
  { cbn. destruct (Z.eqb_spec cw 0), (Z.eqb_spec ch 0); (done || lia). }
  assert (Hrest : by_name (layer_name layer) = false →
            is_photo_layer' layer (Some img) (Some cw) (Some ch)
            = if Qltb (8 # 10) (_get_layer_coverage layer cw ch) then false
              else skin_is_photo_layer cv_rgb2hsv cv_gaussian_blur (Some img)
                     (Some SKIN_THRESHOLD)).
  { intros Hn. unfold _is_photo_layer. rewrite Hn, Htruthy.
    destruct (Nat.ltb_spec 0 (arr_size img)) as [_ | ?]; [| lia].
    cbn [andb default]. reflexivity. }
  split; [| split; [| split]].
  - destruct (by_name (layer_name layer)) eqn:Hn.
    + split; [by left |]. intros _. unfold _is_photo_layer. by rewrite Hn.
    + rewrite (Hrest eq_refl).
      destruct (Qltb (8 # 10) (_get_layer_coverage layer cw ch)) eqn:Hcov.
      * apply Qltb_true_iff in Hcov. split; [done |].
        intros [? | [Hle _]]; [done |]. by apply Qle_not_lt in Hle.
      * apply Qltb_false_iff in Hcov.
        rewrite skin_is_photo_layer_iff by done. unfold SKIN_THRESHOLD.
        split; [by right | by intros [? | [_ ?]]].
  - intros Hn. unfold _is_photo_layer. by rewrite Hn.
  - intros Hn Hcov. rewrite (Hrest Hn).
    apply Qltb_true_iff in Hcov. by rewrite Hcov.
  - unfold _is_photo_layer. by destruct (by_name (layer_name layer)).
Qed.

End PhotoLayerFacts.

(** C9, as stated, fails on a layer named "Photo" whose bounds are the whole
    canvas: it covers 100% of the canvas, shows no skin, and is classified
    as photo. *)
Lemma full_canvas_layer_classified_photo :
  (8 # 10 < PSDProcessor._get_layer_coverage PSDProcessor.full_canvas_photo_layer
              100 100)%Q
  ∧ (PSDProcessor.skin_percentage SkinDetector.hsv8_reference SkinDetector.no_blur
       (Some PSDProcessor.blue_pixel_image) == 0)%Q
  ∧ PSDProcessor._is_photo_layer PSDProcessor.ascii_lower SkinDetector.hsv8_reference
      SkinDetector.no_blur PSDProcessor.full_canvas_photo_layer
      (Some PSDProcessor.blue_pixel_image) (Some 100) (Some 100) = true.
Proof. by vm_compute. Qed.

(** ** Colour analysis *)

(** *** Rounding and the fractional part *)

Section ColorArithmetic.

Import ColorAnalyzer.

Lemma Qltb_comp (x x' y y' : Q) : (x == x')%Q → (y == y')%Q → Qltb x y = Qltb x' y'.
Proof.
  intros Hx Hy. destruct (Qltb x' y') eqn:E.
  - apply Qltb_true_iff in E. apply Qltb_true_iff. by rewrite Hx, Hy.
  - apply Qltb_false_iff in E. apply Qltb_false_iff. by rewrite Hx, Hy.
Qed.

Lemma py_round_comp (x y : Q) : (x == y)%Q → py_round x = py_round y.
Proof.
  intros H. unfold py_round. rewrite (Qfloor_comp x y H).
  rewrite (Qltb_comp (x - inject_Z (Qfloor y)) (y - inject_Z (Qfloor y)) (1#2) (1#2)),
          (Qltb_comp (1#2) (1#2) (x - inject_Z (Qfloor y)) (y - inject_Z (Qfloor y)));
    try reflexivity; by rewrite H.
Qed.

Lemma py_round_Z (z : Z) : py_round (inject_Z z) = z.
Proof.
  unfold py_round. rewrite Qfloor_Z.
  assert (H : Qltb (inject_Z z - inject_Z z) (1 # 2) = true).
  { apply Qltb_true_iff. lra. }
  by rewrite H.
Qed.

Lemma py_round_bounds (x : Q) :
  Qfloor x <= py_round x <= Qfloor x + 1
  ∧ (py_round x = Qfloor x → (x - inject_Z (Qfloor x) <= 1 # 2)%Q)
  ∧ (py_round x = Qfloor x + 1 → (1 # 2 <= x - inject_Z (Qfloor x))%Q).
Proof.
  unfold py_round.
  destruct (Qltb (x - inject_Z (Qfloor x)) (1 # 2)) eqn:E1.
  - apply Qltb_true_iff in E1. split; [lia |]. split; [intros _; lra | lia].
  - apply Qltb_false_iff in E1.
    destruct (Qltb (1 # 2) (x - inject_Z (Qfloor x))) eqn:E2.
    + split; [lia |]. split; [lia | done].
    + apply Qltb_false_iff in E2. destruct (Z.even (Qfloor x)); (split; [lia |]); split; done || lia.
Qed.

Lemma py_round_mono (x y : Q) : (x <= y)%Q → py_round x <= py_round y.
Proof.
  intros Hxy. pose proof (Qfloor_resp_le x y Hxy) as Hfl.
  destruct (py_round_bounds x) as (Bx & Lx & Ux).
  destruct (py_round_bounds y) as (By & Ly & Uy).
  destruct (Z.eq_dec (Qfloor x) (Qfloor y)) as [Heq | Hne]; [| lia].
  destruct (Z.eq_dec (py_round x) (Qfloor x)) as [Hx | Hx]; [lia |].
  destruct (Z.eq_dec (py_round y) (Qfloor y + 1)) as [Hy | Hy]; [lia |].
  assert (Hx' : py_round x = Qfloor x + 1) by lia.
  assert (Hy' : py_round y = Qfloor y) by lia.
  specialize (Ux Hx'). specialize (Ly Hy'). rewrite Heq in Ux.
  assert (Hxy' : (x == y)%Q) by lra.
  rewrite (py_round_comp x y Hxy'). lia.
Qed.
Lemma Qmod1_bounds (x : Q) : (0 <= Qmod1 x)%Q ∧ (Qmod1 x < 1)%Q.
Proof.
  unfold Qmod1. pose proof (Qfloor_le x). pose proof (Qlt_floor x).
  rewrite inject_Z_plus in H0. change (inject_Z 1) with 1%Q in H0. split; lra.
Qed.

Lemma py_int_nonneg (x : Q) : (0 <= x)%Q → py_int x = Qfloor x.
Proof.
  intros H. unfold py_int.
  destruct (Qltb x 0) eqn:E; [| done].
  apply Qltb_true_iff in E. lra.
Qed.

Lemma Qmax_cases (a b : Q) : Qmax a b = a ∨ Qmax a b = b.
Proof. unfold Qmax, GenericMinMax.gmax. destruct (a ?= b)%Q; auto. Qed.

Lemma Qmin_cases (a b : Q) : Qmin a b = a ∨ Qmin a b = b.
Proof. unfold Qmin, GenericMinMax.gmin. destruct (a ?= b)%Q; auto. Qed.

Lemma Qmax3_spec (a b c : Q) :
  (a <= Qmax3 a b c)%Q ∧ (b <= Qmax3 a b c)%Q ∧ (c <= Qmax3 a b c)%Q
  ∧ (Qmax3 a b c = a ∨ Qmax3 a b c = b ∨ Qmax3 a b c = c).
Proof.
  unfold Qmax3.
  pose proof (Q.le_max_l a b). pose proof (Q.le_max_r a b).
  pose proof (Q.le_max_l (Qmax a b) c). pose proof (Q.le_max_r (Qmax a b) c).
  repeat split; try lra.
  destruct (Qmax_cases (Qmax a b) c) as [-> | ->]; [| auto].
  destruct (Qmax_cases a b) as [-> | ->]; auto.
Qed.

Lemma Qmin3_spec (a b c : Q) :
  (Qmin3 a b c <= a)%Q ∧ (Qmin3 a b c <= b)%Q ∧ (Qmin3 a b c <= c)%Q
  ∧ (Qmin3 a b c = a ∨ Qmin3 a b c = b ∨ Qmin3 a b c = c).
Proof.
  unfold Qmin3.
  pose proof (Q.le_min_l a b). pose proof (Q.le_min_r a b).
  pose proof (Q.le_min_l (Qmin a b) c). pose proof (Q.le_min_r (Qmin a b) c).
  repeat split; try lra.
  destruct (Qmin_cases (Qmin a b) c) as [-> | ->]; [| auto].
  destruct (Qmin_cases a b) as [-> | ->]; auto.
Qed.

Lemma colorsys_val (r g b : Q) : val (colorsys_rgb_to_hsv r g b) = Qmax3 r g b.
Proof. unfold colorsys_rgb_to_hsv. by destruct (Qeq_bool _ _). Qed.

Lemma colorsys_hue_range (r g b : Q) :
  (0 <= hue (colorsys_rgb_to_hsv r g b))%Q ∧ (hue (colorsys_rgb_to_hsv r g b) < 1)%Q.
Proof.
  unfold colorsys_rgb_to_hsv. destruct (Qeq_bool _ _); cbn [hue fst snd].
  - split; lra.
  - apply Qmod1_bounds.
Qed.

(** The three channels produced by [colorsys.hsv_to_rgb]: all between
    v (1 - s) and v, one of them v and one of them v (1 - s). *)
Lemma hsv_to_rgb_channels (h s v : Q) :
  (0 <= h)%Q → (h < 1)%Q → (0 < s)%Q → (s <= 1)%Q → (0 <= v)%Q →
  let '(a, b, c) := colorsys_hsv_to_rgb h s v in
  (a <= v ∧ b <= v ∧ c <= v)%Q
  ∧ (v * (1 - s) <= a ∧ v * (1 - s) <= b ∧ v * (1 - s) <= c)%Q
  ∧ (a = v ∨ b = v ∨ c = v)
  ∧ (a = (v * (1 - s))%Q ∨ b = (v * (1 - s))%Q ∨ c = (v * (1 - s))%Q).
Proof.
  intros Hh0 Hh1 Hs0 Hs1 Hv. unfold colorsys_hsv_to_rgb.
  destruct (Qeq_bool s 0) eqn:Es.
  { apply Qeq_bool_iff in Es. lra. }
  rewrite py_int_nonneg by lra.
  set (f := (h * 6 - inject_Z (Qfloor (h * 6)))%Q).
  assert (Hf : (0 <= f)%Q ∧ (f < 1)%Q) by apply (Qmod1_bounds (h * 6)).
  destruct Hf as [Hf0 Hf1].
  assert (Hvf : (0 <= v * f)%Q) by (apply Qmult_le_0_compat; lra).
  assert (Hvf1 : (v * f <= v)%Q) by nra.
  assert (Hvs : (0 <= v * s)%Q) by (apply Qmult_le_0_compat; lra).
  assert (Hp : (v * (1 - s) <= v)%Q) by lra.
  assert (Hsvf : (0 <= s * (v * f))%Q) by (apply Qmult_le_0_compat; lra).
  assert (Hsvf1 : (s * (v * f) <= s * v)%Q) by nra.
  assert (Hq1 : (v * (1 - s * f) <= v)%Q) by lra.
  assert (Hq0 : (v * (1 - s) <= v * (1 - s * f))%Q) by lra.
  assert (Ht1 : (v * (1 - s * (1 - f)) <= v)%Q) by lra.
  assert (Ht0 : (v * (1 - s) <= v * (1 - s * (1 - f)))%Q) by lra.
  repeat match goal with
         | |- context [if ?c then _ else _] => destruct c
         end; repeat split; auto; lra.
Qed.

Lemma q255_scale (z : Z) : (inject_Z z / 255 * 255 == inject_Z z)%Q.
Proof. field. Qed.

Lemma q255_le (a b : Z) : (inject_Z a / 255 <= inject_Z b / 255)%Q → a <= b.
Proof.
  intros H. rewrite Zle_Qle.
  assert (H' : (inject_Z a / 255 * 255 <= inject_Z b / 255 * 255)%Q).
  { apply Qmult_le_compat_r; [exact H | discriminate]. }
  by rewrite !q255_scale in H'.
Qed.

Lemma q255_nonneg (a : Z) : 0 <= a → (0 <= inject_Z a / 255)%Q.
Proof.
  intros H. rewrite Zle_Qle in H. change (inject_Z 0) with 0%Q in H.
  apply Qle_shift_div_l; [reflexivity | lra].
Qed.

Lemma Qmax3_q255 (r g b : Z) :
  (Qmax3 (inject_Z r / 255) (inject_Z g / 255) (inject_Z b / 255) * 255
   == inject_Z (Z.max (Z.max r g) b))%Q.
Proof.
  destruct (Qmax3_spec (inject_Z r / 255) (inject_Z g / 255) (inject_Z b / 255))
    as (Hr & Hg & Hb & Hwhich).
  destruct Hwhich as [E | [E | E]]; rewrite E in *; rewrite q255_scale;
    apply q255_le in Hr, Hg, Hb; apply inject_Z_injective; lia.
Qed.

Lemma boost_keeps_value (c : rgb) (ts : Q) :
  0 <= red c → 0 <= green c → 0 <= blue c → (0 < ts)%Q → (ts <= 255)%Q →
  let c' := _boost_saturation c ts in
  Z.max (Z.max (red c') (green c')) (blue c')
  = Z.max (Z.max (red c) (green c)) (blue c).
Proof.
  intros Hr Hg Hb Hts0 Hts1. unfold _boost_saturation.
  set (x := colorsys_rgb_to_hsv _ _ _).
  pose proof (colorsys_hue_range (inject_Z (red c) / 255) (inject_Z (green c) / 255)
                (inject_Z (blue c) / 255)) as [Hh0 Hh1].
  fold x in Hh0, Hh1.
  assert (Hval : (val x * 255 == inject_Z (Z.max (Z.max (red c) (green c)) (blue c)))%Q).
  { unfold x. rewrite colorsys_val. apply Qmax3_q255. }
  set (M := Z.max (Z.max (red c) (green c)) (blue c)) in *.
  assert (HM : 0 <= M) by lia.
  assert (Hv0 : (0 <= val x)%Q).
  { rewrite Zle_Qle in HM. change (inject_Z 0) with 0%Q in HM. lra. }
  pose proof (hsv_to_rgb_channels (hue x) (ts / 255) (val x)) as Hch.
  destruct (colorsys_hsv_to_rgb (hue x) (ts / 255) (val x)) as [[a b] d].
  destruct Hch as ((Ha & Hb' & Hd) & _ & Hone & _); try lra.
  { apply Qlt_shift_div_l; lra. }
  { apply Qle_shift_div_r; lra. }
  cbv zeta. cbn [red green blue fst snd].
  assert (Hround : py_round (val x * 255) = M).
  { rewrite (py_round_comp _ _ Hval). apply py_round_Z. }
  assert (Ra : py_round (a * 255) <= M) by (rewrite <- Hround; apply py_round_mono; lra).
  assert (Rb : py_round (b * 255) <= M) by (rewrite <- Hround; apply py_round_mono; lra).
  assert (Rd : py_round (d * 255) <= M) by (rewrite <- Hround; apply py_round_mono; lra).
  destruct Hone as [-> | [-> | ->]]; lia.
Qed.

Lemma boost_unrounded (c : rgb) (ts : Q) :
  0 <= red c → 0 <= green c → 0 <= blue c →
  0 < Z.max (Z.max (red c) (green c)) (blue c) →
  (0 < ts)%Q → (ts <= 255)%Q →
  let x := colorsys_rgb_to_hsv (inject_Z (red c) / 255) (inject_Z (green c) / 255)
                               (inject_Z (blue c) / 255) in
  let '(a, b, d) := colorsys_hsv_to_rgb (hue x) (ts / 255) (val x) in
  (sat (colorsys_rgb_to_hsv a b d) * 255 == ts)%Q
  ∧ (val (colorsys_rgb_to_hsv a b d) == val x)%Q.
Proof.
  intros Hr Hg Hb HM Hts0 Hts1 x.
  pose proof (colorsys_hue_range (inject_Z (red c) / 255) (inject_Z (green c) / 255)
                (inject_Z (blue c) / 255)) as [Hh0 Hh1].
  fold x in Hh0, Hh1.
  assert (Hval : (val x * 255 == inject_Z (Z.max (Z.max (red c) (green c)) (blue c)))%Q).
  { unfold x. rewrite colorsys_val. apply Qmax3_q255. }
  assert (Hv0 : (0 < val x)%Q).
  { rewrite Zlt_Qlt in HM. change (inject_Z 0) with 0%Q in HM. lra. }
  assert (Hs0 : (0 < ts / 255)%Q) by (apply Qlt_shift_div_l; lra).
  assert (Hs1 : (ts / 255 <= 1)%Q) by (apply Qle_shift_div_r; lra).
  pose proof (hsv_to_rgb_channels (hue x) (ts / 255) (val x)) as Hch.
  destruct (colorsys_hsv_to_rgb (hue x) (ts / 255) (val x)) as [[a b] d].
  destruct Hch as ((Ha & Hb' & Hd) & (La & Lb & Ld) & Hone & Hlow); try lra.
  destruct (Qmax3_spec a b d) as (M1 & M2 & M3 & Mw).
  destruct (Qmin3_spec a b d) as (m1 & m2 & m3 & mw).
  assert (Hmax : (Qmax3 a b d == val x)%Q).
  { apply Qle_antisym.
    - destruct Mw as [-> | [-> | ->]]; done.
    - destruct Hone as [<- | [<- | <-]]; done. }
  assert (Hmin : (Qmin3 a b d == val x * (1 - ts / 255))%Q).
  { apply Qle_antisym.
    - destruct Hlow as [<- | [<- | <-]]; done.
    - destruct mw as [-> | [-> | ->]]; done. }
  assert (Hvs : (0 < val x * (ts / 255))%Q) by nra.
  unfold colorsys_rgb_to_hsv.
  destruct (Qeq_bool (Qmin3 a b d) (Qmax3 a b d)) eqn:E.
  { apply Qeq_bool_iff in E. rewrite Hmax, Hmin in E. lra. }
  cbn [sat val fst snd]. split; [| exact Hmax].
  rewrite Hmax, Hmin. field. lra.
Qed.

Lemma Qfloor_unique (x : Q) (z : Z) :
  (inject_Z z <= x)%Q → (x < inject_Z z + 1)%Q → Qfloor x = z.
Proof.
  intros H1 H2.
  pose proof (Qfloor_le x) as F1. pose proof (Qlt_floor x) as F2.
  rewrite inject_Z_plus in F2. change (inject_Z 1) with 1%Q in F2.
  assert (A : (inject_Z z < inject_Z (Qfloor x) + 1)%Q) by lra.
  assert (B : (inject_Z (Qfloor x) < inject_Z z + 1)%Q) by lra.
  change 1%Q with (inject_Z 1) in A, B. rewrite <- inject_Z_plus in A, B.
  rewrite <- Zlt_Qlt in A, B. lia.
Qed.

Lemma Qmod1_comp (x y : Q) : (x == y)%Q → (Qmod1 x == Qmod1 y)%Q.
Proof. intros H. unfold Qmod1. by rewrite (Qfloor_comp x y H), H. Qed.

Lemma Qmod1_id (y : Q) : (0 <= y)%Q → (y < 1)%Q → (Qmod1 y == y)%Q.
Proof.
  intros H0 H1. unfold Qmod1. rewrite (Qfloor_unique y 0).
  - change (inject_Z 0) with 0%Q. lra.
  - exact H0.
  - change (inject_Z 0) with 0%Q. lra.
Qed.

Lemma Qmod1_neg (y : Q) : (-1 <= y)%Q → (y < 0)%Q → (Qmod1 y == y + 1)%Q.
Proof.
  intros H0 H1. unfold Qmod1. rewrite (Qfloor_unique y (-1)).
  - change (inject_Z (-1)) with (-1)%Q. lra.
  - exact H0.
  - change (inject_Z (-1)) with (-1)%Q. lra.
Qed.

Lemma Qeq_bool_comp (x y y' : Q) : (y == y')%Q → Qeq_bool x y = Qeq_bool x y'.
Proof.
  intros H. destruct (Qeq_bool x y') eqn:E.
  - apply Qeq_bool_iff in E. apply Qeq_bool_iff. by rewrite H.
  - destruct (Qeq_bool x y) eqn:E'; [| done].
    apply Qeq_bool_iff in E'. rewrite H in E'. apply Qeq_bool_iff in E'. congruence.
Qed.

(** The hue computed by [colorsys.rgb_to_hsv] once the largest and the
    smallest channel are known. *)
Lemma colorsys_hue_of (r g b v p : Q) :
  (Qmax3 r g b == v)%Q → (Qmin3 r g b == p)%Q → (p < v)%Q →
  (hue (colorsys_rgb_to_hsv r g b)
   == Qmod1 ((if Qeq_bool r v then (v - b) / (v - p) - (v - g) / (v - p)
              else if Qeq_bool g v then 2 + (v - r) / (v - p) - (v - b) / (v - p)
              else 4 + (v - g) / (v - p) - (v - r) / (v - p)) / 6))%Q.
Proof.
  intros Hmax Hmin Hlt. unfold colorsys_rgb_to_hsv.
  destruct (Qeq_bool (Qmin3 r g b) (Qmax3 r g b)) eqn:E.
  { apply Qeq_bool_iff in E. rewrite Hmax, Hmin in E. lra. }
  cbn [hue fst snd].
  rewrite (Qeq_bool_comp r _ v Hmax), (Qeq_bool_comp g _ v Hmax).
  apply Qmod1_comp.
  destruct (Qeq_bool r v); [| destruct (Qeq_bool g v)]; by rewrite Hmax, Hmin.
Qed.

Lemma Qmax3_of (a b d v : Q) :
  (a <= v)%Q → (b <= v)%Q → (d <= v)%Q → (a == v ∨ b == v ∨ d == v)%Q →
  (Qmax3 a b d == v)%Q.
Proof.
  intros Ha Hb Hd Hone.
  destruct (Qmax3_spec a b d) as (M1 & M2 & M3 & Mw).
  apply Qle_antisym.
  - destruct Mw as [-> | [-> | ->]]; done.
  - destruct Hone as [<- | [<- | <-]]; done.
Qed.

Lemma Qmin3_of (a b d p : Q) :
  (p <= a)%Q → (p <= b)%Q → (p <= d)%Q → (a == p ∨ b == p ∨ d == p)%Q →
  (Qmin3 a b d == p)%Q.
Proof.
  intros Ha Hb Hd Hone.
  destruct (Qmin3_spec a b d) as (M1 & M2 & M3 & Mw).
  apply Qle_antisym.
  - destruct Hone as [<- | [<- | <-]]; done.
  - destruct Mw as [-> | [-> | ->]]; done.
Qed.

Lemma sector_range (h : Q) :
  (0 <= h)%Q → (h < 1)%Q → 0 <= Qfloor (h * 6) <= 5.
Proof.
  intros H0 H1.
  pose proof (Qfloor_le (h * 6)) as F1. pose proof (Qlt_floor (h * 6)) as F2.
  rewrite inject_Z_plus in F2. change (inject_Z 1) with 1%Q in F2.
  assert (A : (inject_Z (Qfloor (h * 6)) < inject_Z 6)%Q).
  { change (inject_Z 6) with 6%Q. lra. }
  assert (B : (inject_Z (-1) < inject_Z (Qfloor (h * 6)))%Q).
  { change (inject_Z (-1)) with (-1)%Q. lra. }
  rewrite <- Zlt_Qlt in A, B. lia.
Qed.

Lemma div6 (E h : Q) : (E == h * 6)%Q → (E / 6 == h)%Q.
Proof. intros ->. field. Qed.

Lemma hsv_roundtrip_hue (h s v : Q) :
  (0 <= h)%Q → (h < 1)%Q → (0 < s)%Q → (s <= 1)%Q → (0 < v)%Q →
  let '(a, b, d) := colorsys_hsv_to_rgb h s v in
  (hue (colorsys_rgb_to_hsv a b d) == h)%Q.
Proof.
  intros Hh0 Hh1 Hs0 Hs1 Hv. unfold colorsys_hsv_to_rgb.
  destruct (Qeq_bool s 0) eqn:Es.
  { apply Qeq_bool_iff in Es. lra. }
  rewrite py_int_nonneg by lra.
  pose proof (sector_range h Hh0 Hh1) as Hk.
  set (k := Qfloor (h * 6)) in *.
  set (f := (h * 6 - inject_Z k)%Q).
  assert (Hf : (0 <= f)%Q ∧ (f < 1)%Q) by apply (Qmod1_bounds (h * 6)).
  destruct Hf as [Hf0 Hf1].
  assert (Hh : (h * 6 == inject_Z k + f)%Q) by (unfold f; ring).
  assert (Hvs : (0 < v * s)%Q) by nra.
  assert (Hvf : (0 <= v * f)%Q) by nra.
  assert (Hvf1 : (v * f < v)%Q) by nra.
  assert (Hsvf : (0 <= s * (v * f))%Q) by nra.
  assert (Hsvf1 : (s * (v * f) < s * v)%Q) by nra.
  set (p := (v * (1 - s))%Q).
  set (q := (v * (1 - s * f))%Q).
  set (t := (v * (1 - s * (1 - f)))%Q).
  assert (Hp : (p < v)%Q) by (unfold p; lra).
  assert (Hq : (p < q)%Q ∧ (q <= v)%Q) by (unfold p, q; split; lra).
  assert (Ht : (p <= t)%Q ∧ (t < v)%Q) by (unfold p, t; split; lra).
  destruct Hq as [Hq0 Hq1]. destruct Ht as [Ht0 Ht1].
  assert (Hcases : k = 0 ∨ k = 1 ∨ k = 2 ∨ k = 3 ∨ k = 4 ∨ k = 5) by lia.
  rewrite (Z.mod_small k 6) by lia.
  destruct Hcases as [Ek | [Ek | [Ek | [Ek | [Ek | Ek]]]]];
    rewrite Ek in *;
    repeat match goal with
           | |- context [(?a =? ?b)] =>
               let r := eval vm_compute in (a =? b) in change (a =? b) with r
           end;
    cbv beta iota;
    change (inject_Z 0) with 0%Q in *; change (inject_Z 1) with 1%Q in *;
    change (inject_Z 2) with 2%Q in *; change (inject_Z 3) with 3%Q in *;
    change (inject_Z 4) with 4%Q in *; change (inject_Z 5) with 5%Q in *.
  - (* v, t, p *)
    rewrite (colorsys_hue_of v t p v p); [| apply Qmax3_of; auto with qarith; lra
                                          | apply Qmin3_of; auto with qarith; lra | done].
    rewrite Qeq_bool_refl.
    rewrite (Qmod1_comp _ h) by (apply div6; rewrite Hh; unfold p, t; field; lra).
    by apply Qmod1_id.
  - (* q, v, p *)
    rewrite (colorsys_hue_of q v p v p); [| apply Qmax3_of; auto with qarith; lra
                                          | apply Qmin3_of; auto with qarith; lra | done].
    rewrite Qeq_bool_refl.
    destruct (Qeq_bool q v) eqn:Eq.
    + apply Qeq_bool_iff in Eq. unfold q in Eq.
      assert (Hz : (v * s * f == 0)%Q) by lra.
      assert (Hf : (f == 0)%Q) by (destruct (Qmult_integral _ _ Hz); lra).
      rewrite (Qmod1_comp _ h)
        by (apply div6; rewrite Hh, Hf; unfold p; field; lra).
      by apply Qmod1_id.
    + rewrite (Qmod1_comp _ h)
        by (apply div6; rewrite Hh; unfold p, q; field; lra).
      by apply Qmod1_id.
  - (* p, v, t *)
    rewrite (colorsys_hue_of p v t v p); [| apply Qmax3_of; auto with qarith; lra
                                          | apply Qmin3_of; auto with qarith; lra | done].
    rewrite Qeq_bool_refl.
    destruct (Qeq_bool p v) eqn:Ep; [apply Qeq_bool_iff in Ep; lra |].
    rewrite (Qmod1_comp _ h)
      by (apply div6; rewrite Hh; unfold p, t; field; lra).
    by apply Qmod1_id.
  - (* p, q, v *)
    rewrite (colorsys_hue_of p q v v p); [| apply Qmax3_of; auto with qarith; lra
                                          | apply Qmin3_of; auto with qarith; lra | done].
    destruct (Qeq_bool p v) eqn:Ep; [apply Qeq_bool_iff in Ep; lra |].
    destruct (Qeq_bool q v) eqn:Eq.
    + apply Qeq_bool_iff in Eq. unfold q in Eq.
      assert (Hz : (v * s * f == 0)%Q) by lra.
      assert (Hf : (f == 0)%Q) by (destruct (Qmult_integral _ _ Hz); lra).
      rewrite (Qmod1_comp _ h)
        by (apply div6; rewrite Hh, Hf; unfold p; field; lra).
      by apply Qmod1_id.
    + rewrite (Qmod1_comp _ h)
        by (apply div6; rewrite Hh; unfold p, q; field; lra).
      by apply Qmod1_id.
  - (* t, p, v *)
    rewrite (colorsys_hue_of t p v v p); [| apply Qmax3_of; auto with qarith; lra
                                          | apply Qmin3_of; auto with qarith; lra | done].
    destruct (Qeq_bool t v) eqn:Et; [apply Qeq_bool_iff in Et; lra |].
    destruct (Qeq_bool p v) eqn:Ep; [apply Qeq_bool_iff in Ep; lra |].
    rewrite (Qmod1_comp _ h)
      by (apply div6; rewrite Hh; unfold p, t; field; lra).
    by apply Qmod1_id.
  - (* v, p, q *)
    rewrite (colorsys_hue_of v p q v p); [| apply Qmax3_of; auto with qarith; lra
                                          | apply Qmin3_of; auto with qarith; lra | done].
    rewrite Qeq_bool_refl.
    rewrite (Qmod1_comp _ (h - 1)).
    + rewrite Qmod1_neg; lra.
    + apply div6.
      assert (H6 : ((h - 1) * 6 == h * 6 - 6)%Q) by ring.
      rewrite H6, Hh. unfold p, q. field. lra.
Qed.

End ColorArithmetic.

(** *** Dominant colour *)

Section ColorFacts.

Import ColorAnalyzer.

Variable pil_resize_lanczos : PILImage → nat → nat → PILImage.
Variable pil_convert_rgb : PILImage → PILImage.
Variable kmeans_dominant_center : Z → list rgb → exc (Q * Q * Q).
Variable n_clusters : Z.

Local Abbreviation dominant := (dominant_of_pixels kmeans_dominant_center n_clusters).
Local Abbreviation candidate := (cluster_candidate kmeans_dominant_center n_clusters).
Local Abbreviation dominant_color :=
  (get_dominant_color pil_resize_lanczos pil_convert_rgb kmeans_dominant_center
     n_clusters).
Local Abbreviation avg_saturation :=
  (λ pixels : list rgb, _get_average_saturation (_rgb_to_hsv <$> pixels)).

Lemma Qsum_zero (l : list Q) : Forall (λ q, (q == 0)%Q) l → (Qsum l == 0)%Q.
Proof.
  induction 1 as [| q l Hq _ IH]; [reflexivity |].
  cbn [Qsum foldr]. fold (Qsum l). rewrite Hq, IH. reflexivity.
Qed.

Lemma gray_average_saturation (pixels : list rgb) :
  Forall (λ p, p = (128, 128, 128)) pixels → (avg_saturation pixels == 0)%Q.
Proof.
  intros Hgray. unfold _get_average_saturation.
  destruct (length (_rgb_to_hsv <$> pixels) =? 0)%nat; [reflexivity |].
  unfold Qmean. rewrite Qsum_zero.
  - unfold Qdiv. apply Qmult_0_l.
  - rewrite <- list_fmap_compose. apply Forall_fmap.
    eapply Forall_impl; [exact Hgray |]. intros p ->. by vm_compute.
Qed.

Lemma dominant_low_saturation (pixels : list rgb) :
  (avg_saturation pixels < 15)%Q → dominant pixels = ret NEUTRAL_GRAY.
Proof.
  intros Hlow. unfold dominant_of_pixels.
  apply Qltb_true_iff in Hlow. unfold LOW_AVG_SATURATION_THRESHOLD.
  by rewrite Hlow.
Qed.

Lemma dominant_few_pixels (pixels : list rgb) :
  (length (List.filter valid_pixel pixels) < 10)%nat →
  dominant pixels = ret NEUTRAL_GRAY.
Proof.
  intros Hfew. unfold dominant_of_pixels.
  destruct (Qltb _ LOW_AVG_SATURATION_THRESHOLD); [done |].
  unfold _filter_pixels, MIN_PIXELS_FOR_CLUSTERING.
  destruct (Nat.ltb_spec (length (List.filter valid_pixel pixels)) 10); [done | lia].
Qed.


Lemma validate_saturation_boosts (cand : rgb) (avg : Q) :
  (_get_color_saturation cand < 20)%Q → (30 <= avg)%Q →
  validate_saturation cand avg = _boost_saturation cand 23.
Proof.
  intros Hsat Havg. unfold validate_saturation, MIN_RESULT_SATURATION.
  apply Qltb_true_iff in Hsat. apply Qle_bool_iff in Havg.
  unfold Qleb. by rewrite Hsat, Havg.
Qed.

Lemma validate_saturation_keeps (cand : rgb) (avg : Q) :
  (20 <= _get_color_saturation cand)%Q ∨ (avg < 30)%Q →
  validate_saturation cand avg = cand.
Proof.
  intros Hwhy. unfold validate_saturation, MIN_RESULT_SATURATION.
  destruct Hwhy as [Hsat | Havg].
  - apply Qltb_false_iff in Hsat. by rewrite Hsat.
  - apply Qltb_true_iff in Havg. unfold Qltb in Havg.
    apply negb_true_iff in Havg. unfold Qleb. rewrite Havg.
    by rewrite andb_false_r.
Qed.


End ColorFacts.



(** ** Worked instances *)

Section Instances.

Import PointValidator PerspectiveTransformer ColorAnalyzer SkinDetector PSDProcessor.

(** Five visible layers: two rendered give hybrid, three give
    layer_by_layer, none gives composite_fallback. *)
Lemma render_mode_selection_witness :
  PSDProcessor.render_mode_of PSDProcessor.ascii_lower SkinDetector.hsv8_reference
    SkinDetector.no_blur (PSDProcessor.demo_render 2) PSDProcessor.demo_psd 100 100
  = "hybrid"
  ∧ PSDProcessor.render_mode_of PSDProcessor.ascii_lower SkinDetector.hsv8_reference
      SkinDetector.no_blur (PSDProcessor.demo_render 3) PSDProcessor.demo_psd 100 100
    = "layer_by_layer"
  ∧ PSDProcessor.render_mode_of PSDProcessor.ascii_lower SkinDetector.hsv8_reference
      SkinDetector.no_blur (PSDProcessor.demo_render 0) PSDProcessor.demo_psd 100 100
    = "composite_fallback".
Proof.
  split; [| split].
  - pose proof (render_mode_selection PSDProcessor.ascii_lower
                  SkinDetector.hsv8_reference SkinDetector.no_blur
                  (PSDProcessor.demo_render 2) PSDProcessor.demo_psd 100 100) as H.
    cbv zeta in H. destruct H as (_ & _ & _ & H & _).
    apply H; [vm_compute; lia | vm_compute; reflexivity].
  - pose proof (render_mode_selection PSDProcessor.ascii_lower
                  SkinDetector.hsv8_reference SkinDetector.no_blur
                  (PSDProcessor.demo_render 3) PSDProcessor.demo_psd 100 100) as H.
    cbv zeta in H. destruct H as (_ & _ & _ & _ & _ & H).
    apply (H 0%nat); vm_compute; reflexivity.
  - pose proof (render_mode_selection PSDProcessor.ascii_lower
                  SkinDetector.hsv8_reference SkinDetector.no_blur
                  (PSDProcessor.demo_render 0) PSDProcessor.demo_psd 100 100) as H.
    cbv zeta in H. destruct H as (H & _).
    apply H. right. vm_compute. reflexivity.
Defined.


(** Three areas and the single path in second position: the same product
    goes through all three areas. *)
Lemma multi_area_product_choice_witness :
  omap id [None; Some "shots/mat.png"] = ["shots/mat.png"]
  ∧ demo_transform_multiple (demo_transformer 3) [None; Some "shots/mat.png"]
    = ret (demo_area_with (demo_transformer 3) "shots/mat.png"
             (demo_area_with (demo_transformer 3) "shots/mat.png"
                (demo_area_with (demo_transformer 3) "shots/mat.png"
                   (Arr3 1 1 4 [[10; 20; 30; 255]], []) rectangle) rectangle)
             rectangle).
Proof.
  split; [reflexivity |].
  pose proof (multi_area_product_choice demo_exists demo_load unit
                demo_getPerspectiveTransform demo_warpPerspective demo_rounded_mask
                demo_blur_alpha demo_blend (demo_transformer 3)
                [None; Some "shots/mat.png"]) as (_ & _ & _ & H).
  apply (H "shots/mat.png" rectangle rectangle rectangle
           (Arr3 1 1 4 [[10; 20; 30; 255]])); reflexivity.
Defined.







(** The skin percentage of the 5 x 5 image lies in [0, 1]. *)
Lemma skin_photo_policy_witness :
  arr_wf one_skin_pixel_in_25
  ∧ (0 <= get_skin_percentage hsv8_reference no_blur 5 (Some one_skin_pixel_in_25))%Q
  ∧ (get_skin_percentage hsv8_reference no_blur 5 (Some one_skin_pixel_in_25) <= 1)%Q.
Proof.
  assert (Hwf : arr_wf one_skin_pixel_in_25).
  { split; [reflexivity | repeat constructor]. }
  split; [exact Hwf |].
  destruct (skin_photo_policy hsv8_reference no_blur 5) as (_ & _ & _ & _ & _ & _ & H).
  apply H. intros img [= <-]. exact Hwf.
Defined.


(** A small layer with 4% skin and an ordinary name is a photo. *)
Lemma photo_layer_classification_witness :
  0 < 100 ∧ (0 < arr_size one_skin_pixel_in_25)%nat
  ∧ _is_photo_layer ascii_lower hsv8_reference no_blur small_banner_layer
      (Some one_skin_pixel_in_25) (Some 100) (Some 100) = true.
Proof.
  split; [lia |]. split; [vm_compute; lia |].
  destruct (photo_layer_classification ascii_lower hsv8_reference no_blur
              small_banner_layer one_skin_pixel_in_25 100 100)
    as ([_ H] & _); [lia | lia | vm_compute; lia |].
  apply H. right. split; vm_compute; discriminate.
Defined.

End Instances.

(** * Further properties *)

(** ** PointValidator: geometry of the accepted point lists *)

Section PointValidatorGeometry.

Import PointValidator.

Lemma ccw_turn (a b c : point) : ccw a b c = (cross_product_sign a b c >? 0).
Proof.
  unfold ccw, cross_product_sign.
  destruct (Z.gtb_spec ((c.2 - a.2) * (b.1 - a.1)) ((b.2 - a.2) * (c.1 - a.1)));
    destruct (Z.gtb_spec ((b.1 - a.1) * (c.2 - a.2) - (b.2 - a.2) * (c.1 - a.1)) 0);
    try reflexivity; lia.
Qed.

Lemma turn_cycle (a b c : point) :
  cross_product_sign b c a = cross_product_sign a b c.
Proof. unfold cross_product_sign. ring. Qed.

Lemma turn_translate (dx dy : Z) (a b c : point) :
  cross_product_sign (translate dx dy a) (translate dx dy b) (translate dx dy c)
  = cross_product_sign a b c.
Proof. unfold cross_product_sign, translate. cbn [fst snd]. ring. Qed.

Lemma self_intersecting_turns (p0 p1 p2 p3 : point) :
  is_self_intersecting [p0; p1; p2; p3]
  = let c0 := cross_product_sign p0 p1 p2 >? 0 in
    let c1 := cross_product_sign p1 p2 p3 >? 0 in
    let c2 := cross_product_sign p2 p3 p0 >? 0 in
    let c3 := cross_product_sign p3 p0 p1 >? 0 in
    (xorb c2 c1 && xorb c0 c3) || (xorb c3 c2 && xorb c1 c0).
Proof.
  unfold is_self_intersecting, segments_intersect, bool_ne.
  rewrite !ccw_turn.
  replace (cross_product_sign p0 p2 p3) with (cross_product_sign p2 p3 p0)
    by apply turn_cycle.
  replace (cross_product_sign p0 p1 p3) with (cross_product_sign p3 p0 p1)
    by (symmetry; apply turn_cycle).
  replace (cross_product_sign p1 p3 p0) with (cross_product_sign p3 p0 p1)
    by apply turn_cycle.
  replace (cross_product_sign p1 p2 p0) with (cross_product_sign p0 p1 p2)
    by (symmetry; apply turn_cycle).
  cbv zeta.
  destruct (xorb _ _ && xorb _ _); [reflexivity |].
  destruct (xorb _ _ && xorb _ _); reflexivity.
Qed.

Lemma convex_by_signs (c0 c1 c2 c3 : Z) :
  (let signs := (λ cp, cp >? 0) <$> filter (λ cp, cp ≠ 0) [c0; c1; c2; c3] in
   match signs with
   | [] => false
   | s0 :: _ => forallb (λ s, Bool.eqb s s0) signs
   end)
  = (negb ((c0 =? 0) && (c1 =? 0) && (c2 =? 0) && (c3 =? 0))
     && (((0 <=? c0) && (0 <=? c1) && (0 <=? c2) && (0 <=? c3))
         || ((c0 <=? 0) && (c1 <=? 0) && (c2 <=? 0) && (c3 <=? 0)))).
Proof. destruct c0, c1, c2, c3; reflexivity. Qed.

(** X1: a quadrilateral that turns the same way at each of its four corners
    (all four cross products positive, or all four negative) is convex for
    [is_convex_quadrilateral], is not self-intersecting, and passes
    [validate_points] whatever the image size. *)
Theorem strictly_convex_is_valid (p0 p1 p2 p3 : point) (w h : Z) :
  Forall (λ c, 0 < c) (turns p0 p1 p2 p3) ∨ Forall (λ c, c < 0) (turns p0 p1 p2 p3) →
  is_convex_quadrilateral [p0; p1; p2; p3] = true
  ∧ is_self_intersecting [p0; p1; p2; p3] = false
  ∧ validate_points [p0; p1; p2; p3] w h = ret tt.
Proof.
  intros Hturns.
  assert (Hsi : is_self_intersecting [p0; p1; p2; p3] = false).
  { rewrite self_intersecting_turns. cbv zeta. unfold turns in Hturns.
    destruct Hturns as [H | H];
      apply Forall_cons in H as [H0 H]; apply Forall_cons in H as [H1 H];
      apply Forall_cons in H as [H2 H]; apply Forall_cons in H as [H3 _];
      repeat match goal with
             | |- context [?c >? 0] => destruct (Z.gtb_spec c 0); try lia
             end; reflexivity. }
  split; [| split; [exact Hsi |]].
  - unfold is_convex_quadrilateral. rewrite convex_by_signs. unfold turns in Hturns.
    destruct Hturns as [H | H];
      apply Forall_cons in H as [H0 H]; apply Forall_cons in H as [H1 H];
      apply Forall_cons in H as [H2 H]; apply Forall_cons in H as [H3 _];
      repeat match goal with
             | |- context [?a =? ?b] => destruct (Z.eqb_spec a b); try lia
             | |- context [?a <=? ?b] => destruct (Z.leb_spec a b); try lia
             end; reflexivity.
  - unfold validate_points. rewrite Hsi. reflexivity.
Qed.

Lemma is_self_intersecting_length (points : list point) :
  length points ≠ 4%nat → is_self_intersecting points = true.
Proof.
  intros H. by destruct points as [| ? [| ? [| ? [| ? [| ? ?]]]]].
Qed.

(** X2: listing the same corners from the second one on changes neither
    [is_self_intersecting] nor [is_convex_quadrilateral] nor the outcome
    of [validate_points], for a list of any length. *)
Theorem validation_ignores_starting_corner (points : list point) (w h : Z) :
  is_self_intersecting (rotate_left points) = is_self_intersecting points
  ∧ is_convex_quadrilateral (rotate_left points) = is_convex_quadrilateral points
  ∧ validate_points (rotate_left points) w h = validate_points points w h.
Proof.
  destruct (decide (length points = 4%nat)) as [Hlen | Hlen].
  - destruct points as [| p0 [| p1 [| p2 [| p3 [| ? ?]]]]]; try discriminate.
    cbn [rotate_left app].
    assert (Hsi : is_self_intersecting [p1; p2; p3; p0]
                  = is_self_intersecting [p0; p1; p2; p3]).
    { rewrite !self_intersecting_turns. cbv zeta.
      repeat match goal with
             | |- context [?c >? 0] => destruct (c >? 0)
             end; reflexivity. }
    split; [exact Hsi |]. split.
    + unfold is_convex_quadrilateral. rewrite !convex_by_signs.
      repeat match goal with
             | |- context [?a =? 0] => destruct (a =? 0)
             end;
      repeat match goal with
             | |- context [?a <=? ?b] => destruct (a <=? b)
             end; reflexivity.
    + unfold validate_points. rewrite Hsi. reflexivity.
  - assert (Hlen' : length (rotate_left points) ≠ 4%nat).
    { destruct points as [| p rest]; [done |]. cbn [rotate_left].
      rewrite length_app. cbn in *. lia. }
    rewrite !is_self_intersecting_length by done.
    split; [done |]. split.
    + destruct points as [| ? [| ? [| ? [| ? [| ? ?]]]]]; try done.
      cbn. destruct l; done.
    + unfold validate_points.
      destruct (Nat.eqb_spec (length points) 4); [done |].
      destruct (Nat.eqb_spec (length (rotate_left points)) 4); [done |].
      cbn [negb]. destruct points as [| p rest]; [done |].
      cbn [rotate_left]. rewrite length_app. cbn [length].
      by rewrite Nat.add_1_r.
Qed.

Lemma ccw_translate (dx dy : Z) (a b c : point) :
  ccw (translate dx dy a) (translate dx dy b) (translate dx dy c) = ccw a b c.
Proof. by rewrite !ccw_turn, turn_translate. Qed.

(** X3: moving every point by the same offset changes neither
    [is_self_intersecting] nor [is_convex_quadrilateral], and the outcome of
    [validate_points] is the same whatever image sizes are passed. *)
Theorem validation_translation_invariant (dx dy : Z) (points : list point)
    (w h w' h' : Z) :
  is_self_intersecting (translate dx dy <$> points) = is_self_intersecting points
  ∧ is_convex_quadrilateral (translate dx dy <$> points)
    = is_convex_quadrilateral points
  ∧ validate_points (translate dx dy <$> points) w' h' = validate_points points w h.
Proof.
  assert (Hsi : is_self_intersecting (translate dx dy <$> points)
                = is_self_intersecting points).
  { destruct points as [| p0 [| p1 [| p2 [| p3 [| ? ?]]]]]; try reflexivity.
    cbn [fmap list_fmap]. unfold is_self_intersecting, segments_intersect.
    by rewrite !ccw_translate. }
  split; [exact Hsi |]. split.
  - destruct points as [| p0 [| p1 [| p2 [| p3 [| ? ?]]]]]; try reflexivity.
    cbn [fmap list_fmap]. unfold is_convex_quadrilateral.
    by rewrite !turn_translate.
  - unfold validate_points. by rewrite Hsi, length_fmap.
Qed.

(** X4: four points with all four corner cross products zero (all on one
    line, or repeated) pass [validate_points], although
    [is_convex_quadrilateral] rejects them. *)
Theorem degenerate_quadrilateral_accepted (p0 p1 p2 p3 : point) (w h : Z) :
  Forall (λ c, c = 0) (turns p0 p1 p2 p3) →
  is_self_intersecting [p0; p1; p2; p3] = false
  ∧ validate_points [p0; p1; p2; p3] w h = ret tt
  ∧ is_convex_quadrilateral [p0; p1; p2; p3] = false.
Proof.
  intros H. unfold turns in H.
  apply Forall_cons in H as [H0 H]; apply Forall_cons in H as [H1 H];
    apply Forall_cons in H as [H2 H]; apply Forall_cons in H as [H3 _].
  assert (Hsi : is_self_intersecting [p0; p1; p2; p3] = false).
  { rewrite self_intersecting_turns. cbv zeta. by rewrite H0, H1, H2, H3. }
  split; [exact Hsi |]. split.
  - unfold validate_points. by rewrite Hsi.
  - unfold is_convex_quadrilateral. rewrite convex_by_signs.
    by rewrite H0, H1, H2, H3.
Qed.

Lemma degenerate_quadrilateral_accepted_witness :
  Forall (λ c, c = 0) (turns (0, 0) (1, 1) (2, 2) (5, 5))
  ∧ validate_points [(0, 0); (1, 1); (2, 2); (5, 5)] 10 10 = ret tt.
Proof.
  assert (H : Forall (λ c, c = 0) (turns (0, 0) (1, 1) (2, 2) (5, 5)))
    by (repeat constructor).
  split; [exact H |].
  apply (degenerate_quadrilateral_accepted (0, 0) (1, 1) (2, 2) (5, 5) 10 10 H).
Defined.

Lemma strictly_convex_is_valid_witness :
  Forall (λ c, 0 < c) (turns (0, 0) (10, 0) (10, 10) (0, 10))
  ∧ validate_points [(0, 0); (10, 0); (10, 10); (0, 10)] 10 10 = ret tt.
Proof.
  assert (H : Forall (λ c, 0 < c) (turns (0, 0) (10, 0) (10, 10) (0, 10))).
  { repeat constructor. }
  split; [exact H |].
  apply (strictly_convex_is_valid (0, 0) (10, 0) (10, 10) (0, 10) 10 10). by left.
Defined.

End PointValidatorGeometry.

(** ** ColorAnalyzer: conversions, filter and boost *)

Section ColorConversions.

Import ColorAnalyzer.

Lemma Qmin3_q255 (r g b : Z) :
  (Qmin3 (inject_Z r / 255) (inject_Z g / 255) (inject_Z b / 255) * 255
   == inject_Z (Z.min (Z.min r g) b))%Q.
Proof.
  destruct (Qmin3_spec (inject_Z r / 255) (inject_Z g / 255) (inject_Z b / 255))
    as (Hr & Hg & Hb & Hwhich).
  destruct Hwhich as [E | [E | E]]; rewrite E in *; rewrite q255_scale;
    apply q255_le in Hr, Hg, Hb; apply inject_Z_injective; lia.
Qed.

Lemma Qleb_comp (x x' y y' : Q) : (x == x')%Q → (y == y')%Q → Qleb x y = Qleb x' y'.
Proof.
  intros Hx Hy. unfold Qleb. destruct (Qle_bool x' y') eqn:E.
  - apply Qle_bool_iff in E. apply Qle_bool_iff. by rewrite Hx, Hy.
  - destruct (Qle_bool x y) eqn:E'; [| done].
    apply Qle_bool_iff in E'. rewrite Hx, Hy in E'. apply Qle_bool_iff in E'. congruence.
Qed.

Lemma Qleb_inject (a b : Z) : Qleb (inject_Z a) (inject_Z b) = (a <=? b).
Proof.
  unfold Qleb. destruct (Z.leb_spec a b) as [H | H].
  - apply Qle_bool_iff. by rewrite <- Zle_Qle.
  - destruct (Qle_bool _ _) eqn:E; [| done].
    apply Qle_bool_iff in E. rewrite <- Zle_Qle in E. lia.
Qed.

(** S and V of the vectorised conversion *)
Lemma rgb_to_hsv_value (p : rgb) :
  (val (_rgb_to_hsv p) == inject_Z (max_channel p))%Q.
Proof.
  unfold _rgb_to_hsv. cbn [val snd]. apply Qmax3_q255.
Qed.

Lemma rgb_to_hsv_saturation (p : rgb) :
  0 <= red p → 0 <= green p → 0 <= blue p →
  (sat (_rgb_to_hsv p)
   == if max_channel p =? 0 then 0
      else 255 * inject_Z (max_channel p - min_channel p) / inject_Z (max_channel p))%Q.
Proof.
  intros Hr Hg Hb. unfold _rgb_to_hsv. cbn [sat fst snd].
  pose proof (Qmax3_q255 (red p) (green p) (blue p)) as Hmax.
  pose proof (Qmin3_q255 (red p) (green p) (blue p)) as Hmin.
  fold (max_channel p) in Hmax. fold (min_channel p) in Hmin.
  set (maxc := Qmax3 _ _ _) in *. set (minc := Qmin3 _ _ _) in *.
  assert (HM : 0 <= max_channel p) by (unfold max_channel; lia).
  destruct (Z.eqb_spec (max_channel p) 0) as [E0 | E0].
  - rewrite E0 in Hmax. change (inject_Z 0) with 0%Q in Hmax.
    assert (Hz : (maxc == 0)%Q) by lra.
    apply Qeq_bool_iff in Hz. rewrite Hz. cbn [negb]. ring.
  - assert (Hpos : (0 < inject_Z (max_channel p))%Q).
    { change 0%Q with (inject_Z 0). rewrite <- Zlt_Qlt. lia. }
    destruct (Qeq_bool maxc 0) eqn:Ez.
    { apply Qeq_bool_iff in Ez. lra. }
    cbn [negb]. unfold Z.sub. rewrite inject_Z_plus, inject_Z_opp.
    rewrite <- Hmax, <- Hmin. field. lra.
Qed.

Lemma sat_formula_bounds (M m : Z) :
  0 <= m → m <= M → 0 < M →
  (0 <= 255 * inject_Z (M - m) / inject_Z M)%Q
  ∧ (255 * inject_Z (M - m) / inject_Z M <= 255)%Q.
Proof.
  intros H0 Hm HM.
  assert (Hpos : (0 < inject_Z M)%Q).
  { change 0%Q with (inject_Z 0). rewrite <- Zlt_Qlt. lia. }
  assert (Hd0 : (0 <= inject_Z (M - m))%Q).
  { change 0%Q with (inject_Z 0). rewrite <- Zle_Qle. lia. }
  assert (Hd1 : (inject_Z (M - m) <= inject_Z M)%Q).
  { rewrite <- Zle_Qle. lia. }
  split.
  - apply Qle_shift_div_l; [exact Hpos | lra].
  - apply Qle_shift_div_r; [exact Hpos | lra].
Qed.

Lemma channel_order (p : rgb) :
  min_channel p <= max_channel p
  ∧ (0 <= red p → 0 <= green p → 0 <= blue p → 0 <= min_channel p).
Proof. unfold min_channel, max_channel. lia. Qed.



Lemma Qeq_bool_true (x y : Q) : (x == y)%Q → Qeq_bool x y = true.
Proof. apply Qeq_bool_iff. Qed.

Lemma Qeq_bool_false (x y : Q) : ¬ (x == y)%Q → Qeq_bool x y = false.
Proof.
  intros H. destruct (Qeq_bool x y) eqn:E; [| done].
  apply Qeq_bool_iff in E. done.
Qed.

(** The hue of the two conversions on floats in general position. *)
Lemma hue_agreement (r g b : Q) :
  (Qmin3 r g b < Qmax3 r g b)%Q →
  let maxc := Qmax3 r g b in
  let minc := Qmin3 r g b in
  let deltac := (maxc - minc)%Q in
  let rc := ((maxc - r) / deltac)%Q in
  let gc := ((maxc - g) / deltac)%Q in
  let bc := ((maxc - b) / deltac)%Q in
  let h := 0%Q in
  let h := if Qeq_bool r maxc then (bc - gc)%Q else h in
  let h := if Qeq_bool g maxc then (2 + rc - bc)%Q else h in
  let h := if Qeq_bool b maxc then (4 + gc - rc)%Q else h in
  (Qmod1 (h / 6) == hue (colorsys_rgb_to_hsv r g b))%Q.
Proof.
  intros Hlt. cbv zeta. unfold colorsys_rgb_to_hsv.
  destruct (Qmax3_spec r g b) as (M1 & M2 & M3 & Mw).
  destruct (Qmin3_spec r g b) as (m1 & m2 & m3 & mw).
  set (maxc := Qmax3 r g b) in *. set (minc := Qmin3 r g b) in *.
  rewrite (Qeq_bool_false minc maxc) by lra.
  cbn [hue fst snd].
  assert (Hd : ¬ (maxc - minc == 0)%Q) by lra.
  destruct (Qeq_bool r maxc) eqn:Er; destruct (Qeq_bool g maxc) eqn:Eg;
    destruct (Qeq_bool b maxc) eqn:Eb;
    try apply Qeq_bool_iff in Er; try apply Qeq_bool_iff in Eg;
    try apply Qeq_bool_iff in Eb; try reflexivity.
  - (* all three maximal: then the minimum is maximal too *)
    exfalso. destruct mw as [E | [E | E]]; rewrite E in Hlt; lra.
  - (* r and g maximal: b is the minimum *)
    assert (Hb : (minc == b)%Q).
    { destruct mw as [E | [E | E]]; rewrite E in *; lra. }
    apply Qmod1_comp. rewrite Er, Eg, Hb. field. rewrite <- Hb. lra.
  - (* r and b maximal: g is the minimum *)
    assert (Hg : (minc == g)%Q).
    { destruct mw as [E | [E | E]]; rewrite E in *; lra. }
    assert (E5 : ((4 + (maxc - g) / (maxc - minc) - (maxc - r) / (maxc - minc)) / 6
                  == 5 # 6)%Q).
    { rewrite Er, Hg. field. rewrite <- Hg. lra. }
    assert (E1 : (((maxc - b) / (maxc - minc) - (maxc - g) / (maxc - minc)) / 6
                  == - (1 # 6))%Q).
    { rewrite Eb, Hg. field. rewrite <- Hg. lra. }
    rewrite (Qmod1_comp _ _ E5), (Qmod1_comp _ _ E1).
    rewrite Qmod1_id, Qmod1_neg; lra.
  - (* g and b maximal: r is the minimum *)
    assert (Hr : (minc == r)%Q).
    { destruct mw as [E | [E | E]]; rewrite E in *; lra. }
    apply Qmod1_comp. rewrite Eg, Eb, Hr. field. rewrite <- Hr. lra.
  - (* none maximal: impossible *)
    exfalso. destruct Mw as [E | [E | E]].
    + rewrite (Qeq_bool_true r maxc) in Er by (by rewrite E). discriminate.
    + rewrite (Qeq_bool_true g maxc) in Eg by (by rewrite E). discriminate.
    + rewrite (Qeq_bool_true b maxc) in Eb by (by rewrite E). discriminate.
Qed.

Lemma float_extremes (p : rgb) :
  let r := (inject_Z (red p) / 255)%Q in
  let g := (inject_Z (green p) / 255)%Q in
  let b := (inject_Z (blue p) / 255)%Q in
  (min_channel p < max_channel p → (Qmin3 r g b < Qmax3 r g b)%Q)
  ∧ (min_channel p = max_channel p →
     (Qmin3 r g b == Qmax3 r g b)%Q
     ∧ (r == Qmax3 r g b)%Q ∧ (g == Qmax3 r g b)%Q ∧ (b == Qmax3 r g b)%Q).
Proof.
  cbv zeta.
  pose proof (Qmax3_q255 (red p) (green p) (blue p)) as Hmax.
  pose proof (Qmin3_q255 (red p) (green p) (blue p)) as Hmin.
  fold (max_channel p) in Hmax. fold (min_channel p) in Hmin.
  destruct (Qmax3_spec (inject_Z (red p) / 255) (inject_Z (green p) / 255)
              (inject_Z (blue p) / 255)) as (M1 & M2 & M3 & _).
  destruct (Qmin3_spec (inject_Z (red p) / 255) (inject_Z (green p) / 255)
              (inject_Z (blue p) / 255)) as (m1 & m2 & m3 & _).
  set (maxc := Qmax3 _ _ _) in *. set (minc := Qmin3 _ _ _) in *.
  split.
  - intros Hlt. rewrite Zlt_Qlt in Hlt. lra.
  - intros Heq. rewrite Heq in Hmin.
    assert (E : (minc == maxc)%Q) by lra.
    repeat split; lra.
Qed.


Section WithAnalyzer.

Variable pil_resize_lanczos : PILImage → nat → nat → PILImage.
Variable kmeans_dominant_center : Z → list rgb → exc (Q * Q * Q).
Variable n_clusters : Z.

Lemma scaled_dimension (d m max_size : nat) :
  (0 < m)%nat → (d <= m)%nat →
  let x := (inject_Z (Z.of_nat d)
            * (inject_Z (Z.of_nat max_size) / inject_Z (Z.of_nat m)))%Q in
  (Z.to_nat (py_int x) <= max_size)%nat
  ∧ ((d * max_size < m)%nat → Z.to_nat (py_int x) = 0%nat).
Proof.
  intros Hm Hd x.
  assert (Hmq : (0 < inject_Z (Z.of_nat m))%Q).
  { change 0%Q with (inject_Z 0). rewrite <- Zlt_Qlt. lia. }
  assert (Hdq : (0 <= inject_Z (Z.of_nat d))%Q).
  { change 0%Q with (inject_Z 0). rewrite <- Zle_Qle. lia. }
  assert (Hsq : (0 <= inject_Z (Z.of_nat max_size))%Q).
  { change 0%Q with (inject_Z 0). rewrite <- Zle_Qle. lia. }
  assert (Hdm : (inject_Z (Z.of_nat d) <= inject_Z (Z.of_nat m))%Q).
  { rewrite <- Zle_Qle. lia. }
  assert (Hx : (x == inject_Z (Z.of_nat d * Z.of_nat max_size) / inject_Z (Z.of_nat m))%Q).
  { unfold x. rewrite inject_Z_mult. field. lra. }
  assert (Hx0 : (0 <= x)%Q).
  { rewrite Hx. apply Qle_shift_div_l; [exact Hmq |].
    rewrite Qmult_0_l. change 0%Q with (inject_Z 0). rewrite <- Zle_Qle. lia. }
  rewrite py_int_nonneg by exact Hx0.
  rewrite (Qfloor_comp _ _ Hx), <- Zdiv_Qdiv.
  split.
  - assert (Z.of_nat d * Z.of_nat max_size / Z.of_nat m <= Z.of_nat max_size).
    { apply Z.div_le_upper_bound; [lia | nia]. }
    lia.
  - intros Hsmall. rewrite Z.div_small by lia. reflexivity.
Qed.


Lemma remove_dups_constant (c : rgb) (l : list rgb) :
  Forall (λ x, x = c) l → l ≠ [] → remove_dups l = [c].
Proof.
  induction 1 as [| x l -> Hall IH]; [done |]. intros _.
  cbn [remove_dups].
  destruct (decide_rel elem_of c l) as [Hin | Hout].
  - apply IH. intros ->. by apply not_elem_of_nil in Hin.
  - destruct l as [| y l']; [reflexivity |].
    apply Forall_cons in Hall as [-> _]. exfalso. apply Hout. by left.
Qed.


End WithAnalyzer.


End ColorConversions.

(** ** SkinDetector: the mask and the alpha channel *)

Section SkinMaskFacts.

Import SkinDetector.

Lemma inRange_in (h s v : Z) (r : HSVRange) :
  0 < inRange (h, s, v) r →
  (range_h r).1 <= h <= (range_h r).2 ∧ (range_s r).1 <= s <= (range_s r).2
  ∧ (range_v r).1 <= v <= (range_v r).2.
Proof.
  unfold inRange.
  destruct (Z.leb_spec (range_h r).1 h), (Z.leb_spec h (range_h r).2),
    (Z.leb_spec (range_s r).1 s), (Z.leb_spec s (range_s r).2),
    (Z.leb_spec (range_v r).1 v), (Z.leb_spec v (range_v r).2); cbn; lia.
Qed.

(** X11: [is_skin_color] accepts only colours with hue at most 35,
    saturation in 20..100 and value at least 50 (OpenCV scale). *)
Theorem skin_colour_box (h s v : Z) :
  is_skin_color h s v = true →
  0 <= h <= 35 ∧ 20 <= s <= 100 ∧ 50 <= v <= 255.
Proof.
  unfold is_skin_color. rewrite existsb_exists.
  intros (nr & Hin & Hpos). apply Z.ltb_lt in Hpos. apply inRange_in in Hpos.
  unfold SKIN_RANGES in Hin. cbn [In] in Hin.
  repeat destruct Hin as [<- | Hin]; try done; cbn in Hpos; lia.
Qed.

Section WithDetector.

Variable cv_rgb2hsv : Z * Z * Z → Z * Z * Z.
Variable cv_gaussian_blur : ndarray → Z → ndarray.
Variable _feather_radius : Z.

Local Abbreviation skin_pct := (get_skin_percentage cv_rgb2hsv cv_gaussian_blur _feather_radius).
Local Abbreviation is_photo := (is_photo_layer cv_rgb2hsv cv_gaussian_blur _feather_radius).
Local Abbreviation skin_mask := (detect_skin_mask cv_rgb2hsv cv_gaussian_blur _feather_radius).
Local Abbreviation skin_px := (is_skin_pixel cv_rgb2hsv).

Lemma combined_mask_binary (px : list Z) :
  combined_mask_at cv_rgb2hsv px = if skin_px px then 255 else 0.
Proof.
  pose proof (combined_mask_skin cv_rgb2hsv px) as Hgt.
  unfold combined_mask_at in *.
  destruct (fold_max_ranges (cv_rgb2hsv (chan 0 px, chan 1 px, chan 2 px))
              SKIN_RANGES 0) as [Hc _]; [by left |].
  cbv zeta in Hc. rewrite <- Hgt.
  destruct Hc as [-> | ->]; reflexivity.
Qed.

(** X12: without feathering [detect_skin_mask] returns, for a non-empty
    three- or four-channel image, a mask of the image's height and width
    whose entries are 255 at skin pixels and 0 elsewhere; a grayscale image
    gives an all-zero mask of its shape; a missing or empty image, or
    another channel count, gives the 1x1 zero mask. *)
Theorem unfeathered_mask_shape (image : option ndarray) (radius : Z) :
  radius <= 0 →
  match image with
  | Some (Arr3 h w c data) =>
      if (h * w * c =? 0)%nat then skin_mask image (Some radius) = zeros2 1 1
      else if (c =? 3)%nat || (c =? 4)%nat then
        skin_mask image (Some radius)
        = Arr2 h w ((λ px, if skin_px px then 255 else 0) <$> data)
        ∧ (arr_wf (Arr3 h w c data) → arr_wf (skin_mask image (Some radius)))
      else skin_mask image (Some radius) = zeros2 1 1
  | Some (Arr2 h w data) =>
      skin_mask image (Some radius) = if (h * w =? 0)%nat then zeros2 1 1 else zeros2 h w
  | None => skin_mask image (Some radius) = zeros2 1 1
  end.
Proof.
  intros Hr. destruct image as [[h w d | h w c d] |]; unfold detect_skin_mask; cbn [arr_size]; unfold default, id; cbv zeta.
  - destruct (h * w =? 0)%nat; reflexivity.
  - destruct (h * w * c =? 0)%nat; [reflexivity |].
    assert (Hnb : (radius >? 0) = false) by (rewrite Z.gtb_ltb; apply Z.ltb_ge; lia).
    destruct (Nat.eqb_spec c 3) as [-> | H3]; [| destruct (Nat.eqb_spec c 4) as [-> | H4]];
      cbn [orb Nat.eqb].
    + rewrite Hnb.
      assert (E : combined_mask_at cv_rgb2hsv <$> d
                  = (λ px, if skin_px px then 255 else 0) <$> d).
      { apply list_fmap_ext. intros i x _. apply combined_mask_binary. }
      rewrite E. split; [reflexivity |].
      intros [Hlen _]. cbn [arr_wf]. by rewrite length_fmap.
    + rewrite Hnb.
      assert (E : combined_mask_at cv_rgb2hsv <$> d
                  = (λ px, if skin_px px then 255 else 0) <$> d).
      { apply list_fmap_ext. intros i x _. apply combined_mask_binary. }
      rewrite E. split; [reflexivity |].
      intros [Hlen _]. cbn [arr_wf]. by rewrite length_fmap.
    + destruct (Nat.eqb_spec c 4); [done |]. destruct (Nat.eqb_spec c 3); [done |].
      reflexivity.
  - reflexivity.
Qed.

Lemma skin_px_drop_alpha (px : list Z) : skin_px (take 3 px) = skin_px px.
Proof.
  unfold is_skin_pixel, chan.
  by destruct px as [| r [| g [| b rest]]].
Qed.

Lemma filter_length_ext {A} (f g : A → bool) (l : list A) :
  Forall (λ x, f x = g x) l →
  length (List.filter f l) = length (List.filter g l).
Proof.
  induction 1 as [| x l Hx _ IH]; [done |].
  cbn [List.filter]. rewrite Hx. destruct (g x); cbn [length]; by rewrite IH.
Qed.

Lemma filter_length_all {A} (f : A → bool) (l : list A) :
  Forall (λ x, f x = true) l → length (List.filter f l) = length l.
Proof.
  induction 1 as [| x l Hx _ IH]; [done |].
  cbn [List.filter]. rewrite Hx. cbn [length]. by rewrite IH.
Qed.

Lemma filter_length_none {A} (f : A → bool) (l : list A) :
  Forall (λ x, f x = false) l → length (List.filter f l) = 0%nat.
Proof.
  induction 1 as [| x l Hx _ IH]; [done |].
  cbn [List.filter]. by rewrite Hx.
Qed.

Lemma filter_length_fmap {A B} (f : B → bool) (g : A → B) (l : list A) :
  length (List.filter f (g <$> l)) = length (List.filter (λ x, f (g x)) l).
Proof.
  induction l as [| x l IH]; [done |].
  rewrite fmap_cons. cbn [List.filter]. destruct (f (g x)); cbn [length]; by rewrite IH.
Qed.

(** X13: an RGBA image whose pixels are all visible (alpha above 127) has
    the skin percentage of the RGB image obtained by dropping alpha; one
    with no visible pixel has skin percentage 0 and is not a photo layer
    for any positive threshold. *)
Theorem skin_percentage_alpha (h w : nat) (data : list (list Z)) :
  (h * w)%nat ≠ 0%nat → length data = (h * w)%nat →
  (Forall (λ px, chan 3 px > 127) data →
   skin_pct (Some (Arr3 h w 4 data))
   = skin_pct (Some (Arr3 h w 3 (take 3 <$> data))))
  ∧ (Forall (λ px, chan 3 px <= 127) data →
     skin_pct (Some (Arr3 h w 4 data)) = 0%Q
     ∧ ∀ t, (0 < t)%Q → is_photo (Some (Arr3 h w 4 data)) (Some t) = false).
Proof.
  intros Hsz Hlen.
  assert (H4 : (h * w * 4)%nat ≠ 0%nat) by (intros E; apply Hsz; lia).
  assert (H3 : (h * w * 3)%nat ≠ 0%nat) by (intros E; apply Hsz; lia).
  split.
  - intros Hvis.
    rewrite skin_percentage_rgba, skin_percentage_rgb by assumption. cbv zeta.
    assert (Hall : Forall (λ px, is_visible_pixel px = true) data).
    { eapply Forall_impl; [exact Hvis |]. intros px Hpx. cbv beta in Hpx.
      unfold is_visible_pixel. apply Z.gtb_lt. lia. }
    rewrite (filter_length_all _ _ Hall), Hlen.
    destruct (Nat.eqb_spec (h * w) 0) as [? | _]; [done |].
    f_equal. rewrite filter_length_fmap. apply filter_length_ext.
    eapply Forall_impl; [exact Hall |]. intros px Hpx. cbv beta.
    by rewrite Hpx, andb_true_r, skin_px_drop_alpha.
  - intros Hhid.
    assert (Hnone : Forall (λ px, is_visible_pixel px = false) data).
    { eapply Forall_impl; [exact Hhid |]. intros px Hpx. cbv beta in Hpx.
      unfold is_visible_pixel. rewrite Z.gtb_ltb. apply Z.ltb_ge. lia. }
    assert (Hpct : skin_pct (Some (Arr3 h w 4 data)) = 0%Q).
    { rewrite skin_percentage_rgba by assumption. cbv zeta.
      by rewrite (filter_length_none _ _ Hnone). }
    split; [exact Hpct |].
    intros t Ht. unfold is_photo_layer. cbn [arr_size]. unfold default, id.
    destruct (Nat.eqb_spec (h * w * 4) 0) as [? | _]; [done |].
    rewrite Hpct. unfold Qleb.
    destruct (Qle_bool t 0) eqn:E; [| done].
    apply Qle_bool_iff in E. exfalso. apply (Qlt_not_le _ _ Ht E).
Qed.

(** X14: an image that is a photo layer for a threshold is a photo layer
    for every lower threshold. *)
Theorem is_photo_layer_threshold_antitone (image : option ndarray) (t1 t2 : Q) :
  (t1 <= t2)%Q →
  is_photo image (Some t2) = true → is_photo image (Some t1) = true.
Proof.
  intros Hle. unfold is_photo_layer, default, id.
  destruct image as [img |]; [| done].
  destruct (arr_size img =? 0)%nat; [done |].
  unfold Qleb. rewrite !Qle_bool_iff. intros H. by apply Qle_trans with t2.
Qed.

End WithDetector.

End SkinMaskFacts.

(** ** file_utils: the image cache *)

Section DictFacts.

Context {V : Type}.

Lemma dict_get_None (key : string) (d : dict V) :
  dict_get key d = None ↔ key ∉ dict_keys d.
Proof.
  unfold dict_get, dict_keys. induction d as [| [k v] d IH]; cbn.
  - split; [intros _; apply not_elem_of_nil | done].
  - destruct (String.eqb_spec k key) as [-> | Hne]; cbn.
    + split; [done |]. intros H. exfalso. apply H. by left.
    + rewrite IH. rewrite not_elem_of_cons. split; [by intros ? | by intros [_ ?]].
Qed.

Lemma dict_set_absent (key : string) (v : V) (d : dict V) :
  key ∉ dict_keys d → dict_set key v d = d ++ [(key, v)].
Proof.
  unfold dict_keys. induction d as [| [k x] d IH]; cbn; [done |].
  intros Hk. apply not_elem_of_cons in Hk as [Hne Hk].
  destruct (String.eqb_spec k key) as [-> | _]; [done |].
  by rewrite IH.
Qed.

Lemma dict_get_app_absent (key : string) (v : V) (d : dict V) :
  key ∉ dict_keys d → dict_get key (d ++ [(key, v)]) = Some v.
Proof.
  unfold dict_get, dict_keys. induction d as [| [k x] d IH]; cbn.
  - intros _. by rewrite String.eqb_refl.
  - intros Hk. apply not_elem_of_cons in Hk as [Hne Hk].
    destruct (String.eqb_spec k key) as [-> | _]; [done |].
    by apply IH.
Qed.

Lemma dict_keys_app (d1 d2 : dict V) :
  dict_keys (d1 ++ d2) = dict_keys d1 ++ dict_keys d2.
Proof. unfold dict_keys. apply fmap_app. Qed.

Lemma dict_keys_drop (n : nat) (d : dict V) :
  dict_keys (drop n d) = drop n (dict_keys d).
Proof. unfold dict_keys. apply fmap_drop. Qed.

Lemma NoDup_drop {A} (n : nat) (l : list A) : NoDup l → NoDup (drop n l).
Proof.
  intros H. rewrite <- (take_drop n l) in H. by apply NoDup_app in H as (_ & _ & ?).
Qed.

Lemma not_elem_of_drop {A} (x : A) (n : nat) (l : list A) : x ∉ l → x ∉ drop n l.
Proof.
  intros H Hin. apply H. rewrite <- (take_drop n l). apply elem_of_app. by right.
Qed.

Lemma NoDup_snoc {A} (x : A) (l : list A) : NoDup l → x ∉ l → NoDup (l ++ [x]).
Proof.
  intros Hl Hx. apply NoDup_app. split; [done |]. split.
  - intros y Hy Hy'. apply list_elem_of_singleton in Hy'. by subst.
  - apply NoDup_singleton.
Qed.

End DictFacts.

Section ImageCache.

Import FileUtils.

Variable path_exists : string → bool.
Variable decode_image : string → exc ndarray.

Local Abbreviation load := (load_image_cv2 path_exists decode_image).

(** X20: the image cache of [load_image_cv2].  It never grows beyond 50
    entries and keeps its keys distinct; with [use_cache=False] it is
    neither read nor written; a cached path is served from the cache
    without looking at the file, even when the file no longer exists; a
    successful load of an uncached path stores the image under the path
    (after dropping the 25 oldest entries when 50 are held), so that the
    next cached load returns it; a failed load leaves the cache as it was. *)
Theorem image_cache_behaviour (cache : dict ndarray) (file_path : string)
    (use_cache : bool) :
  let r := load cache file_path use_cache in
  (NoDup (dict_keys cache) → (length cache <= 50)%nat →
   NoDup (dict_keys r.2) ∧ (length r.2 <= 50)%nat)
  ∧ (use_cache = false →
     r.2 = cache
     ∧ r.1 = if path_exists file_path then decode_image file_path
             else raise "ValueError" ("File does not exist: " +:+ file_path))
  ∧ (∀ img, use_cache = true → dict_get file_path cache = Some img →
     r = (ret img, cache))
  ∧ (∀ img, use_cache = true → dict_get file_path cache = None → r.1 = ret img →
     r.2 = (if (50 <=? length cache)%nat then drop 25 cache else cache)
           ++ [(file_path, img)]
     ∧ load r.2 file_path true = (ret img, r.2))
  ∧ (∀ e, r.1 = inl e → r.2 = cache).
Proof.
  cbv zeta. unfold load_image_cv2, _CACHE_MAX_SIZE.
  change (50 / 2)%nat with 25%nat.
  assert (Hkeep : ∀ c : dict ndarray, file_path ∉ dict_keys c →
            file_path ∉ dict_keys (if (50 <=? length c)%nat then drop 25 c else c)).
  { intros c Hc. destruct (50 <=? length c)%nat; [| done].
    rewrite dict_keys_drop. by apply not_elem_of_drop. }
  split; [| split; [| split; [| split]]].
  - intros Hnd Hlen.
    destruct (if use_cache then dict_get file_path cache else None) as [img |] eqn:Hget;
      [done |].
    destruct (path_exists file_path); cbn [negb]; [| done].
    destruct (decode_image file_path) as [e | result]; [done |].
    destruct use_cache; [| done]. cbn [snd].
    apply dict_get_None in Hget.
    rewrite dict_set_absent by by apply Hkeep.
    split.
    + rewrite dict_keys_app. apply NoDup_snoc; [| by apply Hkeep].
      destruct (50 <=? length cache)%nat; [| done].
      rewrite dict_keys_drop. by apply NoDup_drop.
    + rewrite length_app. cbn [length].
      destruct (Nat.leb_spec 50 (length cache)); [rewrite length_drop |]; lia.
  - intros ->. destruct (path_exists file_path); cbn [negb fst snd]; [| done].
    by destruct (decode_image file_path).
  - intros img -> Hget. by rewrite Hget.
  - intros img -> Hget. rewrite Hget.
    destruct (path_exists file_path); cbn [negb fst snd]; [| done].
    destruct (decode_image file_path) as [e | result]; cbn [fst snd]; [done |].
    intros [= ->]. apply dict_get_None in Hget.
    rewrite dict_set_absent by by apply Hkeep.
    split; [done |].
    by rewrite dict_get_app_absent by by apply Hkeep.
  - intros e.
    destruct (if use_cache then dict_get file_path cache else None) as [img |];
      [done |].
    destruct (path_exists file_path); cbn [negb fst snd]; [| done].
    destruct (decode_image file_path) as [e' | result]; cbn [fst snd]; [done |].
    by destruct use_cache.
Qed.

End ImageCache.

(** ** PerspectiveTransformer: the constructor, single products and batches *)

Section TransformerSingle.

Import PointValidator PerspectiveTransformer.

Variable path_exists : Path → bool.
Variable load_image_cv2 : Path → exc (option ndarray).
Variable Matrix : Type.
Variable cv_getPerspectiveTransform : list (Q * Q) → list (Q * Q) → exc Matrix.
Variable cv_warpPerspective : ndarray → Matrix → nat → nat → exc ndarray.
Variable _create_rounded_mask : nat → nat → Z → ndarray.
Variable cv_blur_alpha : ndarray → ndarray.
Variable np_blend_rgb : ndarray → ndarray → Q → ndarray.

Local Abbreviation init' := (init path_exists load_image_cv2).
Local Abbreviation transform_multiple' :=
  (transform_multiple path_exists load_image_cv2 Matrix cv_getPerspectiveTransform
     cv_warpPerspective _create_rounded_mask cv_blur_alpha np_blend_rgb).
Local Abbreviation transform_product' :=
  (transform_product path_exists load_image_cv2 Matrix cv_getPerspectiveTransform
     cv_warpPerspective _create_rounded_mask cv_blur_alpha np_blend_rgb).
Local Abbreviation warp_to_points :=
  (_warp_product_to_points Matrix cv_getPerspectiveTransform cv_warpPerspective
     _create_rounded_mask cv_blur_alpha).
Local Abbreviation warp_product :=
  (_warp_product Matrix cv_getPerspectiveTransform cv_warpPerspective
     _create_rounded_mask cv_blur_alpha).
Local Abbreviation color_blend := (_apply_color_blend np_blend_rgb).

(** *** The constructor *)

(** A point list that [validate_points] lets through. *)
Lemma validate_points_ok (ps : list point) (w h : Z) :
  validate_points ps w h = ret tt
  ↔ length ps = 4%nat ∧ is_self_intersecting ps = false.
Proof.
  unfold validate_points.
  destruct (Nat.eqb_spec (length ps) 4) as [Hlen | Hlen]; cbn [negb].
  - destruct (is_self_intersecting ps); split; try done.
    + by intros [_ ?].
  - split; [done | by intros [? _]].
Qed.

Lemma validate_all_failed (e : PyExc) (l : list (list point)) (w h : nat) :
  foldl (λ acc ps, match acc with
                   | inl e => inl e
                   | inr _ => validate_points ps (Z.of_nat w) (Z.of_nat h)
                   end) (inl e) l = inl e.
Proof. induction l as [| ps l IH]; [done | exact IH]. Qed.

Lemma validate_all_ok (l : list (list point)) (w h : nat) :
  (∃ u, validate_all l w h = inr u)
  ↔ Forall (λ ps, length ps = 4%nat ∧ is_self_intersecting ps = false) l.
Proof.
  unfold validate_all. unfold ret.
  assert (Hgen : ∀ u0 : unit,
    (∃ u, foldl (λ acc ps, match acc with
                           | inl e => inl e
                           | inr _ => validate_points ps (Z.of_nat w) (Z.of_nat h)
                           end) (inr u0) l = inr u)
    ↔ Forall (λ ps, length ps = 4%nat ∧ is_self_intersecting ps = false) l).
  { induction l as [| ps l IH]; intros u0.
    - split; [constructor | by exists u0].
    - cbn [foldl].
      destruct (validate_points ps (Z.of_nat w) (Z.of_nat h)) as [e | u1] eqn:Hv.
      + rewrite validate_all_failed. split.
        * by intros [u ?].
        * intros HF. apply Forall_cons in HF as [Hps _].
          apply (validate_points_ok ps (Z.of_nat w) (Z.of_nat h)) in Hps.
          rewrite Hps in Hv. discriminate.
      + rewrite (IH u1). destruct u1.
        apply validate_points_ok in Hv. split.
        * intros HF. by constructor.
        * intros HF. by apply Forall_cons in HF as [_ ?]. }
  apply Hgen.
Qed.

(** X15: [__init__] succeeds exactly when the template file exists, the
    loader returns an image, and every area in force (the point sets when
    a non-empty list is given, [corner_points] otherwise) has four points
    and no crossing opposite edges; a missing template is reported as
    [FileNotFoundError] before anything else is looked at, and with a
    non-empty [point_sets] the argument [corner_points] has no influence. *)
Theorem init_succeeds_iff (template_path : Path) (corner_points : list point)
    (corner_radius : Z) (blend_strength : Q)
    (point_sets : option (list (list point))) :
  let areas := match point_sets with
               | Some (ps0 :: rest) => ps0 :: rest
               | _ => [corner_points]
               end in
  ((∃ T, init' template_path corner_points corner_radius blend_strength point_sets
         = inr T)
   ↔ path_exists template_path = true
     ∧ (∃ t, load_image_cv2 template_path = inr (Some t))
     ∧ Forall (λ ps, length ps = 4%nat ∧ is_self_intersecting ps = false) areas)
  ∧ (path_exists template_path = false →
     init' template_path corner_points corner_radius blend_strength point_sets
     = raise "FileNotFoundError" ("Template not found: " +:+ template_path))
  ∧ (∀ (ps0 : list point) (rest : list (list point)) (other : list point),
       point_sets = Some (ps0 :: rest) →
       init' template_path other corner_radius blend_strength point_sets
       = init' template_path corner_points corner_radius blend_strength point_sets).
Proof.
  intros areas. split; [| split].
  - unfold init.
    destruct (path_exists template_path); cbn [negb]; [| split; [by intros [T ?] | by intros [? _]]].
    destruct (load_image_cv2 template_path) as [e | [t |]].
    + split; [by intros [T ?] | by intros (_ & [t ?] & _)].
    + assert (Hareas : (∃ u, validate_all areas (arr_width t) (arr_height t) = inr u)
                       ↔ Forall (λ ps, length ps = 4%nat
                                       ∧ is_self_intersecting ps = false) areas)
        by apply validate_all_ok.
      destruct point_sets as [[| ps0 rest] |]; subst areas.
      * rewrite <- Hareas. unfold validate_all. cbn [foldl]. unfold ret.
        destruct (validate_points corner_points _ _) as [e | u]; split.
        -- by intros [T ?].
        -- by intros (_ & _ & [u ?]).
        -- intros _. split; [done |]. split; [by exists t | by exists u].
        -- intros _. by eexists.
      * rewrite <- Hareas.
        destruct (validate_all (ps0 :: rest) _ _) as [e | u]; split.
        -- by intros [T ?].
        -- by intros (_ & _ & [u ?]).
        -- intros _. split; [done |]. split; [by exists t | by exists u].
        -- intros _. by eexists.
      * rewrite <- Hareas. unfold validate_all. cbn [foldl]. unfold ret.
        destruct (validate_points corner_points _ _) as [e | u]; split.
        -- by intros [T ?].
        -- by intros (_ & _ & [u ?]).
        -- intros _. split; [done |]. split; [by exists t | by exists u].
        -- intros _. by eexists.
    + split; [by intros [T ?] | by intros (_ & [t ?] & _)].
  - intros Hmissing. unfold init. by rewrite Hmissing.
  - intros ps0 rest other ->. unfold init.
    destruct (negb (path_exists template_path)); [done |].
    by destruct (load_image_cv2 template_path) as [e | [t |]].
Qed.

(** X16: a transformer that [__init__] returns holds the loaded template
    with its height and width, at least one area, [corner_points] equal to
    the first area, only areas of four points without crossing opposite
    edges, and the radius and blend strength it was given; the areas are
    the given point sets when that list is non-empty and the single
    [corner_points] otherwise. *)
Theorem init_valid_areas (template_path : Path) (corner_points : list point)
    (corner_radius : Z) (blend_strength : Q)
    (point_sets : option (list (list point))) (T : Transformer) :
  init' template_path corner_points corner_radius blend_strength point_sets = inr T →
  load_image_cv2 template_path = inr (Some (_template T))
  ∧ _template_height T = arr_height (_template T)
  ∧ _template_width T = arr_width (_template T)
  ∧ _point_sets T = match point_sets with
                    | Some (ps0 :: rest) => ps0 :: rest
                    | _ => [corner_points]
                    end
  ∧ head (_point_sets T) = Some (PerspectiveTransformer.corner_points T)
  ∧ Forall (λ ps, length ps = 4%nat ∧ is_self_intersecting ps = false) (_point_sets T)
  ∧ _corner_radius T = corner_radius ∧ _blend_strength T = blend_strength.
Proof.
  intros Hinit. unfold init in Hinit.
  destruct (negb (path_exists template_path)); [discriminate |].
  destruct (load_image_cv2 template_path) as [e | [t |]]; try discriminate.
  destruct point_sets as [[| ps0 rest] |].
  - destruct (validate_points corner_points _ _) as [e | []] eqn:Hv; [discriminate |].
    apply validate_points_ok in Hv.
    injection Hinit as <-. cbn. repeat split; try done. by constructor.
  - destruct (validate_all (ps0 :: rest) _ _) as [e | u] eqn:Hv; [discriminate |].
    assert (HF : Forall (λ ps, length ps = 4%nat ∧ is_self_intersecting ps = false)
                   (ps0 :: rest)).
    { eapply validate_all_ok. exists u. exact Hv. }
    injection Hinit as <-. cbn. repeat split; done.
  - destruct (validate_points corner_points _ _) as [e | []] eqn:Hv; [discriminate |].
    apply validate_points_ok in Hv.
    injection Hinit as <-. cbn. repeat split; try done. by constructor.
Qed.

(** *** One product on a transformer with one area *)

Lemma warp_product_to_dst (self : Transformer) (product : ndarray) :
  warp_product self product = warp_to_points self product (_dst_points self).
Proof. reflexivity. Qed.

Lemma color_blend_off (warped t : ndarray) (strength : Q) :
  (if Qltb 0 strength then color_blend warped t strength else warped)
  = color_blend warped t strength.
Proof.
  unfold _apply_color_blend, Qltb, Qleb.
  by destruct (Qle_bool strength 0).
Qed.

Lemma template_bgra_composite (self : Transformer) (t : ndarray)
    (h w : nat) (data : list (list Z)) :
  template_bgra self = inr t →
  _composite_with_alpha np_blend_rgb (_template self) (Arr3 h w 4 data)
    (_blend_strength self)
  = ret (composite_onto (color_blend (Arr3 h w 4 data) t (_blend_strength self)) t).
Proof.
  unfold template_bgra, _composite_with_alpha.
  destruct (_template self) as [? ? ? | th tw tc tdata]; [discriminate |].
  destruct tc as [| [| [| [| tc]]]]; intros [= <-]; reflexivity.
Qed.


(** *** Compositing *)

Lemma to_uint8_Z (z : Z) : to_uint8 (inject_Z z) = z.
Proof.
  unfold to_uint8, py_int.
  destruct (Qltb (inject_Z z) 0); [apply Qceiling_Z | apply Qfloor_Z].
Qed.

Lemma to_uint8_comp (x y : Q) : (x == y)%Q → to_uint8 x = to_uint8 y.
Proof.
  intros E. unfold to_uint8, py_int.
  rewrite (Qltb_comp x y 0 0 E (Qeq_refl 0)).
  by rewrite (Qceiling_comp _ _ E), (Qfloor_comp _ _ E).
Qed.

Lemma composite_pixel_alpha (warped result : list Z) :
  chan 3 (composite_pixel warped result) = chan 3 result.
Proof.
  unfold composite_pixel, chan. cbn [app nth].
  revert result. intros result.
  destruct result as [| r0 [| r1 [| r2 rest]]]; reflexivity.
Qed.

Lemma mix_bounds (a x y : Z) :
  0 <= a <= 255 → 0 <= x → 0 <= y →
  let alpha := (inject_Z a / 255)%Q in
  0 <= to_uint8 (alpha * inject_Z x + (1 - alpha) * inject_Z y) <= Z.max x y.
Proof.
  intros Ha Hx Hy alpha.
  assert (Ha0 : (0 <= alpha)%Q).
  { unfold alpha. apply Qle_shift_div_l; [reflexivity |].
    rewrite Qmult_0_l. change 0%Q with (inject_Z 0). rewrite <- Zle_Qle. lia. }
  assert (Ha1 : (alpha <= 1)%Q).
  { unfold alpha. apply Qle_shift_div_r; [reflexivity |].
    rewrite Qmult_1_l. change 255%Q with (inject_Z 255). rewrite <- Zle_Qle. lia. }
  assert (Hxq : (0 <= inject_Z x)%Q)
    by (change 0%Q with (inject_Z 0); rewrite <- Zle_Qle; lia).
  assert (Hyq : (0 <= inject_Z y)%Q)
    by (change 0%Q with (inject_Z 0); rewrite <- Zle_Qle; lia).
  assert (Hxm : (inject_Z x <= inject_Z (Z.max x y))%Q) by (rewrite <- Zle_Qle; lia).
  assert (Hym : (inject_Z y <= inject_Z (Z.max x y))%Q) by (rewrite <- Zle_Qle; lia).
  clearbody alpha.
  set (v := (alpha * inject_Z x + (1 - alpha) * inject_Z y)%Q).
  assert (Hv0 : (0 <= v)%Q) by (unfold v; nra).
  assert (Hv1 : (v <= inject_Z (Z.max x y))%Q) by (unfold v; nra).
  unfold to_uint8. rewrite py_int_nonneg by exact Hv0.
  split.
  - apply Qfloor_resp_le in Hv0. exact Hv0.
  - apply Qfloor_resp_le in Hv1. by rewrite Qfloor_Z in Hv1.
Qed.


(** *** Batches of files *)

Section BatchFacts.

Variable path_suffix : Path → string.
Variable path_stem : Path → string.
Variable path_join : Path → string → Path.
Variable str_lower : string → string.
Variable save_png : ndarray → Path → exc unit.
Variable save_jpeg : ndarray → Path → exc unit.

Local Abbreviation write_product' :=
  (write_product path_exists load_image_cv2 Matrix cv_getPerspectiveTransform
     cv_warpPerspective _create_rounded_mask cv_blur_alpha np_blend_rgb).
Local Abbreviation files_loop' :=
  (files_loop path_exists load_image_cv2 Matrix cv_getPerspectiveTransform
     cv_warpPerspective _create_rounded_mask cv_blur_alpha np_blend_rgb).
Local Abbreviation transform_files' :=
  (transform_files path_exists load_image_cv2 Matrix cv_getPerspectiveTransform
     cv_warpPerspective _create_rounded_mask cv_blur_alpha np_blend_rgb).

Variable self : Transformer.
Variable output_folder : Path.

Local Abbreviation outcome :=
  (λ f, write_product' self path_suffix path_stem path_join str_lower
          save_png save_jpeg f output_folder).
Local Abbreviation written :=
  (λ f, match outcome f with inr _ => true | inl _ => false end).
Local Abbreviation failure :=
  (λ f, match outcome f with
        | inl e => Some (path_name f, exc_type e +:+ ": " +:+ exc_msg e)
        | inr _ => None
        end).

Lemma files_loop_state (total : nat) (has_callback : bool) (files : list Path)
    (i : nat) (st : BatchState) :
  let st' := files_loop' self path_suffix path_stem path_join str_lower
               save_png save_jpeg output_folder total has_callback i files st in
  bs_processed st' = (bs_processed st + length (List.filter written files))%nat
  ∧ bs_errors st' = bs_errors st ++ omap failure files
  ∧ bs_progress st'
    = bs_progress st
      ++ (if has_callback
          then (λ j, ((j + 1)%nat, total)) <$> seq i (length files)
          else []).
Proof.
  revert i st. induction files as [| f files IH]; intros i st; cbn [files_loop].
  - destruct has_callback; cbn; by rewrite Nat.add_0_r, !app_nil_r.
  - destruct (IH (S i) (files_step path_exists load_image_cv2 Matrix
                          cv_getPerspectiveTransform cv_warpPerspective
                          _create_rounded_mask cv_blur_alpha np_blend_rgb self
                          path_suffix path_stem path_join str_lower save_png
                          save_jpeg output_folder total has_callback st i f))
      as (IH1 & IH2 & IH3).
    cbv zeta in *. rewrite IH1, IH2, IH3. clear IH1 IH2 IH3.
    unfold files_step. cbn [List.filter omap length seq fmap list_fmap].
    destruct (outcome f) as [e | u] eqn:E; destruct has_callback; cbn;
      rewrite ?E; cbn; rewrite <- ?app_assoc; repeat split; try reflexivity; lia.
Qed.


End BatchFacts.

End TransformerSingle.

(** ** PSDProcessor: layers, placing and the document cache *)

Section CollectFacts.

Import PSDProcessor.

Variable str_lower : string → string.
Variable cv_rgb2hsv : Z * Z * Z → Z * Z * Z.
Variable cv_gaussian_blur : ndarray → Z → ndarray.
Variable _render_layer : Layer → Z → Z → option ndarray.

Variable width height : Z.
Variable product_layer : option Layer.

Local Abbreviation one_step :=
  (collect_step str_lower cv_rgb2hsv cv_gaussian_blur _render_layer width height
     product_layer).
Local Abbreviation result_of :=
  (render_result str_lower cv_rgb2hsv cv_gaussian_blur _render_layer width height).
Local Abbreviation is_product :=
  (λ l : Layer, layer_visible l && same_layer l product_layer).
Local Abbreviation rendered :=
  (λ ls : list Layer,
     result_of <$> List.filter
       (λ l, layer_visible l && negb (same_layer l product_layer)
             && bool_decide (is_Some (_render_layer l width height))) ls).
Local Abbreviation failed :=
  (λ ls : list Layer,
     result_of <$> List.filter
       (λ l, layer_visible l && negb (same_layer l product_layer)
             && negb (bool_decide (is_Some (_render_layer l width height)))) ls).

(** Once the product layer has been met, rendered layers go to
    [after_product]. *)
Lemma collect_after (ls : list Layer) (st : Collected) :
  product_found st = true →
  foldl one_step st ls
  = mkCollected (before_product st) (after_product st ++ rendered ls)
                (failed_layers st ++ failed ls) true.
Proof.
  revert st. induction ls as [| l ls IH]; intros st Hfound.
  - cbn. rewrite !app_nil_r. destruct st; cbn in *; by subst.
  - cbn [foldl]. unfold collect_step at 2, render_result.
    cbn [List.filter].
    destruct (layer_visible l); cbn [negb andb]; [| by apply IH].
    destruct (same_layer l product_layer); cbn [negb andb].
    + rewrite IH by done. reflexivity.
    + destruct (_render_layer l width height) as [img |] eqn:Hr.
      * rewrite bool_decide_eq_true_2 by eauto. rewrite Hfound. cbn [negb].
        rewrite IH by done. cbn [before_product after_product failed_layers].
        rewrite fmap_cons, <- app_assoc. unfold render_result at 1. rewrite Hr.
        rewrite bool_decide_eq_true_2 by eauto. reflexivity.
      * rewrite bool_decide_eq_false_2 by (intros [? ?]; done). cbn [negb].
        rewrite IH by done. cbn [before_product after_product failed_layers].
        rewrite fmap_cons, <- app_assoc. unfold render_result at 2. rewrite Hr.
        rewrite bool_decide_eq_false_2 by (intros [? ?]; done). reflexivity.
Qed.

(** Until the product layer is met, rendered layers go to
    [before_product]. *)
Lemma collect_before (ls : list Layer) (st : Collected) :
  product_found st = false →
  Forall (λ l, is_product l = false) ls →
  foldl one_step st ls
  = mkCollected (before_product st ++ rendered ls) (after_product st)
                (failed_layers st ++ failed ls) false.
Proof.
  revert st. induction ls as [| l ls IH]; intros st Hfound Hnone.
  - cbn. rewrite !app_nil_r. destruct st; cbn in *; by subst.
  - apply Forall_cons in Hnone as [Hl Hnone].
    cbn [foldl]. unfold collect_step at 2, render_result.
    cbn [List.filter]. cbv beta in Hl.
    destruct (layer_visible l); cbn [negb andb] in *; [| by apply IH].
    rewrite Hl. cbn [negb andb].
    destruct (_render_layer l width height) as [img |] eqn:Hr.
    + rewrite bool_decide_eq_true_2 by eauto. rewrite Hfound. cbn [negb].
      rewrite IH by done. cbn [before_product after_product failed_layers].
      rewrite fmap_cons, <- app_assoc. unfold render_result at 1. rewrite Hr.
      rewrite bool_decide_eq_true_2 by eauto. reflexivity.
    + rewrite bool_decide_eq_false_2 by (intros [? ?]; done). cbn [negb].
      rewrite IH by done. cbn [before_product after_product failed_layers].
      rewrite fmap_cons, <- app_assoc. unfold render_result at 2. rewrite Hr.
      rewrite bool_decide_eq_false_2 by (intros [? ?]; done). reflexivity.
Qed.

(** X21: [_collect_layer_render_results] splits the visible layers other
    than the product layer by position: with the first visible occurrence
    of the product layer at some place of the document, the layers before
    it that render go to [before_product] and those after it to
    [after_product], each in document order, and the layers that fail to
    render go to [failed_layers]; when no visible layer is the product
    layer (none was found, or it is hidden) every rendered layer goes to
    [before_product] and [after_product] is empty.  Hidden layers appear
    nowhere. *)
Theorem collect_partition (psd : list Layer) :
  let c := _collect_layer_render_results str_lower cv_rgb2hsv cv_gaussian_blur
             _render_layer psd width height product_layer in
  (Forall (λ l, is_product l = false) psd →
   before_product c = rendered psd ∧ after_product c = []
   ∧ failed_layers c = failed psd ∧ product_found c = false)
  ∧ (∀ (pre post : list Layer) (p : Layer),
       psd = pre ++ p :: post →
       is_product p = true → Forall (λ l, is_product l = false) pre →
       before_product c = rendered pre ∧ after_product c = rendered post
       ∧ failed_layers c = failed pre ++ failed post ∧ product_found c = true).
Proof.
  cbv zeta. unfold _collect_layer_render_results. split.
  - intros Hnone. rewrite collect_before by done. cbn. done.
  - intros pre post p -> Hp Hpre.
    assert (Hc : foldl one_step (mkCollected [] [] [] false) (pre ++ p :: post)
                 = mkCollected (rendered pre) (rendered post)
                               (failed pre ++ failed post) true).
    { rewrite foldl_app.
      rewrite (collect_before pre (mkCollected [] [] [] false) eq_refl Hpre).
      cbn [foldl]. unfold collect_step at 2.
      cbn [before_product after_product failed_layers product_found app].
      apply andb_true_iff in Hp as [Hvis Hsame]. rewrite Hvis, Hsame. cbn [negb].
      rewrite collect_after by done. reflexivity. }
    rewrite Hc. done.
Qed.

(** X22: [_get_layer_coverage] is never negative; it is at most 1 for a
    layer whose box lies inside a canvas, and it exceeds 1 exactly when the
    box of the layer has a larger area than the canvas (both areas
    positive); it is 0 for an empty box and for a canvas without area. *)
Theorem layer_coverage_bounds (layer : Layer) (canvas_width canvas_height : Z) :
  let coverage := _get_layer_coverage layer canvas_width canvas_height in
  let layer_area :=
    (layer_right layer - layer_left layer) * (layer_bottom layer - layer_top layer) in
  (0 <= coverage)%Q
  ∧ (0 <= layer_left layer → 0 <= layer_top layer →
     layer_right layer <= canvas_width → layer_bottom layer <= canvas_height →
     (coverage <= 1)%Q)
  ∧ (layer_left layer < layer_right layer → layer_top layer < layer_bottom layer →
     0 < canvas_width * canvas_height →
     ((1 < coverage)%Q ↔ canvas_width * canvas_height < layer_area))
  ∧ (layer_right layer <= layer_left layer ∨ layer_bottom layer <= layer_top layer
     ∨ canvas_width * canvas_height <= 0 → coverage = 0%Q).
Proof.
  cbv zeta. unfold _get_layer_coverage.
  set (lw := layer_right layer - layer_left layer).
  set (lh := layer_bottom layer - layer_top layer).
  destruct (Z.leb_spec lw 0) as [Hw | Hw]; cbn [orb].
  { repeat split; try done; intros; lia. }
  destruct (Z.leb_spec lh 0) as [Hh | Hh]; cbn [orb].
  { repeat split; try done; intros; lia. }
  destruct (Z.gtb_spec (canvas_width * canvas_height) 0) as [Hc | Hc].
  - assert (Hc' : 0 < canvas_width * canvas_height) by lia.
    split; [| split; [| split]].
    + apply Qle_div_iff; [exact Hc' |]. cbn. nia.
    + intros H1 H2 H3 H4. apply Qdiv_le_iff; [exact Hc' |]. cbn. nia.
    + intros _ _ _. clear Hc.
      remember (canvas_width * canvas_height) as ca eqn:Eca.
      remember (lw * lh) as la eqn:Ela.
      destruct ca as [| c | c]; try lia.
      unfold Qlt, Qdiv, Qmult, Qinv, inject_Z. cbn. lia.
    + intros [H | [H | H]]; unfold lw, lh in *; lia.
  - repeat split; try done; intros; lia.
Qed.

End CollectFacts.

Section PlacingFacts.

Import PSDProcessor.

Variable Image : Type.
Variable image_size : Image → Z * Z.
Variable pil_new_transparent : Z → Z → Image.
Variable pil_crop : Image → Z * Z * Z * Z → Image.
Variable pil_paste : Image → Image → Z * Z → Image.

(** X23: [_place_on_canvas] pastes exactly the part of the layer image that
    lies inside the canvas: for a non-empty image placed at the layer's
    (left, top), the pasted rectangle starts at (max(0, left), max(0, top)),
    ends at (min(left + w, width), min(top + h, height)), is not empty and
    lies inside the canvas; the image is cropped exactly when it sticks out
    of the canvas; and the function returns [None] exactly when no part of
    the image lies inside the canvas. *)
Theorem place_on_canvas_inside (img : Image) (layer : Layer) (width height : Z) :
  let w := (image_size img).1 in
  let h := (image_size img).2 in
  let x := layer_left layer in
  let y := layer_top layer in
  0 < w → 0 < h →
  match place_plan w h layer width height with
  | Some (crop, (px, py)) =>
      let size := pasted_size w h crop in
      px = Z.max 0 x ∧ py = Z.max 0 y
      ∧ px + size.1 = Z.min (x + w) width ∧ py + size.2 = Z.min (y + h) height
      ∧ 0 < size.1 ∧ 0 < size.2
      ∧ 0 <= px ∧ px + size.1 <= width ∧ 0 <= py ∧ py + size.2 <= height
      ∧ (crop = None ↔ 0 <= x ∧ 0 <= y ∧ x + w <= width ∧ y + h <= height)
      ∧ is_Some (_place_on_canvas Image image_size pil_new_transparent pil_crop
                   pil_paste img layer width height)
  | None =>
      (Z.min (x + w) width <= Z.max 0 x ∨ Z.min (y + h) height <= Z.max 0 y)
      ∧ _place_on_canvas Image image_size pil_new_transparent pil_crop
          pil_paste img layer width height = None
  end.
Proof.
  intros w h x y Hw Hh. unfold _place_on_canvas. fold w h.
  unfold place_plan. fold x y.
  destruct (Z.ltb_spec x 0) as [Hx | Hx]; destruct (Z.ltb_spec y 0) as [Hy | Hy];
    destruct (Z.gtb_spec (x + w) width) as [Hr | Hr];
    destruct (Z.gtb_spec (y + h) height) as [Hb | Hb]; cbn [orb];
    try (destruct (Z.gtb_spec (Z.min w (width - x)) (Z.max 0 (- x))) as [Hc1 | Hc1];
         destruct (Z.gtb_spec (Z.min h (height - y)) (Z.max 0 (- y))) as [Hc2 | Hc2];
         cbn [andb pasted_size fst snd]);
    cbn [pasted_size fst snd];
    repeat match goal with
           | |- _ ∧ _ => split
           | |- _ ↔ _ => split
           | |- is_Some _ => eexists; reflexivity
           end;
    try reflexivity; try discriminate; try lia; intros; try discriminate; try lia.
Qed.

End PlacingFacts.

Section PsdCacheFacts.

Import PSDProcessor.

Variable PSDImage : Type.
Variable psd_open : string → exc PSDImage.

Local Abbreviation get_cached := (_get_cached_psd PSDImage psd_open).

Lemma NoDup_tail {A} (l : list A) : NoDup l → NoDup (tail l).
Proof. destruct l; [done |]. cbn. by intros [_ ?]%NoDup_cons. Qed.

Lemma not_elem_of_tail {A} (x : A) (l : list A) : x ∉ l → x ∉ tail l.
Proof. destruct l; [done |]. cbn. by intros [_ ?]%not_elem_of_cons. Qed.

Lemma dict_keys_tail {V} (d : dict V) : dict_keys (tail d) = tail (dict_keys d).
Proof. by destruct d. Qed.

(** X24: the document cache of [_get_cached_psd] holds at most 10 documents
    under distinct keys; a cached path is returned without opening the
    file and leaves the cache as it is; an uncached path is opened and,
    on success, stored as the newest entry, after the oldest entry was
    deleted when 10 were held, so that the next call returns the same
    document; when the file cannot be opened the exception propagates and
    the oldest entry of a full cache has been deleted all the same. *)
Theorem psd_cache_behaviour (cache : dict PSDImage) (template_path : string) :
  let r := get_cached cache template_path in
  let evicted := if (10 <=? length cache)%nat then tail cache else cache in
  (NoDup (dict_keys cache) → (length cache <= 10)%nat →
   NoDup (dict_keys r.2) ∧ (length r.2 <= 10)%nat)
  ∧ (∀ psd, dict_get template_path cache = Some psd → r = (ret psd, cache))
  ∧ (∀ psd, dict_get template_path cache = None →
     psd_open template_path = inr psd →
     r = (ret psd, evicted ++ [(template_path, psd)])
     ∧ get_cached r.2 template_path = (ret psd, r.2))
  ∧ (∀ e, dict_get template_path cache = None →
     psd_open template_path = inl e →
     r = (inl e, evicted)).
Proof.
  cbv zeta. unfold _get_cached_psd, _PSD_CACHE_MAX_SIZE.
  assert (Hkeep : ∀ c : dict PSDImage, template_path ∉ dict_keys c →
            template_path ∉ dict_keys (if (10 <=? length c)%nat then tail c else c)).
  { intros c Hc. destruct (10 <=? length c)%nat; [| done].
    rewrite dict_keys_tail. by apply not_elem_of_tail. }
  split; [| split; [| split]].
  - intros Hnd Hlen.
    destruct (dict_get template_path cache) as [psd |] eqn:Hget; [done |].
    apply dict_get_None in Hget.
    assert (Hnd' : NoDup (dict_keys (if (10 <=? length cache)%nat
                                     then tail cache else cache))).
    { destruct (10 <=? length cache)%nat; [| done].
      rewrite dict_keys_tail. by apply NoDup_tail. }
    assert (Hlen' : (length (if (10 <=? length cache)%nat
                             then tail cache else cache) <= 9)%nat).
    { destruct (Nat.leb_spec 10 (length cache)); [| lia].
      destruct cache; cbn in *; lia. }
    destruct (psd_open template_path) as [e | psd]; cbn [snd].
    + split; [done | lia].
    + rewrite dict_set_absent by by apply Hkeep.
      split.
      * rewrite dict_keys_app. apply NoDup_snoc; [done | by apply Hkeep].
      * rewrite length_app. cbn [length]. lia.
  - intros psd Hget. by rewrite Hget.
  - intros psd Hget Hopen. rewrite Hget, Hopen. apply dict_get_None in Hget.
    rewrite dict_set_absent by by apply Hkeep.
    split; [done |]. cbn [snd].
    by rewrite dict_get_app_absent by by apply Hkeep.
  - intros e Hget Hopen. by rewrite Hget, Hopen.
Qed.

End PsdCacheFacts.

(** ** Worked instances of the further properties *)

Section FurtherInstances.

Import PointValidator PerspectiveTransformer ColorAnalyzer SkinDetector PSDProcessor.







(** A light skin tone lies in the box. *)
Lemma skin_colour_box_witness :
  is_skin_color 10 50 200 = true ∧ 0 <= 10 <= 35 ∧ 20 <= 50 <= 100.
Proof.
  assert (H : is_skin_color 10 50 200 = true) by (vm_compute; reflexivity).
  split; [exact H |].
  destruct (skin_colour_box 10 50 200 H) as (Hh & Hs & _).
  split; [exact Hh | exact Hs].
Defined.

(** The unfeathered mask of the 5 x 5 image is a 5 x 5 mask. *)
Lemma unfeathered_mask_shape_witness :
  0 <= 0
  ∧ arr_wf (detect_skin_mask hsv8_reference no_blur 5 (Some one_skin_pixel_in_25)
              (Some 0)).
Proof.
  split; [lia |].
  pose proof (unfeathered_mask_shape hsv8_reference no_blur 5
                (Some one_skin_pixel_in_25) 0) as H.
  cbn in H. destruct H as [_ H]; [lia |].
  apply H. split; [reflexivity | repeat constructor].
Defined.

(** One opaque skin pixel: the same percentage with and without alpha. *)
Lemma skin_percentage_alpha_witness :
  Forall (λ px, chan 3 px > 127) [[200; 160; 150; 255]]
  ∧ get_skin_percentage hsv8_reference no_blur 5 (Some (Arr3 1 1 4 [[200; 160; 150; 255]]))
    = get_skin_percentage hsv8_reference no_blur 5 (Some (Arr3 1 1 3 [[200; 160; 150]])).
Proof.
  assert (Hvis : Forall (λ px, chan 3 px > 127) [[200; 160; 150; 255]]).
  { repeat constructor. }
  split; [exact Hvis |].
  destruct (skin_percentage_alpha hsv8_reference no_blur 5 1 1 [[200; 160; 150; 255]])
    as [H _]; [cbn; lia | reflexivity |].
  exact (H Hvis).
Defined.

(** 4% skin: a photo layer at 4%, hence at 3.5%. *)
Lemma is_photo_layer_threshold_antitone_witness :
  (35 # 1000 <= 4 # 100)%Q
  ∧ is_photo_layer hsv8_reference no_blur 5 (Some one_skin_pixel_in_25)
      (Some (35 # 1000)) = true.
Proof.
  split; [vm_compute; discriminate |].
  apply (is_photo_layer_threshold_antitone hsv8_reference no_blur 5
           (Some one_skin_pixel_in_25) (35 # 1000) (4 # 100));
    [vm_compute; discriminate | vm_compute; reflexivity].
Defined.
(** A missing template is reported before the points are looked at. *)
Lemma init_succeeds_iff_witness :
  demo_exists "shots/missing.png" = false
  ∧ init demo_exists demo_load "shots/missing.png" bowtie 0 0 None
    = raise "FileNotFoundError" "Template not found: shots/missing.png".
Proof.
  split; [reflexivity |].
  destruct (init_succeeds_iff demo_exists demo_load "shots/missing.png" bowtie 0 0 None)
    as (_ & H & _).
  apply H. reflexivity.
Defined.

(** The transformer built on the one-pixel template has the one area it
    was given. *)
Lemma init_valid_areas_witness :
  init demo_exists demo_load "shots/card.png" rectangle 0 0 None
  = inr (demo_transformer 1)
  ∧ _point_sets (demo_transformer 1) = [rectangle]
  ∧ Forall (λ ps, length ps = 4%nat ∧ is_self_intersecting ps = false)
      (_point_sets (demo_transformer 1)).
Proof.
  assert (H : init demo_exists demo_load "shots/card.png" rectangle 0 0 None
              = inr (demo_transformer 1)) by (vm_compute; reflexivity).
  split; [exact H |].
  destruct (init_valid_areas demo_exists demo_load "shots/card.png" rectangle 0 0 None
              (demo_transformer 1) H) as (_ & _ & _ & Hsets & _ & Hvalid & _).
  split; [exact Hsets | exact Hvalid].
Defined.


(** A cached image is served although its file is gone. *)
Lemma image_cache_behaviour_witness :
  dict_get "shots/mat.png" [("shots/mat.png", Arr2 1 1 [7])] = Some (Arr2 1 1 [7])
  ∧ FileUtils.load_image_cv2 (λ _, false)
      (λ _, raise "ValueError" "Failed to load image")
      [("shots/mat.png", Arr2 1 1 [7])] "shots/mat.png" true
    = (ret (Arr2 1 1 [7]), [("shots/mat.png", Arr2 1 1 [7])]).
Proof.
  split; [reflexivity |].
  destruct (image_cache_behaviour (λ _, false)
              (λ _, raise "ValueError" "Failed to load image")
              [("shots/mat.png", Arr2 1 1 [7])] "shots/mat.png" true)
    as (_ & _ & H & _).
  apply H; reflexivity.
Defined.

(** No product layer in the five-layer document: nothing goes to
    [after_product]. *)
Lemma collect_partition_witness :
  Forall (λ l, layer_visible l && same_layer l None = false) demo_psd
  ∧ after_product
      (_collect_layer_render_results ascii_lower hsv8_reference no_blur
         (demo_render 3) demo_psd 100 100 None) = [].
Proof.
  assert (H : Forall (λ l, layer_visible l && same_layer l None = false) demo_psd).
  { repeat constructor. }
  split; [exact H |].
  destruct (collect_partition ascii_lower hsv8_reference no_blur (demo_render 3)
              100 100 None demo_psd) as [Hnone _].
  destruct (Hnone H) as (_ & Hafter & _). exact Hafter.
Defined.

(** A 10 x 10 layer inside a 100 x 100 canvas covers at most all of it. *)
Lemma layer_coverage_bounds_witness :
  0 <= layer_left small_banner_layer
  ∧ layer_right small_banner_layer <= 100
  ∧ (_get_layer_coverage small_banner_layer 100 100 <= 1)%Q.
Proof.
  split; [cbn; lia |]. split; [cbn; lia |].
  pose proof (layer_coverage_bounds small_banner_layer 100 100) as H.
  cbv zeta in H. destruct H as (_ & H & _).
  apply H; cbn; lia.
Defined.

(** A 10 x 10 image placed at left = -5: the right half is pasted. *)
Lemma place_on_canvas_inside_witness :
  0 < 10
  ∧ is_Some (_place_on_canvas unit (λ _, (10, 10)) (λ _ _, tt) (λ img _, img)
               (λ full _ _, full) tt (mkLayer 0 "banner" true (-5) 0 5 10) 100 100).
Proof.
  split; [lia |].
  pose proof (place_on_canvas_inside unit (λ _, (10, 10)) (λ _ _, tt) (λ img _, img)
                (λ full _ _, full) tt (mkLayer 0 "banner" true (-5) 0 5 10) 100 100) as H.
  cbn in H.
  destruct H as (_ & _ & _ & _ & _ & _ & _ & _ & _ & _ & _ & H); [lia | lia |].
  exact H.
Defined.

(** The first document opened is stored and returned. *)
Lemma psd_cache_behaviour_witness :
  dict_get "card.psd" ([] : dict nat) = None
  ∧ _get_cached_psd nat (λ _, ret 7%nat) [] "card.psd"
    = (ret 7%nat, [("card.psd", 7%nat)]).
Proof.
  split; [reflexivity |].
  destruct (psd_cache_behaviour nat (λ _, ret 7%nat) [] "card.psd")
    as (_ & _ & H & _).
  destruct (H 7%nat) as [Hr _]; [reflexivity | reflexivity |].
  exact Hr.
Defined.

End FurtherInstances.
